(** * HelpDeskAgent: the plan-and-execute orchestrator of chapter4/src/agent.py

    A shallow embedding of [HelpDeskAgent] (chapter4/src/agent.py), of
    [Settings] (chapter4/src/configs.py), of the index scripts
    (chapter4/src/scripts) and of the QA search tool
    (chapter4/src/tools/search_xyz_qa.py), and of the code generator and the
    review generator of chapter5 (chapter5/src/llms/apis/openai.py,
    chapter5/src/modules).

    - Python dictionaries with a fixed set of optional keys (chat messages,
      graph states, node updates) are records whose optional keys are
      [option] fields; a value that may be Python's [None] is a second
      [option].
    - Python lists that are mutated in place ([messages.append]) live in a
      heap of list objects; a state's ["messages"] entry is a reference.
    - Exceptions are the [Raise] outcome of a state-and-exception monad; the
      heap survives a raise, as it does in Python.
    - The OpenAI client and the tool handlers are functions supplied with
      the agent; every call to them is recorded in a trace. *)

From stdpp Require Import base option list strings gmap sorting.
From Stdlib Require Import ZArith Lia Ascii.

Set Default Proof Using "Type".

(** ** Chat messages (openai.types.chat.ChatCompletionMessageParam) *)

Inductive Role := system | user | assistant | tool.

#[global] Instance Role_eq_dec : EqDecision Role.
Proof. solve_decision. Defined.

(** The [function] member of a dumped tool call: [arguments] is the JSON
    text produced by the model. *)
Record FunctionCall := {
  fn_name : string;
  fn_arguments : string;
}.

(** [tool_call.model_dump()] *)
Record ToolCall := {
  tc_id : string;
  tc_function : FunctionCall;
}.

(** A message dictionary. The outer [option] of a field says whether the key
    is present; the inner one of [content] and [tool_calls] is Python's
    [None]. *)
Record Message := {
  role : Role;
  content : option (option string);
  tool_calls : option (option (list ToolCall));
  tool_call_id : option string;
}.

Definition system_message (text : string) : Message :=
  {| role := system; content := Some (Some text);
     tool_calls := None; tool_call_id := None |}.

Definition user_message (text : string) : Message :=
  {| role := user; content := Some (Some text);
     tool_calls := None; tool_call_id := None |}.

(** [{"role": "assistant", "content": c}] *)
Definition assistant_message (c : option string) : Message :=
  {| role := assistant; content := Some c;
     tool_calls := None; tool_call_id := None |}.

(** [{"role": "assistant", "tool_calls": [...]}] *)
Definition assistant_tool_calls_message (calls : list ToolCall) : Message :=
  {| role := assistant; content := None;
     tool_calls := Some (Some calls); tool_call_id := None |}.

(** [{"role": "tool", "content": c, "tool_call_id": id}] *)
Definition tool_message (c : string) (id : string) : Message :=
  {| role := tool; content := Some (Some c);
     tool_calls := None; tool_call_id := Some id |}.

(** ** Requests to the model *)

(** [convert_to_openai_tool(tool)]: the advertised function schema. *)
Record OpenAITool := {
  ot_name : string;
  ot_description : string;
  ot_parameters : string;
}.

Inductive ResponseFormat := PlanFormat | ReflectionResultFormat.

(** The keyword arguments of [chat.completions.create] and of
    [beta.chat.completions.parse]. [rq_messages] is the content of the
    message list at the time of the call. *)
Record Request := {
  rq_model : string;
  rq_messages : list Message;
  rq_tools : option (list OpenAITool);
  rq_response_format : option ResponseFormat;
  rq_temperature : Z;
  rq_seed : Z;
}.

(** [response.choices[0].message] of a plain completion. *)
Record ChatCompletionMessage := {
  cm_content : option string;
  cm_tool_calls : option (list ToolCall);
}.

(** Modelled from the spec: [ReflectionResult] of src/models.py, which is not
    among the sources. The spec gives Reflection as
    [{ is_completed: bool, critique: string }]. *)
Record ReflectionResult := {
  rr_is_completed : bool;
  rr_critique : string;
}.

(** [Plan] of src/models.py: [subtasks: list[str]] (agent.py, lines 165-166). *)
Record Plan := { subtasks : list string }.

(** What a LangChain tool's [invoke] may be given: a string or a dictionary
    of keyword arguments. *)
Inductive ToolInput :=
| StrInput (s : string)
| DictInput (kwargs : list (string * string)).

(** ** Exceptions and the world *)

Inductive Exn :=
| ValueError (msg : string)
| KeyError (key : string)
| IndexError (msg : string)
| AttributeError (attr : string)
| GraphRecursionError
| APIError (e : string)
| ToolException (e : string).

Inductive Result (A : Type) :=
| Ok (a : A)
| Raise (e : Exn).
Arguments Ok {A} a.
Arguments Raise {A} e.

Definition is_ok {A} (r : Result A) : bool :=
  match r with Ok _ => true | Raise _ => false end.

Inductive Event :=
| ModelCall (rq : Request)
| ToolInvoke (handler : string) (input : ToolInput).

(** The heap holds the message-list objects; a reference is an index. *)
Record World := {
  heap : list (list Message);
  trace : list Event;
}.

Definition M (A : Type) : Type := World → Result A * World.

#[global] Instance M_ret : MRet M := λ A a w, (Ok a, w).

#[global] Instance M_bind : MBind M := λ A B k m w,
  match m w with
  | (Ok a, w') => k a w'
  | (Raise e, w') => (Raise e, w')
  end.

Definition raise {A} (e : Exn) : M A := λ w, (Raise e, w).

Definition emit (e : Event) : M unit := λ w,
  (Ok (), {| heap := heap w; trace := trace w ++ [e] |}).

(** A new list object. *)
Definition new_list (msgs : list Message) : M nat := λ w,
  (Ok (length (heap w)), {| heap := heap w ++ [msgs]; trace := trace w |}).

(** The content of a list object. *)
Definition read (l : nat) : M (list Message) := λ w,
  (Ok (default [] (heap w !! l)), w).

(** [messages.append(m)]: the object is changed in place. *)
Definition append (l : nat) (m : Message) : M unit := λ w,
  (Ok (), {| heap := alter (λ msgs, msgs ++ [m]) l (heap w); trace := trace w |}).

(** [d[key]] on a dictionary whose key may be missing. *)
Definition getitem {A} (key : string) (v : option A) : M A :=
  match v with
  | Some a => mret a
  | None => raise (KeyError key)
  end.

(** A call that leaves the process: the reply is a value or an error text. *)
Definition external {A} (wrap : string → Exn) (reply : string + A) : M A :=
  match reply with
  | inr a => mret a
  | inl e => raise (wrap e)
  end.

(** ** Configuration (chapter4/src/configs.py) *)

Record Settings := {
  openai_api_key : option string;
  openai_api_base : option string;
  openai_model : string;
  azure_openai_api_key : option string;
  azure_openai_endpoint : option string;
  azure_openai_deployment_name : option string;
  azure_openai_embedding_deployment_name : option string;
  azure_openai_api_version : string;
}.

(** [Settings()] reads its fields from the environment (and the .env file),
    here a map from the lower-cased variable name to its text. Every field
    has a default, and [extra="ignore"] drops every other entry. *)
Definition Settings_load (env : gmap string string) : Settings :=
  {| openai_api_key := env !! "openai_api_key";
     openai_api_base := env !! "openai_api_base";
     openai_model := default "gpt-4o-2024-08-06" (env !! "openai_model");
     azure_openai_api_key := env !! "azure_openai_api_key";
     azure_openai_endpoint := env !! "azure_openai_endpoint";
     azure_openai_deployment_name := env !! "azure_openai_deployment_name";
     azure_openai_embedding_deployment_name :=
       env !! "azure_openai_embedding_deployment_name";
     azure_openai_api_version :=
       default "2024-12-01-preview" (env !! "azure_openai_api_version") |}.

(** agent.py, line 36 *)
Definition MAX_CHALLENGE_COUNT : Z := 3.

(** [HelpDeskAgentPrompts] of src/prompts.py, which is not among the sources:
    a template applied with [.format(...)] is a function of the values it is
    given. *)
Record HelpDeskAgentPrompts := {
  planner_system_prompt : string;
  planner_user_prompt : string → string;
  subtask_system_prompt : string;
  subtask_tool_selection_user_prompt : string → list string → string → string;
  subtask_retry_answer_user_prompt : string;
  subtask_reflection_user_prompt : string;
  create_last_answer_system_prompt : string;
  create_last_answer_user_prompt :
    string → list string → list (string * option string) → string;
}.

(** The three calls the agent makes on its OpenAI client. *)
Record OpenAI := {
  chat_completions_create : Request → string + ChatCompletionMessage;
  chat_completions_parse_Plan : Request → string + option Plan;
  chat_completions_parse_ReflectionResult :
    Request → string + option ReflectionResult;
}.

Section Agent.

(** [SearchOutput] of src/models.py is not among the sources; the agent only
    stores such values and prints them with [str]. *)
Context {SearchOutput : Type}.
Variable str_results : list SearchOutput → string.
(** [reflection_result.model_dump_json()] *)
Variable model_dump_json : ReflectionResult → string.

(** A LangChain tool: its name, what [convert_to_openai_tool] reads, and its
    [invoke]. *)
Record Tool := {
  tool_name : string;
  tool_description : string;
  tool_args_schema : string;
  tool_invoke : ToolInput → string + list SearchOutput;
}.

Definition convert_to_openai_tool (t : Tool) : OpenAITool :=
  {| ot_name := tool_name t;
     ot_description := tool_description t;
     ot_parameters := tool_args_schema t |}.

(** [ToolResult(tool_name=..., args=..., results=...)] *)
Record ToolResult := {
  tr_tool_name : string;
  tr_args : string;
  tr_results : list SearchOutput;
}.

Record HelpDeskAgent := {
  settings : Settings;
  tools : list Tool;
  tool_map : gmap string Tool;
  prompts : HelpDeskAgentPrompts;
  client : OpenAI;
}.

(** [HelpDeskAgent.__init__]: in the dictionary comprehension a later tool
    replaces an earlier one of the same name. *)
Definition HelpDeskAgent_init (settings : Settings) (tools : list Tool)
    (prompts : HelpDeskAgentPrompts) (client : OpenAI) : HelpDeskAgent :=
  {| settings := settings;
     tools := tools;
     tool_map := foldl (λ m t, <[tool_name t := t]> m) ∅ tools;
     prompts := prompts;
     client := client |}.

(** ** Graph states *)

(** [AgentSubGraphState]. [sg_messages] and [sg_subtask_answer] are missing
    until a node writes them. *)
Record AgentSubGraphState := {
  sg_question : string;
  sg_plan : list string;
  sg_subtask : string;
  sg_is_completed : bool;
  sg_messages : option nat;
  sg_challenge_count : Z;
  sg_tool_results : list (list ToolResult);
  sg_reflection_results : list ReflectionResult;
  sg_subtask_answer : option (option string);
}.

(** The dictionary a sub-graph node returns. *)
Record SubGraphUpdate := {
  u_messages : option nat;
  u_tool_results : option (list (list ToolResult));
  u_reflection_results : option (list ReflectionResult);
  u_challenge_count : option Z;
  u_is_completed : option bool;
  u_subtask_answer : option (option string);
}.

(** How the update of a node enters the state: the two keys annotated with
    [operator.add] are concatenated, every other key is replaced. *)
Definition apply_update (s : AgentSubGraphState) (u : SubGraphUpdate)
    : AgentSubGraphState :=
  {| sg_question := sg_question s;
     sg_plan := sg_plan s;
     sg_subtask := sg_subtask s;
     sg_is_completed := default (sg_is_completed s) (u_is_completed u);
     sg_messages :=
       match u_messages u with Some l => Some l | None => sg_messages s end;
     sg_challenge_count := default (sg_challenge_count s) (u_challenge_count u);
     sg_tool_results := sg_tool_results s ++ default [] (u_tool_results u);
     sg_reflection_results :=
       sg_reflection_results s ++ default [] (u_reflection_results u);
     sg_subtask_answer :=
       match u_subtask_answer u with
       | Some a => Some a
       | None => sg_subtask_answer s
       end |}.

(** ** The nodes of the sub-graph *)

Variable self : HelpDeskAgent.

Definition create (rq : Request) : M ChatCompletionMessage :=
  emit (ModelCall rq);;
  external APIError (chat_completions_create (client self) rq).

Definition parse_Plan (rq : Request) : M (option Plan) :=
  emit (ModelCall rq);;
  external APIError (chat_completions_parse_Plan (client self) rq).

Definition parse_ReflectionResult (rq : Request) : M (option ReflectionResult) :=
  emit (ModelCall rq);;
  external APIError (chat_completions_parse_ReflectionResult (client self) rq).

Definition invoke (t : Tool) (input : ToolInput) : M (list SearchOutput) :=
  emit (ToolInvoke (tool_name t) input);;
  external ToolException (tool_invoke t input).

(** The condition of the list comprehension on line 244. *)
Definition keep_on_retry (message : Message) : bool :=
  bool_decide (role message ≠ tool) || bool_decide (tool_calls message = None).

Definition select_tools (state : AgentSubGraphState) : M SubGraphUpdate :=
  let openai_tools := convert_to_openai_tool <$> tools self in
  messages ←
    (if (sg_challenge_count state =? 0)%Z then
       let user_prompt :=
         subtask_tool_selection_user_prompt (prompts self)
           (sg_question state) (sg_plan state) (sg_subtask state) in
       new_list [system_message (subtask_system_prompt (prompts self));
                 user_message user_prompt]
     else
       previous ← getitem "messages" (sg_messages state);
       history ← read previous;
       messages ← new_list (filter (λ m, keep_on_retry m = true) history);
       append messages
         (user_message (subtask_retry_answer_user_prompt (prompts self)));;
       mret messages);
  sent ← read messages;
  response ← create
    {| rq_model := openai_model (settings self);
       rq_messages := sent;
       rq_tools := Some openai_tools;
       rq_response_format := None;
       rq_temperature := 0;
       rq_seed := 0 |};
  match cm_tool_calls response with
  | None => raise (ValueError "ツール呼び出しがNullです")
  | Some calls =>
      append messages (assistant_tool_calls_message calls);;
      mret {| u_messages := Some messages;
              u_tool_results := None;
              u_reflection_results := None;
              u_challenge_count := None;
              u_is_completed := None;
              u_subtask_answer := None |}
  end.

(** The [for] loop of [execute_tools]; [tool_results] is the local list. *)
Fixpoint execute_tool_calls (messages : nat) (calls : list ToolCall)
    (tool_results : list ToolResult) : M (list ToolResult) :=
  match calls with
  | [] => mret tool_results
  | tool_call :: rest =>
      let name := fn_name (tc_function tool_call) in
      let tool_args := fn_arguments (tc_function tool_call) in
      handler ← getitem name (tool_map self !! name);
      tool_result ← invoke handler (StrInput tool_args);
      let tool_results :=
        tool_results ++ [{| tr_tool_name := name;
                            tr_args := tool_args;
                            tr_results := tool_result |}] in
      append messages
        (tool_message (str_results tool_result) (tc_id tool_call));;
      execute_tool_calls messages rest tool_results
  end.

Definition execute_tools (state : AgentSubGraphState) : M SubGraphUpdate :=
  messages ← getitem "messages" (sg_messages state);
  history ← read messages;
  final ← match last history with
          | Some m => mret m
          | None => raise (IndexError "list index out of range")
          end;
  calls ← getitem "tool_calls" (tool_calls final);
  match calls with
  | None => raise (ValueError "ツール呼び出しがNullです")
  | Some calls =>
      tool_results ← execute_tool_calls messages calls [];
      mret {| u_messages := Some messages;
              u_tool_results := Some [tool_results];
              u_reflection_results := None;
              u_challenge_count := None;
              u_is_completed := None;
              u_subtask_answer := None |}
  end.

Definition create_subtask_answer (state : AgentSubGraphState)
    : M SubGraphUpdate :=
  messages ← getitem "messages" (sg_messages state);
  sent ← read messages;
  response ← create
    {| rq_model := openai_model (settings self);
       rq_messages := sent;
       rq_tools := None;
       rq_response_format := None;
       rq_temperature := 0;
       rq_seed := 0 |};
  let subtask_answer := cm_content response in
  append messages (assistant_message subtask_answer);;
  mret {| u_messages := Some messages;
          u_tool_results := None;
          u_reflection_results := None;
          u_challenge_count := None;
          u_is_completed := None;
          u_subtask_answer := Some subtask_answer |}.

Definition reflect_subtask (state : AgentSubGraphState) : M SubGraphUpdate :=
  messages ← getitem "messages" (sg_messages state);
  append messages
    (user_message (subtask_reflection_user_prompt (prompts self)));;
  sent ← read messages;
  parsed ← parse_ReflectionResult
    {| rq_model := openai_model (settings self);
       rq_messages := sent;
       rq_tools := None;
       rq_response_format := Some ReflectionResultFormat;
       rq_temperature := 0;
       rq_seed := 0 |};
  match parsed with
  | None => raise (ValueError "内省結果がNullです")
  | Some reflection_result =>
      append messages
        (assistant_message (Some (model_dump_json reflection_result)));;
      let challenge_count := (sg_challenge_count state + 1)%Z in
      mret {| u_messages := Some messages;
              u_tool_results := None;
              u_reflection_results := Some [reflection_result];
              u_challenge_count := Some challenge_count;
              u_is_completed := Some (rr_is_completed reflection_result);
              u_subtask_answer :=
                if (MAX_CHALLENGE_COUNT <=? challenge_count)%Z
                   && negb (rr_is_completed reflection_result)
                then Some (Some (sg_subtask state
                                 +:+ "の回答が見つかりませんでした。"))
                else None |}
  end.

(** ** The sub-graph ([_create_subgraph]) *)

Inductive Flow := flow_end | flow_continue.

Definition _should_continue_exec_subtask_flow (state : AgentSubGraphState)
    : Flow :=
  if sg_is_completed state
     || (MAX_CHALLENGE_COUNT <=? sg_challenge_count state)%Z
  then flow_end
  else flow_continue.

Inductive SubGraphNode :=
| n_select_tools
| n_execute_tools
| n_create_subtask_answer
| n_reflect_subtask
| n_END.

#[global] Instance SubGraphNode_eq_dec : EqDecision SubGraphNode.
Proof. solve_decision. Defined.

(** [workflow.add_node] *)
Definition node_action (n : SubGraphNode)
    : AgentSubGraphState → M SubGraphUpdate :=
  match n with
  | n_select_tools => select_tools
  | n_execute_tools => execute_tools
  | n_create_subtask_answer => create_subtask_answer
  | n_reflect_subtask => reflect_subtask
  | n_END => λ _, mret {| u_messages := None; u_tool_results := None;
                          u_reflection_results := None;
                          u_challenge_count := None; u_is_completed := None;
                          u_subtask_answer := None |}
  end.

(** [workflow.add_edge] and [workflow.add_conditional_edges]: the node that
    follows [n] once its update has entered the state. *)
Definition next_node (n : SubGraphNode) (state : AgentSubGraphState)
    : SubGraphNode :=
  match n with
  | n_select_tools => n_execute_tools
  | n_execute_tools => n_create_subtask_answer
  | n_create_subtask_answer => n_reflect_subtask
  | n_reflect_subtask =>
      match _should_continue_exec_subtask_flow state with
      | flow_continue => n_select_tools
      | flow_end => n_END
      end
  | n_END => n_END
  end.

(** One step of the compiled sub-graph: run the node, merge its update,
    follow the edge. Nothing happens at [END]. *)
Definition subgraph_step (c : SubGraphNode * AgentSubGraphState)
    : M (SubGraphNode * AgentSubGraphState) :=
  match c.1 with
  | n_END => mret c
  | n =>
      update ← node_action n c.2;
      let state := apply_update c.2 update in
      mret (next_node n state, state)
  end.

(** [k] steps from a configuration. *)
Fixpoint subgraph_steps (k : nat) (c : SubGraphNode * AgentSubGraphState)
    : M (SubGraphNode * AgentSubGraphState) :=
  match k with
  | O => mret c
  | S k => c' ← subgraph_step c; subgraph_steps k c'
  end.

(** [subgraph.invoke]: the graph runs until [END]; when [recursion_limit]
    steps did not reach it, LangGraph raises [GraphRecursionError]. *)
Fixpoint subgraph_run (recursion_limit : nat)
    (c : SubGraphNode * AgentSubGraphState) : M AgentSubGraphState :=
  match c.1, recursion_limit with
  | n_END, _ => mret c.2
  | _, O => raise GraphRecursionError
  | _, S limit => c' ← subgraph_step c; subgraph_run limit c'
  end.

(** ** The main graph *)

(** [Subtask(task_name=..., ...)] of src/models.py *)
Record Subtask := {
  task_name : string;
  st_tool_results : list (list ToolResult);
  st_reflection_results : list ReflectionResult;
  st_is_completed : bool;
  st_subtask_answer : option string;
  st_challenge_count : Z;
}.

(** [AgentState]. [plan] and [last_answer] are missing until a node writes
    them; [subtask_results] is annotated with [operator.add]. *)
Record AgentState := {
  question : string;
  plan : option (list string);
  current_step : nat;
  subtask_results : list Subtask;
  last_answer : option (option string);
}.

(** The dictionary a node of the main graph returns. *)
Record AgentUpdate := {
  up_plan : option (list string);
  up_subtask_results : option (list Subtask);
  up_last_answer : option (option string);
}.

Definition apply_agent_update (s : AgentState) (u : AgentUpdate) : AgentState :=
  {| question := question s;
     plan := match up_plan u with Some p => Some p | None => plan s end;
     current_step := current_step s;
     subtask_results := subtask_results s ++ default [] (up_subtask_results u);
     last_answer :=
       match up_last_answer u with
       | Some a => Some a
       | None => last_answer s
       end |}.

Record AgentResult := {
  ar_question : string;
  ar_plan : Plan;
  ar_subtasks : list Subtask;
  ar_answer : option string;
}.

Definition create_plan (state : AgentState) : M AgentUpdate :=
  let system_prompt := planner_system_prompt (prompts self) in
  let user_prompt := planner_user_prompt (prompts self) (question state) in
  let messages := [system_message system_prompt; user_message user_prompt] in
  parsed ← parse_Plan
    {| rq_model := openai_model (settings self);
       rq_messages := messages;
       rq_tools := None;
       rq_response_format := Some PlanFormat;
       rq_temperature := 0;
       rq_seed := 0 |};
  (* [plan.subtasks] on [None] *)
  plan ← match parsed with
         | Some p => mret p
         | None => raise (AttributeError "subtasks")
         end;
  mret {| up_plan := Some (subtasks plan);
          up_subtask_results := None;
          up_last_answer := None |}.

Definition create_answer (state : AgentState) : M AgentUpdate :=
  let system_prompt := create_last_answer_system_prompt (prompts self) in
  let results :=
    (λ result, (task_name result, st_subtask_answer result))
      <$> subtask_results state in
  plan ← getitem "plan" (plan state);
  let user_prompt :=
    create_last_answer_user_prompt (prompts self) (question state) plan results in
  let messages := [system_message system_prompt; user_message user_prompt] in
  response ← create
    {| rq_model := openai_model (settings self);
       rq_messages := messages;
       rq_tools := None;
       rq_response_format := None;
       rq_temperature := 0;
       rq_seed := 0 |};
  mret {| up_plan := None;
          up_subtask_results := None;
          up_last_answer := Some (cm_content response) |}.

(** [subgraph.invoke] is called without a configuration, so LangGraph's
    default recursion limit applies. *)
Definition default_recursion_limit : nat := 25.

(** The input of [subgraph.invoke] in [_execute_subgraph]; the two keys
    annotated with [operator.add] start empty. *)
Definition subgraph_input (question : string) (plan : list string)
    (subtask : string) : AgentSubGraphState :=
  {| sg_question := question;
     sg_plan := plan;
     sg_subtask := subtask;
     sg_is_completed := false;
     sg_messages := None;
     sg_challenge_count := 0;
     sg_tool_results := [];
     sg_reflection_results := [];
     sg_subtask_answer := None |}.

Definition _execute_subgraph (state : AgentState) : M AgentUpdate :=
  plan ← getitem "plan" (plan state);
  subtask ← match plan !! current_step state with
            | Some s => mret s
            | None => raise (IndexError "list index out of range")
            end;
  result ← subgraph_run default_recursion_limit
    (n_select_tools, subgraph_input (question state) plan subtask);
  subtask_answer ← getitem "subtask_answer" (sg_subtask_answer result);
  let subtask_result :=
    {| task_name := sg_subtask result;
       st_tool_results := sg_tool_results result;
       st_reflection_results := sg_reflection_results result;
       st_is_completed := sg_is_completed result;
       st_subtask_answer := subtask_answer;
       st_challenge_count := sg_challenge_count result |} in
  mret {| up_plan := None;
          up_subtask_results := Some [subtask_result];
          up_last_answer := None |}.

(** [Send(node, arg)] *)
Record Send := {
  send_node : string;
  send_arg : AgentState;
}.

Definition _should_continue_exec_subtasks (state : AgentState) : M (list Send) :=
  plan ← getitem "plan" (plan state);
  mret (imap (λ idx _,
          {| send_node := "execute_subtasks";
             send_arg := {| question := question state;
                            plan := Some plan;
                            current_step := idx;
                            subtask_results := [];
                            last_answer := None |} |}) plan).

(** [workflow.add_node] of [create_graph] *)
Definition main_node (name : string) : AgentState → M AgentUpdate :=
  if decide (name = "create_plan") then create_plan
  else if decide (name = "execute_subtasks") then _execute_subgraph
  else if decide (name = "create_answer") then create_answer
  else λ _, raise (KeyError name).

(** Modelled from the spec: the fan-out of the graph engine (LangGraph's
    Pregel loop), which is not among the sources. One child is launched per
    [Send]; [order] lists the positions of the [Send]s in the order in which
    the children run to completion, and each child contributes the update of
    its node. A child that raises fails the run. *)
Fixpoint run_children (sends : list Send) (order : list nat)
    : M (list (nat * AgentUpdate)) :=
  match order with
  | [] => mret []
  | i :: rest =>
      match sends !! i with
      | None => run_children sends rest
      | Some child =>
          update ← main_node (send_node child) (send_arg child);
          writes ← run_children sends rest;
          mret ((i, update) :: writes)
      end
  end.

(** The fan-out index orders the buffered contributions. *)
Definition by_index (a b : nat * AgentUpdate) : Prop := a.1 ≤ b.1.

#[global] Instance by_index_dec : RelDecision by_index :=
  λ a b, decide (a.1 ≤ b.1).

(** Modelled from the spec: the join of the graph engine. The contributions
    are buffered and enter the state in fan-out-index order, not in
    completion order. *)
Definition join (state : AgentState) (writes : list (nat * AgentUpdate))
    : AgentState :=
  foldl apply_agent_update state (snd <$> merge_sort by_index writes).

(** [app.invoke] on the graph of [create_graph]:
    START → create_plan → (one execute_subtasks per Send) → create_answer.
    With no [Send] nothing triggers [create_answer] and the graph ends after
    [create_plan]. *)
Definition graph_invoke (order : list nat) (input : AgentState) : M AgentState :=
  update ← main_node "create_plan" input;
  let state := apply_agent_update input update in
  sends ← _should_continue_exec_subtasks state;
  match sends with
  | [] => mret state
  | _ =>
      writes ← run_children sends order;
      let state := join state writes in
      update ← main_node "create_answer" state;
      mret (apply_agent_update state update)
  end.

Definition run_agent (order : list nat) (question : string) : M AgentResult :=
  result ← graph_invoke order
    {| question := question;
       plan := None;
       current_step := 0;
       subtask_results := [];
       last_answer := None |};
  plan ← getitem "plan" (plan result);
  answer ← getitem "last_answer" (last_answer result);
  mret {| ar_question := question;
          ar_plan := {| subtasks := plan |};
          ar_subtasks := subtask_results result;
          ar_answer := answer |}.

End Agent.

Arguments Tool : clear implicits.
Arguments ToolResult : clear implicits.
Arguments HelpDeskAgent : clear implicits.
Arguments AgentSubGraphState : clear implicits.
Arguments SubGraphUpdate : clear implicits.
Arguments Subtask : clear implicits.
Arguments AgentState : clear implicits.
Arguments AgentUpdate : clear implicits.
Arguments AgentResult : clear implicits.
Arguments Send : clear implicits.

(** * The vocabulary of the properties *)

(** [emits P Q m]: a run of [m] only adds events to the trace; all of them
    satisfy [P], and they satisfy [Q] when [m] returns. *)
Definition emits {A} (P Q : Event → Prop) (m : M A) : Prop :=
  ∀ w r w', m w = (r, w') →
    ∃ events, trace w' = trace w ++ events ∧
              Forall P events ∧ (is_ok r = true → Forall Q events).

(** The parameters every request of the agent carries. *)
Definition pinned (rq : Request) : Prop :=
  rq_temperature rq = 0%Z ∧ rq_seed rq = 0%Z.

(** What the agent lets out: requests with pinned parameters, and tool
    inputs that are strings. *)
Definition well_formed_event (e : Event) : Prop :=
  match e with
  | ModelCall rq => pinned rq
  | ToolInvoke _ input => ∃ text, input = StrInput text
  end.

(** A request that advertises tools was answered with tool calls. *)
Definition answered_with_tool_calls (c : OpenAI) (e : Event) : Prop :=
  match e with
  | ModelCall rq =>
      rq_tools rq ≠ None →
      ∃ m calls, chat_completions_create c rq = inr m ∧
                 cm_tool_calls m = Some calls
  | ToolInvoke _ _ => True
  end.

(** Two clients that answer alike whenever the parameters are pinned. *)
Definition clients_agree (c1 c2 : OpenAI) : Prop :=
  ∀ rq, pinned rq →
    chat_completions_create c1 rq = chat_completions_create c2 rq ∧
    chat_completions_parse_Plan c1 rq = chat_completions_parse_Plan c2 rq ∧
    chat_completions_parse_ReflectionResult c1 rq
      = chat_completions_parse_ReflectionResult c2 rq.

(** Two agents that differ at most in how their clients answer requests
    whose parameters are not pinned. *)
Definition agents_agree {SearchOutput : Type}
    (a b : HelpDeskAgent SearchOutput) : Prop :=
  settings a = settings b ∧ tools a = tools b ∧ tool_map a = tool_map b ∧
  prompts a = prompts b ∧ clients_agree (client a) (client b).

(** A state without its reference to the message list. *)
Definition erase {SearchOutput : Type} (s : AgentSubGraphState SearchOutput)
    : AgentSubGraphState SearchOutput :=
  {| sg_question := sg_question s;
     sg_plan := sg_plan s;
     sg_subtask := sg_subtask s;
     sg_is_completed := sg_is_completed s;
     sg_messages := None;
     sg_challenge_count := sg_challenge_count s;
     sg_tool_results := sg_tool_results s;
     sg_reflection_results := sg_reflection_results s;
     sg_subtask_answer := sg_subtask_answer s |}.

(** Two states in two worlds look alike: they agree up to the reference, and
    the lists they refer to have the same content. *)
Definition same_view {SearchOutput : Type}
    (s1 : AgentSubGraphState SearchOutput) (w1 : World)
    (s2 : AgentSubGraphState SearchOutput) (w2 : World) : Prop :=
  erase s1 = erase s2 ∧
  match sg_messages s1, sg_messages s2 with
  | None, None => True
  | Some l1, Some l2 =>
      ∃ history, heap w1 !! l1 = Some history ∧ heap w2 !! l2 = Some history
  | _, _ => False
  end.

(** Two outcomes are alike: the same error, or results related by [R]. *)
Definition same_outcome {A} (R : A → World → A → World → Prop)
    (o1 o2 : Result A * World) : Prop :=
  match o1.1, o2.1 with
  | Ok a1, Ok a2 => R a1 o1.2 a2 o2.2
  | Raise e1, Raise e2 => e1 = e2
  | _, _ => False
  end.

Section Vocabulary.
Context {SearchOutput : Type}.
Variable str_results : list SearchOutput → string.
Variable model_dump_json : ReflectionResult → string.
Variable self : HelpDeskAgent SearchOutput.

(** The round invariant of the sub-task loop. [s0] is the state the loop
    started from. Between the selector and the reflector of a round the
    counter is below the bound; at [END] it is at least one, and the loop
    is there because the reflector was satisfied or the bound was reached. *)
Definition round_inv (s0 : AgentSubGraphState SearchOutput)
    (c : SubGraphNode * AgentSubGraphState SearchOutput) : Prop :=
  let r := sg_challenge_count c.2 in
  let grown (f : AgentSubGraphState SearchOutput → nat) (d : Z) :=
    Z.of_nat (f c.2) = (Z.of_nat (f s0) + r + d)%Z in
  sg_subtask c.2 = sg_subtask s0 ∧
  (0 ≤ r ≤ MAX_CHALLENGE_COUNT)%Z ∧
  grown (λ s, length (sg_reflection_results s)) 0%Z ∧
  match c.1 with
  | n_select_tools | n_execute_tools =>
      (r < MAX_CHALLENGE_COUNT)%Z ∧
      grown (λ s, length (sg_tool_results s)) 0%Z
  | n_create_subtask_answer | n_reflect_subtask =>
      (r < MAX_CHALLENGE_COUNT)%Z ∧
      grown (λ s, length (sg_tool_results s)) 1%Z
  | n_END =>
      (1 ≤ r)%Z ∧
      grown (λ s, length (sg_tool_results s)) 0%Z ∧
      (sg_is_completed c.2 = true ∨ r = MAX_CHALLENGE_COUNT) ∧
      (sg_is_completed c.2 = false →
       sg_subtask_answer c.2 =
         Some (Some (sg_subtask s0 +:+ "の回答が見つかりませんでした。")))
  end.

(** The steps a configuration still needs, at most. *)
Definition budget (c : SubGraphNode * AgentSubGraphState SearchOutput) : nat :=
  let rounds := Z.to_nat (MAX_CHALLENGE_COUNT - sg_challenge_count c.2) in
  match c.1 with
  | n_select_tools => 4 * rounds
  | n_execute_tools => 4 * rounds - 1
  | n_create_subtask_answer => 4 * rounds - 2
  | n_reflect_subtask => 4 * rounds - 3
  | n_END => 0
  end.

(** The registry has a handler for the call, and the handler, given the
    text of the arguments, returned [o.2]. *)
Definition handled (c : ToolCall) (o : Tool SearchOutput * list SearchOutput)
    : Prop :=
  tool_map self !! fn_name (tc_function c) = Some o.1 ∧
  tool_invoke o.1 (StrInput (fn_arguments (tc_function c))) = inr o.2.

(** The call cannot be served: no handler of that name, or the handler
    raised. *)
Definition fails (c : ToolCall) (e : Exn) : Prop :=
  (tool_map self !! fn_name (tc_function c) = None ∧
   e = KeyError (fn_name (tc_function c))) ∨
  (∃ t msg, tool_map self !! fn_name (tc_function c) = Some t ∧
            tool_invoke t (StrInput (fn_arguments (tc_function c))) = inl msg ∧
            e = ToolException msg).

(** The role=tool message of a served call. *)
Definition tool_reply (c : ToolCall) (o : Tool SearchOutput * list SearchOutput)
    : Message :=
  tool_message (str_results o.2) (tc_id c).

(** The [ToolResult] of a served call. *)
Definition tool_record (c : ToolCall) (o : Tool SearchOutput * list SearchOutput)
    : ToolResult SearchOutput :=
  {| tr_tool_name := fn_name (tc_function c);
     tr_args := fn_arguments (tc_function c);
     tr_results := o.2 |}.

(** The event of a served call. *)
Definition tool_event (c : ToolCall) (o : Tool SearchOutput * list SearchOutput)
    : Event :=
  ToolInvoke (tool_name o.1) (StrInput (fn_arguments (tc_function c))).

(** The events of a call that cannot be served: its handler, if there is
    one, was invoked. *)
Definition failed_call_events (c : ToolCall) : list Event :=
  match tool_map self !! fn_name (tc_function c) with
  | Some t =>
      [ToolInvoke (tool_name t) (StrInput (fn_arguments (tc_function c)))]
  | None => []
  end.

(** The event of dispatching call [c] to handler [t]. *)
Definition dispatch_event (c : ToolCall) (t : Tool SearchOutput) : Event :=
  ToolInvoke (tool_name t) (StrInput (fn_arguments (tc_function c))).

(** The content of the list object the state refers to. *)
Definition buffer (s : AgentSubGraphState SearchOutput) (w : World)
    : list Message :=
  match sg_messages s with
  | Some l => default [] (heap w !! l)
  | None => []
  end.

(** The list the selector builds before it calls the model. *)
Definition selector_messages (s : AgentSubGraphState SearchOutput)
    (history : list Message) : list Message :=
  if (sg_challenge_count s =? 0)%Z then
    [system_message (subtask_system_prompt (prompts self));
     user_message (subtask_tool_selection_user_prompt (prompts self)
                     (sg_question s) (sg_plan s) (sg_subtask s))]
  else
    filter (λ m, keep_on_retry m = true) history
    ++ [user_message (subtask_retry_answer_user_prompt (prompts self))].

(** The request of the selector. *)
Definition selector_request (s : AgentSubGraphState SearchOutput)
    (history : list Message) : Request :=
  {| rq_model := openai_model (settings self);
     rq_messages := selector_messages s history;
     rq_tools := Some (convert_to_openai_tool <$> tools self);
     rq_response_format := None;
     rq_temperature := 0;
     rq_seed := 0 |}.

(** The contribution of one child. *)
Definition contribution (st : Subtask SearchOutput) : AgentUpdate SearchOutput :=
  {| up_plan := None; up_subtask_results := Some [st]; up_last_answer := None |}.

(** The request of the answer synthesizer. *)
Definition answer_request (history : list Message) : Request :=
  {| rq_model := openai_model (settings self);
     rq_messages := history;
     rq_tools := None;
     rq_response_format := None;
     rq_temperature := 0;
     rq_seed := 0 |}.

(** The request of the reflector. *)
Definition reflection_request (history : list Message) : Request :=
  {| rq_model := openai_model (settings self);
     rq_messages :=
       history
       ++ [user_message (subtask_reflection_user_prompt (prompts self))];
     rq_tools := None;
     rq_response_format := Some ReflectionResultFormat;
     rq_temperature := 0;
     rq_seed := 0 |}.

(** The empty dictionary. *)
Definition no_update : AgentUpdate SearchOutput :=
  {| up_plan := None; up_subtask_results := None; up_last_answer := None |}.

(** What child [i] contributes, read off a run in the empty world. *)
Definition child_update (sends : list (Send SearchOutput)) (i : nat)
    : AgentUpdate SearchOutput :=
  match sends !! i with
  | Some c =>
      match (_execute_subgraph str_results model_dump_json self (send_arg c)
               {| heap := []; trace := [] |}).1 with
      | Ok u => u
      | Raise _ => no_update
      end
  | None => no_update
  end.

(** The [Send]s of a plan. *)
Definition sends_of (state : AgentState SearchOutput) (p : list string)
    : list (Send SearchOutput) :=
  imap (λ idx _,
     {| send_node := "execute_subtasks";
        send_arg := {| question := question state;
                       plan := Some p;
                       current_step := idx;
                       subtask_results := [];
                       last_answer := None |} |}) p.

End Vocabulary.

(** * The vocabulary of the conversation *)

(** A message that the comprehension of line 244 keeps whatever its role. *)
Definition kept (m : Message) : Prop := role m = tool → tool_calls m = None.

Definition is_model_call (e : Event) : bool :=
  match e with
  | ModelCall _ => true
  | ToolInvoke _ _ => false
  end.

(** The number of requests to the model among the events. *)
Definition model_calls (events : list Event) : nat :=
  length (filter (λ e, is_model_call e = true) events).

(** The handler invocations among the events: handler name and input. *)
Definition tool_invocations (events : list Event) : list (string * ToolInput) :=
  omap (λ e, match e with
             | ToolInvoke handler input => Some (handler, input)
             | ModelCall _ => None
             end) events.

Section Conversation.
Context {SearchOutput : Type}.
Variable str_results : list SearchOutput → string.
Variable model_dump_json : ReflectionResult → string.
Variable self : HelpDeskAgent SearchOutput.

(** What the [tool_results] of a state say was invoked. *)
Definition recorded (rounds : list (list (ToolResult SearchOutput)))
    : list (string * ToolInput) :=
  (λ r, (tr_tool_name r, StrInput (tr_args r))) <$> concat rounds.

(** The requests a node makes when it returns. *)
Definition quota (n : SubGraphNode) : nat :=
  match n with
  | n_select_tools | n_create_subtask_answer | n_reflect_subtask => 1
  | n_execute_tools | n_END => 0
  end.

(** The requests made so far when the loop is at [c]. *)
Definition used (c : SubGraphNode * AgentSubGraphState SearchOutput) : nat :=
  3 * Z.to_nat (sg_challenge_count c.2) +
  match c.1 with
  | n_select_tools | n_END => 0
  | n_execute_tools | n_create_subtask_answer => 1
  | n_reflect_subtask => 2
  end.

(** The messages the selector puts before the model's reply: the two
    opening prompts in the first round, the retry prompt afterwards. *)
Definition round_prompt (s : AgentSubGraphState SearchOutput) : list Message :=
  if (sg_challenge_count s =? 0)%Z then
    [system_message (subtask_system_prompt (prompts self));
     user_message (subtask_tool_selection_user_prompt (prompts self)
                     (sg_question s) (sg_plan s) (sg_subtask s))]
  else [user_message (subtask_retry_answer_user_prompt (prompts self))].

(** Where the message list of the loop stands at each node. From the
    executor on the state refers to a list object; at the executor its last
    message is the assistant message with the tool calls; from the reflector
    on there is a sub-task answer. *)
Definition buffer_inv (c : SubGraphNode * AgentSubGraphState SearchOutput)
    (w : World) : Prop :=
  (0 ≤ sg_challenge_count c.2)%Z ∧
  match c.1 with
  | n_select_tools =>
      (sg_challenge_count c.2 = 0%Z ∧ sg_messages c.2 = None) ∨
      (sg_challenge_count c.2 ≠ 0%Z ∧
       ∃ l history, sg_messages c.2 = Some l ∧ heap w !! l = Some history ∧
                    Forall kept history)
  | n_execute_tools =>
      ∃ l history calls,
        sg_messages c.2 = Some l ∧
        heap w !! l = Some (history ++ [assistant_tool_calls_message calls]) ∧
        Forall kept history
  | n_create_subtask_answer =>
      ∃ l history, sg_messages c.2 = Some l ∧ heap w !! l = Some history ∧
                   Forall kept history
  | n_reflect_subtask | n_END =>
      ∃ l history, sg_messages c.2 = Some l ∧ heap w !! l = Some history ∧
                   Forall kept history ∧ is_Some (sg_subtask_answer c.2)
  end.

(** What one step of the loop adds to the message list and to the trace. *)
Definition step_adds (n : SubGraphNode) (s s' : AgentSubGraphState SearchOutput)
    (history added : list Message) (events : list Event) : Prop :=
  match n with
  | n_select_tools =>
      ∃ m calls,
        chat_completions_create (client self)
          (selector_request self s history) = inr m ∧
        cm_tool_calls m = Some calls ∧
        rq_messages (selector_request self s history)
          = history ++ round_prompt s ∧
        events = [ModelCall (selector_request self s history)] ∧
        added = round_prompt s ++ [assistant_tool_calls_message calls]
  | n_execute_tools =>
      ∃ calls outcomes,
        last history = Some (assistant_tool_calls_message calls) ∧
        Forall2 (handled self) calls outcomes ∧
        events = zip_with tool_event calls outcomes ∧
        added = zip_with (tool_reply str_results) calls outcomes ∧
        sg_tool_results s'
          = sg_tool_results s ++ [zip_with tool_record calls outcomes]
  | n_create_subtask_answer =>
      ∃ m,
        chat_completions_create (client self) (answer_request self history)
          = inr m ∧
        events = [ModelCall (answer_request self history)] ∧
        added = [assistant_message (cm_content m)] ∧
        sg_subtask_answer s' = Some (cm_content m)
  | n_reflect_subtask =>
      ∃ r,
        chat_completions_parse_ReflectionResult (client self)
          (reflection_request self history) = inr (Some r) ∧
        events = [ModelCall (reflection_request self history)] ∧
        added = [user_message (subtask_reflection_user_prompt (prompts self));
                 assistant_message (Some (model_dump_json r))] ∧
        sg_is_completed s' = rr_is_completed r
  | n_END => events = [] ∧ added = []
  end.

(** The errors of the nodes of the sub-graph. *)
Definition node_error (e : Exn) : Prop :=
  (∃ msg, e = APIError msg) ∨
  e = ValueError "ツール呼び出しがNullです" ∨
  e = ValueError "内省結果がNullです" ∨
  (∃ name, e = KeyError name ∧ tool_map self !! name = None) ∨
  (∃ msg, e = ToolException msg).

(** A record of [tool_results] that a registered handler produced from the
    recorded arguments. *)
Definition genuine (r : ToolResult SearchOutput) : Prop :=
  ∃ t, tool_map self !! tr_tool_name r = Some t ∧
       tool_invoke t (StrInput (tr_args r)) = inr (tr_results r).

(** The [Subtask] that [_execute_subgraph] builds from the final state of
    the loop. *)
Definition subtask_of (result : AgentSubGraphState SearchOutput)
    (answer : option string) : Subtask SearchOutput :=
  {| task_name := sg_subtask result;
     st_tool_results := sg_tool_results result;
     st_reflection_results := sg_reflection_results result;
     st_is_completed := sg_is_completed result;
     st_subtask_answer := answer;
     st_challenge_count := sg_challenge_count result |}.

(** The request of the planner. *)
Definition plan_request (question : string) : Request :=
  {| rq_model := openai_model (settings self);
     rq_messages :=
       [system_message (planner_system_prompt (prompts self));
        user_message (planner_user_prompt (prompts self) question)];
     rq_tools := None;
     rq_response_format := Some PlanFormat;
     rq_temperature := 0;
     rq_seed := 0 |}.

(** The request of the last answer, for the sub-tasks [sts]. *)
Definition last_answer_request (question : string) (p : list string)
    (sts : list (Subtask SearchOutput)) : Request :=
  {| rq_model := openai_model (settings self);
     rq_messages :=
       [system_message (create_last_answer_system_prompt (prompts self));
        user_message
          (create_last_answer_user_prompt (prompts self) question p
             ((λ st, (task_name st, st_subtask_answer st)) <$> sts))];
     rq_tools := None;
     rq_response_format := None;
     rq_temperature := 0;
     rq_seed := 0 |}.

End Conversation.

(** * A help desk with one tool *)

Module Example.

Definition str (hits : list string) : string := String.concat "; " hits.

Definition dump (r : ReflectionResult) : string :=
  if rr_is_completed r then "{is_completed: true}" else "{is_completed: false}".

(** The handler tells what it was given. *)
Definition search_xyz_manual : Tool string :=
  {| tool_name := "search_xyz_manual";
     tool_description := "keyword search in the manual";
     tool_args_schema := "{keywords: string}";
     tool_invoke := λ input,
       match input with
       | StrInput text => inr ["text " +:+ text]
       | DictInput _ => inr ["parsed arguments"]
       end |}.

Definition prompts : HelpDeskAgentPrompts :=
  {| planner_system_prompt := "plan";
     planner_user_prompt := λ question, "question: " +:+ question;
     subtask_system_prompt := "solve the sub-task";
     subtask_tool_selection_user_prompt := λ question plan subtask,
       "sub-task: " +:+ subtask;
     subtask_retry_answer_user_prompt := "try another tool";
     subtask_reflection_user_prompt := "reflect";
     create_last_answer_system_prompt := "summarise";
     create_last_answer_user_prompt := λ question plan results,
       "results for: " +:+ question |}.

Definition manual_call : ToolCall :=
  {| tc_id := "call_1";
     tc_function := {| fn_name := "search_xyz_manual";
                       fn_arguments := "{keywords: ERR-404}" |} |}.

(** A call to a tool that is not registered. *)
Definition web_call : ToolCall :=
  {| tc_id := "call_2";
     tc_function := {| fn_name := "search_web";
                       fn_arguments := "{query: ERR-404}" |} |}.

(** A model stub: it plans [plan], selects [calls], answers "found it", and
    its reflection says [satisfied]. *)
Definition stub (plan : list string) (calls : option (list ToolCall))
    (satisfied : bool) : OpenAI :=
  {| chat_completions_create := λ rq,
       inr (match rq_tools rq with
            | Some _ => {| cm_content := None; cm_tool_calls := calls |}
            | None => {| cm_content := Some "found it"; cm_tool_calls := None |}
            end);
     chat_completions_parse_Plan := λ rq, inr (Some {| subtasks := plan |});
     chat_completions_parse_ReflectionResult := λ rq,
       inr (Some {| rr_is_completed := satisfied; rr_critique := EmptyString |}) |}.

(** The same stub, except that it refuses requests whose temperature is not
    zero. *)
Definition strict (c : OpenAI) : OpenAI :=
  {| chat_completions_create := λ rq,
       if (rq_temperature rq =? 0)%Z then chat_completions_create c rq
       else inl "temperature";
     chat_completions_parse_Plan := λ rq,
       if (rq_temperature rq =? 0)%Z then chat_completions_parse_Plan c rq
       else inl "temperature";
     chat_completions_parse_ReflectionResult := λ rq,
       if (rq_temperature rq =? 0)%Z
       then chat_completions_parse_ReflectionResult c rq
       else inl "temperature" |}.

Definition agent_with (env : gmap string string) (c : OpenAI)
    : HelpDeskAgent string :=
  HelpDeskAgent_init (Settings_load env) [search_xyz_manual] prompts c.

Definition agent (plan : list string) (calls : option (list ToolCall))
    (satisfied : bool) : HelpDeskAgent string :=
  agent_with ∅ (stub plan calls satisfied).

Definition empty_world : World := {| heap := []; trace := [] |}.

Definition input : AgentSubGraphState string :=
  subgraph_input "what is ERR-404?" ["look up ERR-404"] "look up ERR-404".

(** The state and the world after one unsatisfied round. *)
Definition after_one_round : Result (SubGraphNode * AgentSubGraphState string) * World :=
  subgraph_steps str dump (agent ["look up ERR-404"] (Some [manual_call]) false)
    4 (n_select_tools, input) empty_world.

Definition retry_state : AgentSubGraphState string :=
  match after_one_round.1 with
  | Ok c => c.2
  | Raise _ => input
  end.

(** The state and the world right after the selector asked for two calls,
    the second of them to a tool that is not registered. *)
Definition two_calls_selected
    : Result (SubGraphNode * AgentSubGraphState string) * World :=
  subgraph_steps str dump
    (agent ["look up ERR-404"] (Some [manual_call; web_call]) false)
    1 (n_select_tools, input) empty_world.

Definition two_calls_state : AgentSubGraphState string :=
  match two_calls_selected.1 with
  | Ok c => c.2
  | Raise _ => input
  end.

(** The run of a sub-task whose reflector is never satisfied. *)
Definition exhausted : Result (AgentSubGraphState string) * World :=
  subgraph_run str dump (agent ["look up ERR-404"] (Some [manual_call]) false)
    default_recursion_limit (n_select_tools, input) empty_world.

Definition exhausted_state : AgentSubGraphState string :=
  match exhausted.1 with
  | Ok s => s
  | Raise _ => input
  end.

(** The same run with [max_challenges=5] in the environment. *)
Definition exhausted_with_budget_5 : Result (AgentSubGraphState string) * World :=
  subgraph_run str dump
    (agent_with {["max_challenges" := "5"]}
       (stub ["look up ERR-404"] (Some [manual_call]) false))
    default_recursion_limit (n_select_tools, input) empty_world.

Definition exhausted_state_5 : AgentSubGraphState string :=
  match exhausted_with_budget_5.1 with
  | Ok s => s
  | Raise _ => input
  end.

(** A run with two sub-tasks, the second child completing first. *)
Definition two_subtasks : list string := ["look up ERR-404"; "find a fix"].

Definition two_subtasks_run : Result (AgentResult string) * World :=
  run_agent str dump (agent two_subtasks (Some [manual_call]) true)
    [1; 0] "what is ERR-404?" empty_world.

Definition two_subtasks_result : AgentResult string :=
  match two_subtasks_run.1 with
  | Ok r => r
  | Raise _ => {| ar_question := EmptyString; ar_plan := {| subtasks := [] |};
                  ar_subtasks := []; ar_answer := None |}
  end.


(** The state and the world right after the selector asked for one call. *)
Definition one_call_selected
    : Result (SubGraphNode * AgentSubGraphState string) * World :=
  subgraph_steps str dump (agent ["look up ERR-404"] (Some [manual_call]) false)
    1 (n_select_tools, input) empty_world.

Definition one_call_state : AgentSubGraphState string :=
  match one_call_selected.1 with
  | Ok c => c.2
  | Raise _ => input
  end.

End Example.

(** * The index scripts and the QA search tool

    chapter4/src/scripts/create_index.py, chapter4/src/scripts/delete_index.py
    and chapter4/src/tools/search_xyz_qa.py. The scripts talk to an
    Elasticsearch server and to a Qdrant server. Of the servers the model
    keeps what the scripts ask about: which indices and which collections
    exist, and with which settings they were created. The documents and
    points they hold are not modelled; the requests that carry them
    ([helpers.bulk], [upsert]), the embedding requests and the vector
    queries are recorded, and their replies are functions supplied with the
    scripts. *)

Module Scripts.

(** The bodies of requests: strings, lists and dictionaries. *)
#[local] Unset Elimination Schemes.
Inductive Json :=
| JStr (s : string)
| JList (items : list Json)
| JObj (fields : list (string * Json)).
#[local] Set Elimination Schemes.

(** [langchain_core.documents.Document] *)
Record Document := {
  page_content : string;
  metadata : gmap string string;
}.

(** [qdrant_client.models.Distance] and [VectorParams] *)
Inductive Distance := COSINE | EUCLID | DOT | MANHATTAN.

Record VectorParams := {
  size : nat;
  distance : Distance;
}.

(** The dictionary [{"file_name": ..., "content": ...}] that both indices
    store for a document. *)
Record Source := {
  file_name : string;
  content : string;
}.

(** An action of [helpers.bulk]: [{"_index": ..., "_source": ...}]. *)
Record Action := {
  _index : string;
  _source : Source;
}.

(** The arguments of [OpenAI(...)]. *)
Record ClientConfig := {
  api_key : option string;
  base_url : option string;
  default_query : list (string * string);
}.

(** ** Strings *)

Fixpoint has_sep (p : string) : bool :=
  match p with
  | EmptyString => false
  | String c rest => Ascii.eqb c "/"%char || has_sep rest
  end.

(** [os.path.basename] (posixpath): what follows the last slash. *)
Fixpoint basename (p : string) : string :=
  match p with
  | EmptyString => EmptyString
  | String c rest =>
      if has_sep rest then basename rest
      else if Ascii.eqb c "/"%char then rest
      else p
  end.

(** [s.replace(" ", "")] *)
Fixpoint remove_spaces (s : string) : string :=
  match s with
  | EmptyString => EmptyString
  | String c rest =>
      if Ascii.eqb c " "%char then remove_spaces rest
      else String c (remove_spaces rest)
  end.

Fixpoint has_space (s : string) : bool :=
  match s with
  | EmptyString => false
  | String c rest => Ascii.eqb c " "%char || has_space rest
  end.

(** [f"{value}"] of an [Optional[str]]. *)
Definition format (value : option string) : string := default "None" value.

(** The truth value of an [Optional[str]]: [None] and the empty string are
    false. *)
Definition truthy (value : option string) : bool :=
  match value with
  | Some EmptyString | None => false
  | Some (String _ _) => true
  end.

Section Machine.

(** Embedding vectors, the points of a query result, and [SearchOutput] of
    src/models.py, which is not among the sources. *)
Context {Vector ScoredPoint SearchOutput : Type}.

(** [qdrant_client.models.PointStruct] *)
Record PointStruct := {
  id : nat;
  vector : Vector;
  payload : Source;
}.

(** The requests that are recorded. *)
Inductive Call :=
| EmbeddingsCreate (client : ClientConfig) (model input : string)
| Bulk (actions : list Action)
| Upsert (collection_name : string) (points : list PointStruct) (wait : bool)
| QueryPoints (collection_name : string) (query : Vector) (limit : nat).

Record Machine := {
  indices : gmap string Json;
  collections : gmap string VectorParams;
  stdout : list string;
  sent : list Call;
}.

(** The replies of the services; an error text stands for the exception the
    client library raises. *)
Record Services := {
  (** [client.embeddings.create(model=..., input=...).data], as the list
      of its [embedding]s *)
  embeddings_create : ClientConfig → string → string → string + list Vector;
  (** [helpers.bulk(es, actions)] *)
  helpers_bulk : list Action → string + unit;
  (** [qdrant_client.upsert(...)], as the text of its result *)
  qdrant_upsert : string → list PointStruct → string + string;
  (** [qdrant_client.query_points(...).points] *)
  query_points : string → Vector → nat → string + list ScoredPoint;
  (** [SearchOutput.from_point] *)
  from_point : ScoredPoint → SearchOutput;
}.

Definition Script (A : Type) : Type := Machine → Result A * Machine.

#[global] Instance Script_ret : MRet Script := λ A a m, (Ok a, m).

#[global] Instance Script_bind : MBind Script := λ A B k s m,
  match s m with
  | (Ok a, m') => k a m'
  | (Raise e, m') => (Raise e, m')
  end.

Definition fail {A} (e : Exn) : Script A := λ m, (Raise e, m).

Definition print (line : string) : Script unit := λ m,
  (Ok (), {| indices := indices m; collections := collections m;
             stdout := stdout m ++ [line]; sent := sent m |}).

Definition record (call : Call) : Script unit := λ m,
  (Ok (), {| indices := indices m; collections := collections m;
             stdout := stdout m; sent := sent m ++ [call] |}).

Definition reply {A} (r : string + A) : Script A :=
  match r with
  | inr a => mret a
  | inl e => fail (APIError e)
  end.

(** ** The servers *)

(** [es.indices.exists(index=...)] *)
Definition indices_exists (index : string) : Script bool := λ m,
  (Ok (bool_decide (is_Some (indices m !! index))), m).

(** [es.indices.create(index=..., body=...)]: an index of that name must not
    exist. The response is true as a condition. *)
Definition indices_create (index : string) (body : Json) : Script bool := λ m,
  match indices m !! index with
  | Some _ => (Raise (APIError "resource_already_exists_exception"), m)
  | None =>
      (Ok true, {| indices := <[index := body]> (indices m);
                   collections := collections m;
                   stdout := stdout m; sent := sent m |})
  end.

(** [es.indices.delete(index=...)]: the index must exist. *)
Definition indices_delete (index : string) : Script unit := λ m,
  match indices m !! index with
  | Some _ =>
      (Ok (), {| indices := delete index (indices m);
                 collections := collections m;
                 stdout := stdout m; sent := sent m |})
  | None => (Raise (APIError "index_not_found_exception"), m)
  end.

(** [qdrant_client.collection_exists(collection_name=...)] *)
Definition collection_exists (collection_name : string) : Script bool := λ m,
  (Ok (bool_decide (is_Some (collections m !! collection_name))), m).

(** [qdrant_client.create_collection(...)]: a collection of that name must
    not exist. *)
Definition create_collection (collection_name : string)
    (vectors_config : VectorParams) : Script bool := λ m,
  match collections m !! collection_name with
  | Some _ => (Raise (APIError "Collection already exists"), m)
  | None =>
      (Ok true, {| indices := indices m;
                   collections :=
                     <[collection_name := vectors_config]> (collections m);
                   stdout := stdout m; sent := sent m |})
  end.

(** [qdrant_client.delete_collection(name)]: the result says whether there
    was such a collection. *)
Definition delete_collection (collection_name : string) : Script bool := λ m,
  (Ok (bool_decide (is_Some (collections m !! collection_name))),
   {| indices := indices m;
      collections := delete collection_name (collections m);
      stdout := stdout m; sent := sent m |}).

(** ** chapter4/src/scripts/delete_index.py *)

Definition delete_es_index (index_name : string) : Script unit :=
  found ← indices_exists index_name;
  if found : bool then
    indices_delete index_name;;
    print ("インデックス '" +:+ index_name +:+ "' を削除しました")
  else
    print ("インデックス '" +:+ index_name +:+ "' は存在しません").

Definition delete_qdrant_index (collection_name : string) : Script unit :=
  found ← collection_exists collection_name;
  if found : bool then
    delete_collection "documents";;
    print ("コレクション '" +:+ collection_name +:+ "' を削除しました")
  else
    print ("コレクション '" +:+ collection_name +:+ "' は存在しません").

(** The [__main__] block of delete_index.py. *)
Definition delete_index_main : Script unit :=
  let index_name := "documents" in
  delete_es_index index_name;;
  delete_qdrant_index index_name.

(** ** chapter4/src/scripts/create_index.py *)

(** The index mapping of [create_keyword_search_index]. *)
Definition mapping : Json :=
  JObj [
    ("mappings", JObj [
      ("properties", JObj [
        ("content", JObj [
          ("type", JStr "text");
          ("analyzer", JStr "kuromoji_analyzer")])])]);
    ("settings", JObj [
      ("analysis", JObj [
        ("analyzer", JObj [
          ("kuromoji_analyzer", JObj [
            ("type", JStr "custom");
            ("char_filter", JList [JStr "icu_normalizer"]);
            ("tokenizer", JStr "kuromoji_tokenizer");
            ("filter", JList [
              JStr "kuromoji_baseform";
              JStr "kuromoji_part_of_speech";
              JStr "ja_stop";
              JStr "kuromoji_number";
              JStr "kuromoji_stemmer"])])])])])].

Definition create_keyword_search_index (index_name : string) : Script unit :=
  found ← indices_exists index_name;
  if negb found then
    result ← indices_create index_name mapping;
    if result : bool then
      print ("インデックス " +:+ index_name +:+ " を正常に作成しました")
    else
      print ("インデックス " +:+ index_name +:+ " の作成に失敗しました")
  else mret ().

Definition create_vector_search_index (index_name : string) : Script unit :=
  result ← create_collection index_name {| size := 1536; distance := COSINE |};
  if result : bool then
    print ("コレクション " +:+ index_name +:+ " を正常に作成しました")
  else
    print ("コレクション " +:+ index_name +:+ " の作成に失敗しました").

Variable services : Services.

(** [doc.metadata["source"]] *)
Definition source_of (doc : Document) : Script string :=
  match metadata doc !! "source" with
  | Some path => mret path
  | None => fail (KeyError "source")
  end.

(** The [for] loop of [add_documents_to_es]; [insert_docs] is the local
    list. *)
Fixpoint es_actions (index_name : string) (docs : list Document)
    (insert_docs : list Action) : Script (list Action) :=
  match docs with
  | [] => mret insert_docs
  | doc :: rest =>
      let content := page_content doc in
      path ← source_of doc;
      let insert_doc :=
        {| _index := index_name;
           _source := {| file_name := basename path; content := content |} |} in
      es_actions index_name rest (insert_docs ++ [insert_doc])
  end.

Definition add_documents_to_es (index_name : string) (docs : list Document)
    : Script unit :=
  insert_docs ← es_actions index_name docs [];
  record (Bulk insert_docs);;
  reply (helpers_bulk services insert_docs).

(** [embedding.data[0].embedding] *)
Definition first_embedding (data : list Vector) : Script Vector :=
  match data with
  | v :: _ => mret v
  | [] => fail (IndexError "list index out of range")
  end.

(** The [for] loop of [add_documents_to_qdrant] over [enumerate(docs)]; [i]
    is the index of the first of [docs], [points] the local list. *)
Fixpoint qdrant_points (client : ClientConfig) (i : nat) (docs : list Document)
    (points : list PointStruct) : Script (list PointStruct) :=
  match docs with
  | [] => mret points
  | doc :: rest =>
      let content := remove_spaces (page_content doc) in
      record (EmbeddingsCreate client "text-embedding-3-small" content);;
      data ← reply (embeddings_create services client
                      "text-embedding-3-small" content);
      v ← first_embedding data;
      path ← source_of doc;
      let point :=
        {| id := i; vector := v;
           payload := {| file_name := basename path; content := content |} |} in
      qdrant_points client (S i) rest (points ++ [point])
  end.

(** [settings] is the [Settings] of create_index.py, of which the function
    reads the API key. *)
Definition add_documents_to_qdrant (index_name : string)
    (docs : list Document) (openai_api_key : string) : Script unit :=
  let client := {| api_key := Some openai_api_key; base_url := None;
                   default_query := [] |} in
  points ← qdrant_points client 0 docs [];
  record (Upsert index_name points true);;
  operation_info ← reply (qdrant_upsert services index_name points);
  print operation_info.

(** ** chapter4/src/tools/search_xyz_qa.py *)

Definition MAX_SEARCH_RESULTS : nat := 3.

(** The client that [search_xyz_qa] builds from the settings. *)
Definition embedding_client (settings : Settings) : ClientConfig :=
  if truthy (azure_openai_api_key settings) then
    {| api_key := azure_openai_api_key settings;
       base_url :=
         Some (format (azure_openai_endpoint settings)
               +:+ "/openai/deployments/"
               +:+ format (azure_openai_embedding_deployment_name settings));
       default_query :=
         [("api-version", azure_openai_api_version settings)] |}
  else
    {| api_key := openai_api_key settings; base_url := None;
       default_query := [] |}.

(** The function behind the tool; [env] is what [Settings()] reads. *)
Definition search_xyz_qa (env : gmap string string) (query : string)
    : Script (list SearchOutput) :=
  let settings := Settings_load env in
  let openai_client := embedding_client settings in
  record (EmbeddingsCreate openai_client "text-embedding-3-small" query);;
  data ← reply (embeddings_create services openai_client
                  "text-embedding-3-small" query);
  query_vector ← first_embedding data;
  record (QueryPoints "documents" query_vector MAX_SEARCH_RESULTS);;
  search_results ← reply (query_points services "documents" query_vector
                            MAX_SEARCH_RESULTS);
  mret (from_point services <$> search_results).

(** ** The vocabulary of the properties of the scripts *)

(** The action of [add_documents_to_es] for a document whose source is
    [path]. *)
Definition es_action (index_name : string) (doc : Document) (path : string)
    : Action :=
  {| _index := index_name;
     _source := {| file_name := basename path; content := page_content doc |} |}.

(** The embedding request of [add_documents_to_qdrant] for a document. *)
Definition embedding_call (client : ClientConfig) (doc : Document) : Call :=
  EmbeddingsCreate client "text-embedding-3-small"
    (remove_spaces (page_content doc)).

(** The document can be made a point: the reply to its embedding request
    holds at least one vector, [vp.1] being the first, and the document has
    a source, [vp.2]. *)
Definition embeds (client : ClientConfig) (doc : Document)
    (vp : Vector * string) : Prop :=
  (∃ more, embeddings_create services client "text-embedding-3-small"
             (remove_spaces (page_content doc)) = inr (vp.1 :: more)) ∧
  metadata doc !! "source" = Some vp.2.

(** The document cannot be made a point: its embedding request fails, the
    reply holds no vector, or the document has no source. *)
Definition cannot_embed (client : ClientConfig) (doc : Document) (e : Exn)
    : Prop :=
  let reply := embeddings_create services client "text-embedding-3-small"
                 (remove_spaces (page_content doc)) in
  (∃ msg, reply = inl msg ∧ e = APIError msg) ∨
  (reply = inr [] ∧ e = IndexError "list index out of range") ∨
  (∃ v more, reply = inr (v :: more) ∧ metadata doc !! "source" = None ∧
             e = KeyError "source").

(** The point of the [i]-th document. *)
Definition point_of (i : nat) (doc : Document) (vp : Vector * string)
    : PointStruct :=
  {| id := i; vector := vp.1;
     payload := {| file_name := basename vp.2;
                   content := remove_spaces (page_content doc) |} |}.

(** The points of the documents from index [i] on. *)
Fixpoint points_from (i : nat) (docs : list Document)
    (vps : list (Vector * string)) : list PointStruct :=
  match docs, vps with
  | doc :: docs, vp :: vps => point_of i doc vp :: points_from (S i) docs vps
  | _, _ => []
  end.

End Machine.

Arguments PointStruct : clear implicits.
Arguments Call : clear implicits.
Arguments Machine : clear implicits.
Arguments Services : clear implicits.
Arguments Script : clear implicits.

End Scripts.

(** * The code generator and the review generator of chapter5

    chapter5/src/llms/apis/openai.py, chapter5/src/modules/generate_code.py
    and chapter5/src/modules/generate_review.py. The environment variables
    are a map from names to texts. The chat completion service is a function
    supplied with the modules, and every request to it is recorded.
    [load_template] (src/llms/utils) and [str.lower] are functions supplied
    with the modules as well. *)

Module Chapter5.

(** A part of the content of a message. *)
Inductive Part :=
| ImageUrl (url : string)
| Text (text : string).

(** The content of a message: a string, [None], or a list of parts. *)
Inductive Content :=
| Str (s : option string)
| Parts (parts : list Part).

Record ChatMessage := {
  role : Role;
  content : Content;
}.

(** [DataThread] of src/models.py, which is not among the sources: the
    fields that the two modules read. *)
Record DataThread := {
  code : option string;
  stdout : option string;
  stderr : option string;
  observation : option string;
  results : list (gmap string string);
}.

(** The classes passed as [response_format]. *)
Inductive OutputFormat := Program | Review.

Inductive Client :=
| OpenAI (api_key base_url : string)
| AzureOpenAI (api_key azure_endpoint api_version : string).

(** A request: [client.chat.completions.create] when there is no response
    format, [client.beta.chat.completions.parse] otherwise. *)
Record CompletionRequest := {
  r_client : Client;
  r_model : string;
  r_messages : list ChatMessage;
  r_response_format : option OutputFormat;
}.

(** [completion.usage] *)
Record Usage := {
  prompt_tokens : Z;
  completion_tokens : Z;
}.

(** What [generate_response] reads of a completion. *)
Record Completion := {
  message_content : option string;
  completion_model : string;
  created : Z;
  usage : option Usage;
}.

(** The cost of a response: 0.0, or the tokens priced with the entry of
    [COST] for the model,
    [prompt_tokens * COST[model]["input"]
     + completion_tokens * COST[model]["output"]]. *)
Inductive Cost :=
| Free
| Priced (model : string) (prompt_tokens completion_tokens : Z).

(** [LLMResponse] of src/llms/models, with the [cost] set afterwards. *)
Record LLMResponse := {
  lr_messages : list ChatMessage;
  lr_content : string;
  lr_model : string;
  lr_created_at : Z;
  lr_input_tokens : Z;
  lr_output_tokens : Z;
  lr_cost : Cost;
}.

(** The keys of [COST]. *)
Definition COST_models : list string :=
  ["o3-mini-2025-01-31"; "gpt-4o-2024-11-20"; "gpt-4o-mini-2024-07-18"].

(** [os.getenv(name, default)] *)
Definition getenv (env : gmap string string) (name fallback : string) : string :=
  default fallback (env !! name).

Section Modules.

Variable lower : string → string.
Variable chat : CompletionRequest → string + Completion.
(** [load_template(template_file).render(data_info=..., remote_save_dir=...)] *)
Variable render : string → string → string → string.

Definition Calls (A : Type) : Type :=
  list CompletionRequest → Result A * list CompletionRequest.

#[global] Instance Calls_ret : MRet Calls := λ A a log, (Ok a, log).

#[global] Instance Calls_bind : MBind Calls := λ A B k c log,
  match c log with
  | (Ok a, log') => k a log'
  | (Raise e, log') => (Raise e, log')
  end.

Definition throw {A} (e : Exn) : Calls A := λ log, (Raise e, log).

Definition request (rq : CompletionRequest) : Calls Completion := λ log,
  match chat rq with
  | inr completion => (Ok completion, log ++ [rq])
  | inl e => (Raise (APIError e), log ++ [rq])
  end.

(** ** chapter5/src/llms/apis/openai.py *)

Definition _get_client (env : gmap string string) : Calls Client :=
  let api_provider := lower (getenv env "API_PROVIDER" "openai") in
  if decide (api_provider = "azure") then
    let api_key := env !! "AZURE_OPENAI_API_KEY" in
    let endpoint := env !! "AZURE_OPENAI_ENDPOINT" in
    let api_version :=
      getenv env "AZURE_OPENAI_API_VERSION" "2024-08-01-preview" in
    if negb (Scripts.truthy api_key) || negb (Scripts.truthy endpoint) then
      throw (ValueError "Azure OpenAI設定が不完全です。AZURE_OPENAI_API_KEYとAZURE_OPENAI_ENDPOINTを設定してください。")
    else
      mret (AzureOpenAI (default EmptyString api_key) (default EmptyString endpoint) api_version)
  else
    let api_key := env !! "OPENAI_API_KEY" in
    let base_url := getenv env "OPENAI_API_BASE" "https://api.openai.com/v1" in
    if negb (Scripts.truthy api_key) then
      throw (ValueError "OpenAI API設定が不完全です。OPENAI_API_KEYを設定してください。")
    else
      mret (OpenAI (default EmptyString api_key) base_url).

Definition generate_response (env : gmap string string)
    (messages : list ChatMessage) (model : option string)
    (response_format : option OutputFormat) : Calls LLMResponse :=
  client ← _get_client env;
  let api_provider := lower (getenv env "API_PROVIDER" "openai") in
  model ←
    (if decide (api_provider = "azure") then
       match model with
       | Some model => mret model
       | None =>
           let model := env !! "AZURE_OPENAI_DEPLOYMENT_NAME" in
           if negb (Scripts.truthy model) then
             throw (ValueError "Azure OpenAI設定が不完全です。AZURE_OPENAI_DEPLOYMENT_NAMEを設定してください。")
           else mret (default EmptyString model)
       end
     else
       match model with
       | Some model => mret model
       | None => mret (getenv env "OPENAI_MODEL" "gpt-4o-2024-08-06")
       end);
  completion ← request {| r_client := client; r_model := model;
                          r_messages := messages;
                          r_response_format := response_format |};
  (* [completion.choices[0].message.content], or the empty string *)
  let content :=
    if Scripts.truthy (message_content completion)
    then default EmptyString (message_content completion) else EmptyString in
  let total_cost :=
    match usage completion with
    | Some usage =>
        if decide (api_provider = "azure") then Free
        else if decide (model ∈ COST_models)
        then Priced model (prompt_tokens usage) (completion_tokens usage)
        else Free
    | None => Free
    end in
  let input_tokens := from_option prompt_tokens 0%Z (usage completion) in
  let output_tokens := from_option completion_tokens 0%Z (usage completion) in
  mret {| lr_messages := messages;
          lr_content := content;
          lr_model := completion_model completion;
          lr_created_at := created completion;
          lr_input_tokens := input_tokens;
          lr_output_tokens := output_tokens;
          lr_cost := total_cost |}.

(** ** chapter5/src/modules/generate_code.py *)

(** The messages that [generate_code] adds for the previous thread. *)
Definition correction_messages (previous_thread : DataThread)
    : list ChatMessage :=
  (if Scripts.truthy (code previous_thread)
   then [{| role := assistant; content := Str (code previous_thread) |}]
   else [])
  ++ (if Scripts.truthy (stdout previous_thread)
         && Scripts.truthy (stderr previous_thread)
      then [{| role := system;
               content := Str (Some ("stdout: "
                                      +:+ Scripts.format (stdout previous_thread))) |};
            {| role := system;
               content := Str (Some ("stderr: "
                                      +:+ Scripts.format (stderr previous_thread))) |}]
      else [])
  ++ (if Scripts.truthy (observation previous_thread)
      then [{| role := user;
               content := Str (Some ("以下を参考にして、ユーザー要求を満たすコードを再生成してください: "
                                      +:+ Scripts.format (observation previous_thread))) |}]
      else []).

Definition generate_code (env : gmap string string)
    (data_info user_request remote_save_dir : string)
    (previous_thread : option DataThread) (model template_file : string)
    : Calls LLMResponse :=
  let system_message := render template_file data_info remote_save_dir in
  let messages :=
    [{| role := system; content := Str (Some system_message) |};
     {| role := user; content := Str (Some ("タスク要求: " +:+ user_request)) |}] in
  let messages :=
    match previous_thread with
    | Some previous_thread => messages ++ correction_messages previous_thread
    | None => messages
    end in
  generate_response env messages (Some model) (Some Program).

(** ** chapter5/src/modules/generate_review.py *)

(** [res[key]] *)
Definition item (res : gmap string string) (key : string) : Calls string :=
  match res !! key with
  | Some value => mret value
  | None => throw (KeyError key)
  end.

(** The comprehension over [data_thread.results]. *)
Fixpoint result_parts (results : list (gmap string string)) : Calls (list Part) :=
  match results with
  | [] => mret []
  | res :: rest =>
      type ← item res "type";
      content ← item res "content";
      let part :=
        if decide (type = "png")
        then ImageUrl ("data:image/jpeg;base64," +:+ content)
        else Text content in
      parts ← result_parts rest;
      mret (part :: parts)
  end.

Definition generate_review (env : gmap string string)
    (data_info user_request : string) (data_thread : DataThread)
    (has_results : bool) (remote_save_dir model template_file : string)
    : Calls LLMResponse :=
  let system_instruction := render template_file data_info remote_save_dir in
  let messages :=
    [{| role := system; content := Str (Some system_instruction) |};
     {| role := user; content := Str (Some user_request) |};
     {| role := assistant; content := Str (code data_thread) |}] in
  messages ←
    (if has_results then
       results ← result_parts (results data_thread);
       mret (messages ++ [{| role := system; content := Parts results |}])
     else mret messages);
  let messages :=
    messages
    ++ [{| role := system;
           content := Str (Some ("stdout: "
                                  +:+ Scripts.format (stdout data_thread))) |};
        {| role := system;
           content := Str (Some ("stderr: "
                                  +:+ Scripts.format (stderr data_thread))) |};
        {| role := user;
           content := Str (Some "実行結果に対するフィードバックを提供してください。") |}] in
  generate_response env messages (Some model) (Some Review).

(** ** The vocabulary of the properties of the modules *)

(** The environment lets [_get_client] build a client. *)
Definition configured (env : gmap string string) : bool :=
  if decide (lower (getenv env "API_PROVIDER" "openai") = "azure") then
    Scripts.truthy (env !! "AZURE_OPENAI_API_KEY")
    && Scripts.truthy (env !! "AZURE_OPENAI_ENDPOINT")
  else Scripts.truthy (env !! "OPENAI_API_KEY").

(** The element of [results] has both keys. *)
Definition well_formed (res : gmap string string) : Prop :=
  is_Some (res !! "type") ∧ is_Some (res !! "content").

(** The part of an element of [results]. *)
Definition part_of (res : gmap string string) : Part :=
  if decide (res !! "type" = Some "png")
  then ImageUrl ("data:image/jpeg;base64," +:+ default EmptyString (res !! "content"))
  else Text (default EmptyString (res !! "content")).

End Modules.

End Chapter5.

(** * More runs of the help desk, and a run of the scripts *)

Module Cases.
Import Example.

(** The client [c], except that its reflections hold no parsed result. *)
Definition silent (c : OpenAI) : OpenAI :=
  {| chat_completions_create := chat_completions_create c;
     chat_completions_parse_Plan := chat_completions_parse_Plan c;
     chat_completions_parse_ReflectionResult := λ rq, inr None |}.

(** The client [c], except that its plans hold no parsed result. *)
Definition planless (c : OpenAI) : OpenAI :=
  {| chat_completions_create := chat_completions_create c;
     chat_completions_parse_Plan := λ rq, inr None;
     chat_completions_parse_ReflectionResult :=
       chat_completions_parse_ReflectionResult c |}.

Definition one_task : list string := ["look up ERR-404"].

Definition unsatisfied : HelpDeskAgent string :=
  agent one_task (Some [manual_call]) false.

Definition silent_agent : HelpDeskAgent string :=
  agent_with ∅ (silent (stub one_task (Some [manual_call]) false)).

Definition planless_agent : HelpDeskAgent string :=
  agent_with ∅ (planless (stub one_task (Some [manual_call]) false)).

(** An agent whose model asks for a tool that is not registered. *)
Definition web_agent : HelpDeskAgent string :=
  agent one_task (Some [web_call]) false.

(** The state and the world when the reflector is about to run. *)
Definition before_reflection
    : Result (SubGraphNode * AgentSubGraphState string) * World :=
  subgraph_steps str dump silent_agent 3 (n_select_tools, input) empty_world.

Definition before_reflection_state : AgentSubGraphState string :=
  match before_reflection.1 with
  | Ok c => c.2
  | Raise _ => input
  end.

(** The state of the main graph after the planner. *)
Definition planned : AgentState string :=
  {| question := "what is ERR-404?";
     plan := Some one_task;
     current_step := 0;
     subtask_results := [];
     last_answer := None |}.

Definition first_send : Send string :=
  {| send_node := "execute_subtasks"; send_arg := planned |}.

(** The child of [first_send], for the two agents. *)
Definition web_child : Result (AgentUpdate string) * World :=
  _execute_subgraph str dump web_agent planned empty_world.

Definition child : Result (AgentUpdate string) * World :=
  _execute_subgraph str dump unsatisfied planned empty_world.

Definition child_update_of (r : Result (AgentUpdate string))
    : AgentUpdate string :=
  match r with
  | Ok u => u
  | Raise _ => no_update
  end.

(** ** The scripts *)

Import Scripts.

Definition params : VectorParams := {| size := 1536; distance := COSINE |}.

(** Servers that hold the index and the collection of the scripts, and a
    collection of another name. *)
Definition servers : Machine nat :=
  {| indices := {["documents" := mapping]};
     collections := {["documents" := params; "archive" := params]};
     stdout := [];
     sent := [] |}.

(** Services whose embedding of a text is its length, and which embed the
    empty text as nothing. *)
Definition services : Services nat string string :=
  {| embeddings_create := λ client model input,
       match input with
       | EmptyString => inr []
       | _ => inr [String.length input]
       end;
     helpers_bulk := λ actions, inr ();
     qdrant_upsert := λ collection_name points, inr "completed";
     query_points := λ collection_name query limit,
       inr (take limit ["first"; "second"; "third"; "fourth"]);
     from_point := λ point, point |}.

Definition qa_docs : list Document :=
  [{| page_content := "reset the password";
      metadata := {["source" := "data/qa.csv"]} |};
   {| page_content := "use the portal";
      metadata := {["source" := "data/qa.csv"]} |}].

(** A document that no loader would produce: it has no source. *)
Definition stray_doc : Document :=
  {| page_content := "no source"; metadata := ∅ |}.

Definition key_client : ClientConfig :=
  {| api_key := Some "sk-test"; base_url := None; default_query := [] |}.

End Cases.

(** * Reasoning about monadic code *)

Section MonadLemmas.
Context {A B : Type}.

Lemma bind_unfold (m : M A) (k : A → M B) w :
  (m ≫= k) w =
  match m w with
  | (Ok a, w') => k a w'
  | (Raise e, w') => (Raise e, w')
  end.
Proof. reflexivity. Qed.

Lemma bind_inv (m : M A) (k : A → M B) w r w'' :
  (m ≫= k) w = (r, w'') →
  (∃ a w', m w = (Ok a, w') ∧ k a w' = (r, w'')) ∨
  (∃ e, m w = (Raise e, w'') ∧ r = Raise e).
Proof.
  rewrite bind_unfold. destruct (m w) as [[a|e] w'].
  - intros H. left. by exists a, w'.
  - intros [= <- <-]. right. by exists e.
Qed.

Lemma bind_Ok_inv (m : M A) (k : A → M B) w b w'' :
  (m ≫= k) w = (Ok b, w'') →
  ∃ a w', m w = (Ok a, w') ∧ k a w' = (Ok b, w'').
Proof.
  intros [H|(e & _ & [=])]%bind_inv. exact H.
Qed.

End MonadLemmas.

(** Unfolds the monad and its primitive operations. *)
Ltac msimpl :=
  repeat progress
    (unfold mbind, mret, M_bind, M_ret, raise, emit, new_list, read, append,
       getitem, external in *;
     cbn [fst snd heap trace] in *).

(** * The sub-task loop *)

Section SubtaskLoop.
Context {SearchOutput : Type}.
Variable str_results : list SearchOutput → string.
Variable model_dump_json : ReflectionResult → string.
Variable self : HelpDeskAgent SearchOutput.

#[local] Abbreviation step := (subgraph_step str_results model_dump_json self).
#[local] Abbreviation steps := (subgraph_steps str_results model_dump_json self).
#[local] Abbreviation run := (subgraph_run str_results model_dump_json self).

(** ** What each node writes *)

Lemma select_tools_writes s w u w' :
  select_tools self s w = (Ok u, w') →
  is_Some (u_messages u) ∧ u_tool_results u = None ∧
  u_reflection_results u = None ∧ u_challenge_count u = None ∧
  u_is_completed u = None ∧ u_subtask_answer u = None.
Proof.
  unfold select_tools, create. msimpl.
  repeat case_match; simplify_eq; intros; simplify_eq; cbn; eauto 10.
Qed.

Lemma execute_tools_writes s w u w' :
  execute_tools str_results self s w = (Ok u, w') →
  is_Some (u_messages u) ∧ (∃ round, u_tool_results u = Some [round]) ∧
  u_reflection_results u = None ∧ u_challenge_count u = None ∧
  u_is_completed u = None ∧ u_subtask_answer u = None.
Proof.
  unfold execute_tools. msimpl.
  repeat case_match; simplify_eq; intros; simplify_eq; cbn; eauto 10.
Qed.

Lemma create_subtask_answer_writes s w u w' :
  create_subtask_answer self s w = (Ok u, w') →
  is_Some (u_messages u) ∧ u_tool_results u = None ∧
  u_reflection_results u = None ∧ u_challenge_count u = None ∧
  u_is_completed u = None ∧ is_Some (u_subtask_answer u).
Proof.
  unfold create_subtask_answer, create. msimpl.
  repeat case_match; simplify_eq; intros; simplify_eq; cbn; eauto 10.
Qed.

Lemma reflect_subtask_writes s w u w' :
  reflect_subtask model_dump_json self s w = (Ok u, w') →
  ∃ r, is_Some (u_messages u) ∧ u_tool_results u = None ∧
    u_reflection_results u = Some [r] ∧
    u_challenge_count u = Some (sg_challenge_count s + 1)%Z ∧
    u_is_completed u = Some (rr_is_completed r) ∧
    u_subtask_answer u =
      if (MAX_CHALLENGE_COUNT <=? sg_challenge_count s + 1)%Z
         && negb (rr_is_completed r)
      then Some (Some (sg_subtask s +:+ "の回答が見つかりませんでした。"))
      else None.
Proof.
  unfold reflect_subtask, parse_ReflectionResult. msimpl.
  destruct (sg_messages s) as [l|]; [|done].
  destruct (chat_completions_parse_ReflectionResult _ _) as [e|[r|]];
    try done.
  intros [= <- <-]. exists r. cbn. eauto 10.
Qed.

Lemma execute_tool_calls_raise l calls acc w e w' :
  execute_tool_calls str_results self l calls acc w = (Raise e, w') →
  e ≠ GraphRecursionError.
Proof.
  revert acc w. induction calls as [|c calls IH]; intros acc w;
    cbn [execute_tool_calls]; unfold invoke; msimpl; [done|].
  repeat case_match; simplify_eq; intros; simplify_eq; eauto; done.
Qed.

(** No node raises the engine's own error. *)
Lemma node_action_raise n s w e w' :
  node_action str_results model_dump_json self n s w = (Raise e, w') →
  e ≠ GraphRecursionError.
Proof.
  destruct n; cbn [node_action].
  - unfold select_tools, create. msimpl.
    repeat case_match; simplify_eq; intros; simplify_eq; done.
  - unfold execute_tools. msimpl.
    repeat case_match; simplify_eq; intros; simplify_eq; try done.
    by eapply execute_tool_calls_raise.
  - unfold create_subtask_answer, create. msimpl.
    repeat case_match; simplify_eq; intros; simplify_eq; done.
  - unfold reflect_subtask, parse_ReflectionResult. msimpl.
    repeat case_match; simplify_eq; intros; simplify_eq; done.
  - msimpl. done.
Qed.

(** ** One step *)

Lemma step_Ok n s w c' w' :
  n ≠ n_END →
  step (n, s) w = (Ok c', w') →
  ∃ u, node_action str_results model_dump_json self n s w = (Ok u, w') ∧
       c' = (next_node n (apply_update s u), apply_update s u).
Proof.
  intros Hn. unfold subgraph_step. cbn [fst snd].
  destruct n; try done;
    (intros (u & w1 & Hu & Hret)%bind_Ok_inv; exists u;
     msimpl; by simplify_eq).
Qed.

Lemma step_END s w : step (n_END, s) w = (Ok (n_END, s), w).
Proof. reflexivity. Qed.

Lemma step_Raise n s w e w' :
  step (n, s) w = (Raise e, w') → e ≠ GraphRecursionError.
Proof.
  unfold subgraph_step. cbn [fst snd]. destruct n; try done;
    (intros [(u & w1 & _ & [=])|(e' & Hu & [= ->])]%bind_inv;
     by eapply node_action_raise).
Qed.

(** The state after a step, node by node. Only the reflector moves the
    counter and the completion flag; only the executor extends
    [tool_results]; the sub-task never changes. *)
Lemma step_effect n s w n' s' w' :
  step (n, s) w = (Ok (n', s'), w') →
  sg_subtask s' = sg_subtask s ∧
  match n with
  | n_select_tools =>
      n' = n_execute_tools ∧
      sg_challenge_count s' = sg_challenge_count s ∧
      sg_is_completed s' = sg_is_completed s ∧
      sg_tool_results s' = sg_tool_results s ∧
      sg_reflection_results s' = sg_reflection_results s ∧
      sg_subtask_answer s' = sg_subtask_answer s
  | n_execute_tools =>
      n' = n_create_subtask_answer ∧
      sg_challenge_count s' = sg_challenge_count s ∧
      sg_is_completed s' = sg_is_completed s ∧
      (∃ round, sg_tool_results s' = sg_tool_results s ++ [round]) ∧
      sg_reflection_results s' = sg_reflection_results s ∧
      sg_subtask_answer s' = sg_subtask_answer s
  | n_create_subtask_answer =>
      n' = n_reflect_subtask ∧
      sg_challenge_count s' = sg_challenge_count s ∧
      sg_is_completed s' = sg_is_completed s ∧
      sg_tool_results s' = sg_tool_results s ∧
      sg_reflection_results s' = sg_reflection_results s ∧
      is_Some (sg_subtask_answer s')
  | n_reflect_subtask =>
      n' = match _should_continue_exec_subtask_flow s' with
           | flow_continue => n_select_tools
           | flow_end => n_END
           end ∧
      sg_challenge_count s' = (sg_challenge_count s + 1)%Z ∧
      sg_tool_results s' = sg_tool_results s ∧
      ∃ r, sg_reflection_results s' = sg_reflection_results s ++ [r] ∧
           sg_is_completed s' = rr_is_completed r ∧
           sg_subtask_answer s' =
             if (MAX_CHALLENGE_COUNT <=? sg_challenge_count s + 1)%Z
                && negb (rr_is_completed r)
             then Some (Some (sg_subtask s
                              +:+ "の回答が見つかりませんでした。"))
             else sg_subtask_answer s
  | n_END => n' = n_END ∧ s' = s
  end.
Proof.
  destruct (decide (n = n_END)) as [->|Hn].
  { rewrite step_END. by intros [= <- <- <-]. }
  intros (u & Hu & [= -> ->])%step_Ok; [|done].
  split; [done|]. destruct n; cbn [node_action next_node] in *.
  - apply select_tools_writes in Hu as (_ & Ht & Hr & Hc & Hd & Ha).
    unfold apply_update. cbn. rewrite Ht, Hr, Hc, Hd, Ha. cbn.
    by rewrite !app_nil_r.
  - apply execute_tools_writes in Hu as (_ & [x Ht] & Hr & Hc & Hd & Ha).
    unfold apply_update. cbn. rewrite Ht, Hr, Hc, Hd, Ha. cbn.
    rewrite !app_nil_r. eauto 10.
  - apply create_subtask_answer_writes in Hu as (_ & Ht & Hr & Hc & Hd & Ha).
    unfold apply_update. cbn. rewrite Ht, Hr, Hc, Hd. cbn.
    rewrite !app_nil_r. destruct Ha as [a ->]. eauto 10.
  - apply reflect_subtask_writes in Hu as (r & _ & Ht & Hr & Hc & Hd & Ha).
    split; [done|]. split; [by cbn; rewrite Hc|].
    split; [by cbn; rewrite Ht, app_nil_r|].
    exists r. cbn. rewrite Hr, Hd, Ha. split_and!; try done. by case_match.
  - done.
Qed.

(** ** The round invariant holds initially and every step keeps it *)
Lemma round_inv_init (s0 : AgentSubGraphState SearchOutput) :
  sg_challenge_count s0 = 0%Z → round_inv s0 (n_select_tools, s0).
Proof.
  unfold round_inv, MAX_CHALLENGE_COUNT. cbn. intros ->.
  split_and!; try done; lia.
Qed.

Lemma round_inv_step s0 c w c' w' :
  round_inv s0 c → step c w = (Ok c', w') → round_inv s0 c'.
Proof.
  destruct c as [n s], c' as [n' s'].
  intros (Hsub & Hr & Hrr & Hn) [Hsub' Heff]%step_effect.
  unfold round_inv in *. cbn [fst snd] in *. rewrite Hsub'.
  destruct n.
  - destruct Heff as (-> & -> & _ & -> & -> & _). done.
  - destruct Heff as (-> & -> & _ & [x ->] & -> & _).
    rewrite length_app. cbn [length]. split_and!; try done; lia.
  - destruct Heff as (-> & -> & _ & -> & -> & _). done.
  - destruct Heff as (-> & Hc & -> & r & -> & Hd & Ha).
    unfold _should_continue_exec_subtask_flow. rewrite Hc, Hd, Ha.
    rewrite length_app. cbn [length]. unfold MAX_CHALLENGE_COUNT in *.
    destruct (rr_is_completed r); cbn [orb andb negb].
    + rewrite Hsub. split_and!; try done; try lia; by left.
    + destruct (Z.leb_spec 3 (sg_challenge_count s + 1)); rewrite Hsub;
        split_and!; try done; try lia; right; lia.
  - by destruct Heff as (-> & ->).
Qed.

Lemma round_inv_steps s0 k c w c' w' :
  round_inv s0 c → steps k c w = (Ok c', w') → round_inv s0 c'.
Proof.
  revert c w. induction k as [|k IH]; intros c w Hinv; cbn [subgraph_steps].
  - msimpl. by intros [= <- <-].
  - intros (c1 & w1 & Hstep & Hrest)%bind_Ok_inv.
    eapply IH; [|done]. by eapply round_inv_step.
Qed.

(** ** Running to [END] *)

Lemma run_END limit s w : run limit (n_END, s) w = (Ok s, w).
Proof. by destruct limit. Qed.

Lemma run_unfold limit n s w :
  n ≠ n_END →
  run (S limit) (n, s) w =
  match step (n, s) w with
  | (Ok c', w') => run limit c' w'
  | (Raise e, w') => (Raise e, w')
  end.
Proof. by destruct n. Qed.

Lemma run_O n s w : n ≠ n_END → run 0 (n, s) w = (Raise GraphRecursionError, w).
Proof. by destruct n. Qed.

(** A run that returns is a sequence of steps that ends at [END]. *)
Lemma run_Ok_steps limit c w s' w' :
  run limit c w = (Ok s', w') →
  ∃ k, k ≤ limit ∧ steps k c w = (Ok (n_END, s'), w').
Proof.
  revert c w. induction limit as [|limit IH]; intros [n s] w;
    (destruct (decide (n = n_END)) as [->|Hn];
     [rewrite run_END; intros [= <- <-]; exists 0; split; [lia|done] |]).
  - by rewrite run_O.
  - rewrite run_unfold by done.
    destruct (step (n, s) w) as [[c1|e] w1] eqn:Hstep; [|done].
    intros (k & Hk & Hsteps)%IH. exists (S k). split; [lia|].
    cbn [subgraph_steps]. by rewrite bind_unfold, Hstep.
Qed.

Lemma budget_step s0 c w c' w' :
  round_inv s0 c → c.1 ≠ n_END → step c w = (Ok c', w') →
  budget c' < budget c.
Proof.
  destruct c as [n s], c' as [n' s']. cbn [fst].
  intros (_ & Hr & _ & Hn) Hne [_ Heff]%step_effect.
  unfold budget, MAX_CHALLENGE_COUNT in *. cbn [fst snd] in *.
  destruct n; try done.
  - destruct Heff as (-> & -> & _). lia.
  - destruct Heff as (-> & -> & _). lia.
  - destruct Heff as (-> & -> & _). lia.
  - destruct Heff as (-> & -> & _). case_match; lia.
Qed.

Lemma run_within_budget s0 limit c w r w' :
  round_inv s0 c → budget c ≤ limit →
  run limit c w = (r, w') → r ≠ Raise GraphRecursionError.
Proof.
  revert c w. induction limit as [|limit IH]; intros [n s] w Hinv Hb;
    (destruct (decide (n = n_END)) as [->|Hn];
     [rewrite run_END; by intros [= <- <-] |]).
  - exfalso. destruct Hinv as (_ & Hr & _ & Hnode).
    unfold budget, MAX_CHALLENGE_COUNT in *. cbn [fst snd] in *.
    destruct n; try done; lia.
  - rewrite run_unfold by done.
    destruct (step (n, s) w) as [[c1|e] w1] eqn:Hstep.
    + intros Hrun. eapply (IH c1 w1); [by eapply round_inv_step| |done].
      pose proof (budget_step _ _ _ _ _ Hinv Hn Hstep). lia.
    + intros [= <- <-] [= ->]. by eapply step_Raise.
Qed.

(** C3. A sub-task loop that starts with [challenge_count = 0] needs at most
    twelve steps (three rounds of four nodes), so LangGraph's recursion
    limit is never hit and [invoke] returns or fails with an error of one of
    the nodes. Whenever it returns, [challenge_count] lies between 1 and
    [MAX_CHALLENGE_COUNT] = 3. Every node that runs finds a counter below 3,
    so there is no fourth round. After each reflector step the edge leads to
    [END] exactly when [is_completed] holds or the counter has reached 3,
    and back to the selector otherwise. *)
Theorem subtask_loop_terminates s0 w limit :
  sg_challenge_count s0 = 0%Z →
  12 ≤ limit →
  (∀ r w',
     subgraph_run str_results model_dump_json self limit (n_select_tools, s0) w
       = (r, w') →
     r ≠ Raise GraphRecursionError ∧
     ∀ s', r = Ok s' →
       (1 ≤ sg_challenge_count s' ≤ 3)%Z ∧
       (sg_is_completed s' = true ∨ sg_challenge_count s' = 3%Z)) ∧
  (∀ k n s w1,
     subgraph_steps str_results model_dump_json self k (n_select_tools, s0) w
       = (Ok (n, s), w1) →
     n ≠ n_END → (sg_challenge_count s < 3)%Z) ∧
  (∀ k s w1 n' s' w2,
     subgraph_steps str_results model_dump_json self k (n_select_tools, s0) w
       = (Ok (n_reflect_subtask, s), w1) →
     subgraph_step str_results model_dump_json self (n_reflect_subtask, s) w1
       = (Ok (n', s'), w2) →
     (1 ≤ sg_challenge_count s' ≤ 3)%Z ∧
     (n' = n_END ↔
      sg_is_completed s' = true ∨ sg_challenge_count s' = 3%Z) ∧
     (n' ≠ n_END → n' = n_select_tools)).
Proof.
  intros H0 Hlimit. pose proof (round_inv_init s0 H0) as Hinit.
  split_and!.
  - intros r w' Hrun. split.
    + eapply run_within_budget; [done| |done].
      unfold budget, MAX_CHALLENGE_COUNT. cbn [fst snd]. rewrite H0. cbn. lia.
    + intros s' ->. apply run_Ok_steps in Hrun as (k & _ & Hsteps).
      pose proof (round_inv_steps _ _ _ _ _ _ Hinit Hsteps)
        as (_ & Hr & _ & H1 & _ & Hend & _).
      unfold MAX_CHALLENGE_COUNT in *. cbn [fst snd] in *. split; [lia|done].
  - intros k n s w1 Hsteps Hn.
    pose proof (round_inv_steps _ _ _ _ _ _ Hinit Hsteps) as (_ & _ & _ & Hnode).
    unfold MAX_CHALLENGE_COUNT in *. cbn [fst snd] in *.
    destruct n; try done; lia.
  - intros k s w1 n' s' w2 Hsteps Hstep.
    pose proof (round_inv_steps _ _ _ _ _ _ Hinit Hsteps) as Hinv.
    pose proof (round_inv_step _ _ _ _ _ Hinv Hstep) as (_ & Hr & _ & Hnode).
    destruct Hinv as (_ & Hr0 & _).
    apply step_effect in Hstep as (_ & Hn' & Hc & _).
    unfold _should_continue_exec_subtask_flow, MAX_CHALLENGE_COUNT in *.
    cbn [fst snd] in *.
    destruct (sg_is_completed s') eqn:Hd; cbn [orb] in Hn'.
    + subst n'. split_and!; [lia|lia| |done]. split; [by left|done].
    + destruct (Z.leb_spec 3 (sg_challenge_count s')); subst n'.
      * split_and!; [lia|lia| |done]. split; [intros _; right; lia|done].
      * split_and!; [lia|lia| |done]. split; [done|intros [?|?]; [done|lia]].
Qed.

(** C4, as the code has it. When a loop that started with
    [challenge_count = 0] returns with [is_completed] false, the counter
    equals [MAX_CHALLENGE_COUNT] and [subtask_answer] is the sub-task
    followed by the fixed Japanese sentence of line 492. *)
Theorem exhausted_subtask_answer s0 w limit s' w' :
  sg_challenge_count s0 = 0%Z →
  subgraph_run str_results model_dump_json self limit (n_select_tools, s0) w
    = (Ok s', w') →
  sg_is_completed s' = false →
  sg_challenge_count s' = MAX_CHALLENGE_COUNT ∧
  sg_subtask s' = sg_subtask s0 ∧
  sg_subtask_answer s' =
    Some (Some (sg_subtask s0 +:+ "の回答が見つかりませんでした。")).
Proof.
  intros H0 (k & _ & Hsteps)%run_Ok_steps Hd.
  pose proof (round_inv_steps _ _ _ _ _ _ (round_inv_init s0 H0) Hsteps)
    as (Hsub & _ & _ & _ & _ & Hend & Hans).
  cbn [fst snd] in *. split_and!; [|done|by apply Hans].
  destruct Hend as [Hend|Hend]; [congruence|done].
Qed.

(** C5. Right after every reflector step of a loop started from the input
    of [_execute_subgraph], [tool_results], [reflection_results] and
    [challenge_count] agree; the same holds for the state [invoke] returns.
    Step by step: only the executor extends [tool_results], by one element;
    only the reflector extends [reflection_results], by one element, and
    adds one to [challenge_count]. *)
Theorem rounds_are_counted s0 w :
  sg_challenge_count s0 = 0%Z →
  sg_tool_results s0 = [] →
  sg_reflection_results s0 = [] →
  (∀ k s w1 n' s' w2,
     subgraph_steps str_results model_dump_json self k (n_select_tools, s0) w
       = (Ok (n_reflect_subtask, s), w1) →
     subgraph_step str_results model_dump_json self (n_reflect_subtask, s) w1
       = (Ok (n', s'), w2) →
     Z.of_nat (length (sg_tool_results s')) = sg_challenge_count s' ∧
     Z.of_nat (length (sg_reflection_results s')) = sg_challenge_count s') ∧
  (∀ limit s' w',
     subgraph_run str_results model_dump_json self limit (n_select_tools, s0) w
    = (Ok s', w') →
     Z.of_nat (length (sg_tool_results s')) = sg_challenge_count s' ∧
     Z.of_nat (length (sg_reflection_results s')) = sg_challenge_count s') ∧
  (∀ n s w1 n' s' w2,
     subgraph_step str_results model_dump_json self (n, s) w1
       = (Ok (n', s'), w2) →
     length (sg_tool_results s') =
       length (sg_tool_results s)
       + (if decide (n = n_execute_tools) then 1 else 0) ∧
     length (sg_reflection_results s') =
       length (sg_reflection_results s)
       + (if decide (n = n_reflect_subtask) then 1 else 0) ∧
     sg_challenge_count s' =
       (sg_challenge_count s
        + (if decide (n = n_reflect_subtask) then 1 else 0))%Z).
Proof.
  intros H0 Ht Hr. pose proof (round_inv_init s0 H0) as Hinit.
  split_and!.
  - intros k s w1 n' s' w2 Hsteps Hstep.
    pose proof (round_inv_steps _ _ _ _ _ _ Hinit Hsteps) as Hinv.
    pose proof (round_inv_step _ _ _ _ _ Hinv Hstep) as (_ & _ & Hrr & Hnode).
    apply step_effect in Hstep as (_ & Hn' & _).
    cbn [fst snd] in *. rewrite Ht, Hr in *. cbn [length] in *.
    destruct n'; try (by repeat case_match); lia.
  - intros limit s' w' (k & _ & Hsteps)%run_Ok_steps.
    pose proof (round_inv_steps _ _ _ _ _ _ Hinit Hsteps) as (_ & _ & Hrr & Hnode).
    cbn [fst snd] in *. rewrite Ht, Hr in *. cbn [length] in *. lia.
  - intros n s w1 n' s' w2 [_ Heff]%step_effect.
    destruct n; repeat case_decide; try done.
    + destruct Heff as (_ & -> & _ & -> & -> & _). lia.
    + destruct Heff as (_ & -> & _ & [x ->] & -> & _).
      rewrite length_app. cbn. lia.
    + destruct Heff as (_ & -> & _ & -> & -> & _). lia.
    + destruct Heff as (_ & -> & -> & r & -> & _).
      rewrite length_app. cbn. lia.
    + destruct Heff as (_ & ->). lia.
Qed.

End SubtaskLoop.

(** * What a run shows to the outside: calls to the model and to the tools *)

Section Emits.
Context {A B : Type} (P Q : Event → Prop).

Lemma emits_silent (m : M A) :
  (∀ w, trace (m w).2 = trace w) → emits P Q m.
Proof.
  intros Hm w r w' Hrun. exists []. specialize (Hm w).
  rewrite Hrun in Hm. cbn in Hm. by rewrite Hm, app_nil_r.
Qed.

Lemma emits_ret (a : A) : emits P Q (mret a).
Proof. by apply emits_silent. Qed.

Lemma emits_raise e : emits P Q (raise e : M A).
Proof. by apply emits_silent. Qed.

Lemma emits_getitem key (v : option A) : emits P Q (getitem key v).
Proof. apply emits_silent. by destruct v. Qed.

Lemma emits_external wrap (reply : string + A) : emits P Q (external wrap reply).
Proof. apply emits_silent. by destruct reply. Qed.

Lemma emits_bind (m : M A) (k : A → M B) :
  emits P Q m → (∀ a, emits P Q (k a)) → emits P Q (m ≫= k).
Proof.
  intros Hm Hk w r w''
    [(a & w' & Hrun & Hrest)|(e & Hrun & ->)]%bind_inv.
  - destruct (Hm _ _ _ Hrun) as (ev1 & He1 & HP1 & HQ1).
    destruct (Hk a _ _ _ Hrest) as (ev2 & He2 & HP2 & HQ2).
    exists (ev1 ++ ev2). rewrite He2, He1, app_assoc. split_and!; [done| |].
    + by apply Forall_app.
    + intros Hok. apply Forall_app. split; [by apply HQ1|by apply HQ2].
  - destruct (Hm _ _ _ Hrun) as (ev1 & He1 & HP1 & _).
    by exists ev1.
Qed.

(** A call whose event is justified by the success of what follows it. *)
Lemma emits_bind_emit e (k : M B) :
  P e → emits P Q k →
  (∀ w b w', k w = (Ok b, w') → Q e) →
  emits P Q (emit e ;; k).
Proof.
  intros HP Hk HQ w r w''. msimpl. intros Hrun.
  destruct (Hk _ _ _ Hrun) as (ev & Hev & HPs & HQs). cbn in Hev.
  exists (e :: ev). rewrite Hev, <-app_assoc. split_and!; [done|by constructor|].
  intros Hok. destruct r as [b|]; [|done].
  constructor; [by eapply HQ|by apply HQs].
Qed.

End Emits.

Lemma emits_new_list P Q msgs : emits P Q (new_list msgs).
Proof. by apply emits_silent. Qed.

Lemma emits_read P Q l : emits P Q (read l).
Proof. by apply emits_silent. Qed.

Lemma emits_append P Q l m : emits P Q (append l m).
Proof. by apply emits_silent. Qed.

Lemma emits_emit P Q e : P e → Q e → emits P Q (emit e).
Proof.
  intros HP HQ w r w' [= <- <-]. exists [e]. cbn. by repeat constructor.
Qed.

Ltac emits_step :=
  first
    [ apply emits_ret | apply emits_raise | apply emits_getitem
    | apply emits_external | apply emits_new_list | apply emits_read
    | apply emits_append
    | apply emits_bind; [|intros ?]
    | match goal with
      | |- emits _ _ (match ?x with _ => _ end) => destruct x
      end ].

Section AgentEvents.
Context {SearchOutput : Type}.
Variable str_results : list SearchOutput → string.
Variable model_dump_json : ReflectionResult → string.
Variable self : HelpDeskAgent SearchOutput.

#[local] Abbreviation agent_emits :=
  (emits well_formed_event (answered_with_tool_calls (client self))).

Lemma create_emits rq :
  pinned rq → rq_tools rq = None → agent_emits (create self rq).
Proof.
  intros Hp Ht. unfold create.
  apply emits_bind; [|intros ?; emits_step].
  apply emits_emit; cbn; [done|]. by rewrite Ht.
Qed.

Lemma parse_Plan_emits rq :
  pinned rq → rq_tools rq = None → agent_emits (parse_Plan self rq).
Proof.
  intros Hp Ht. unfold parse_Plan.
  apply emits_bind; [|intros ?; emits_step].
  apply emits_emit; cbn; [done|]. by rewrite Ht.
Qed.

Lemma parse_ReflectionResult_emits rq :
  pinned rq → rq_tools rq = None →
  agent_emits (parse_ReflectionResult self rq).
Proof.
  intros Hp Ht. unfold parse_ReflectionResult.
  apply emits_bind; [|intros ?; emits_step].
  apply emits_emit; cbn; [done|]. by rewrite Ht.
Qed.

Lemma invoke_emits (t : Tool SearchOutput) text :
  agent_emits (invoke t (StrInput text)).
Proof.
  unfold invoke. apply emits_bind; [|intros ?; emits_step].
  apply emits_emit; cbn; eauto.
Qed.

(** The selector's request is the one that advertises tools: when the
    selector returns, the reply carried tool calls. *)
Lemma create_checked_emits {B} rq (k : ChatCompletionMessage → M B) :
  pinned rq →
  (∀ m, agent_emits (k m)) →
  (∀ m w b w', k m w = (Ok b, w') → is_Some (cm_tool_calls m)) →
  agent_emits (create self rq ≫= k).
Proof.
  intros Hp Hk Hcalls w r w''. unfold create. msimpl.
  destruct (chat_completions_create (client self) rq) as [e|m] eqn:Hreply.
  - intros [= <- <-]. exists [ModelCall rq]. cbn.
    split_and!; [done|by constructor|done].
  - intros Hrun. destruct (Hk m _ _ _ Hrun) as (ev & Hev & HP & HQ).
    cbn in Hev. exists (ModelCall rq :: ev).
    rewrite Hev, <-app_assoc. split_and!; [done|by constructor|].
    intros Hok. destruct r as [b|]; [|done].
    constructor; [|by apply HQ].
    destruct (Hcalls _ _ _ _ Hrun) as [calls Hc]. cbn. eauto.
Qed.

Lemma select_tools_emits s : agent_emits (select_tools self s).
Proof.
  unfold select_tools. apply emits_bind; [repeat emits_step|intros l].
  apply emits_bind; [emits_step|intros sent].
  apply create_checked_emits; [done| |].
  - intros m. repeat emits_step.
  - intros m w b w'. destruct (cm_tool_calls m); [by eauto|done].
Qed.

Lemma execute_tool_calls_emits l calls acc :
  agent_emits (execute_tool_calls str_results self l calls acc).
Proof.
  revert acc. induction calls as [|c calls IH]; intros acc;
    cbn [execute_tool_calls]; [emits_step|].
  apply emits_bind; [emits_step|intros t].
  apply emits_bind; [apply invoke_emits|intros r].
  apply emits_bind; [emits_step|intros _]. apply IH.
Qed.

Lemma execute_tools_emits s : agent_emits (execute_tools str_results self s).
Proof.
  unfold execute_tools. do 4 (apply emits_bind; [repeat emits_step|intros ?]).
  emits_step; [|emits_step].
  apply emits_bind; [apply execute_tool_calls_emits|intros ?; emits_step].
Qed.

Lemma create_subtask_answer_emits s :
  agent_emits (create_subtask_answer self s).
Proof.
  unfold create_subtask_answer.
  do 2 (apply emits_bind; [emits_step|intros ?]).
  apply emits_bind; [by apply create_emits|intros ?]. repeat emits_step.
Qed.

Lemma reflect_subtask_emits s :
  agent_emits (reflect_subtask model_dump_json self s).
Proof.
  unfold reflect_subtask.
  do 3 (apply emits_bind; [emits_step|intros ?]).
  apply emits_bind; [by apply parse_ReflectionResult_emits|intros ?].
  repeat emits_step.
Qed.

Lemma subgraph_step_emits c :
  agent_emits (subgraph_step str_results model_dump_json self c).
Proof.
  destruct c as [n s]. unfold subgraph_step. cbn [fst snd].
  destruct n; cbn [node_action]; [..|emits_step];
    (apply emits_bind; [|intros ?; emits_step]);
    auto using select_tools_emits, execute_tools_emits,
      create_subtask_answer_emits, reflect_subtask_emits.
Qed.

Lemma subgraph_run_emits limit c :
  agent_emits (subgraph_run str_results model_dump_json self limit c).
Proof.
  revert c. induction limit as [|limit IH]; intros [n s];
    destruct n; cbn [subgraph_run fst snd]; try (by emits_step);
    (apply emits_bind; [apply subgraph_step_emits|intros ?; apply IH]).
Qed.

Lemma create_plan_emits s : agent_emits (create_plan self s).
Proof.
  unfold create_plan.
  apply emits_bind; [by apply parse_Plan_emits|intros ?]. repeat emits_step.
Qed.

Lemma create_answer_emits s : agent_emits (create_answer self s).
Proof.
  unfold create_answer. apply emits_bind; [emits_step|intros ?].
  apply emits_bind; [by apply create_emits|intros ?]. emits_step.
Qed.

Lemma _execute_subgraph_emits s :
  agent_emits (_execute_subgraph str_results model_dump_json self s).
Proof.
  unfold _execute_subgraph.
  do 2 (apply emits_bind; [repeat emits_step|intros ?]).
  apply emits_bind; [apply subgraph_run_emits|intros ?]. repeat emits_step.
Qed.

Lemma main_node_emits name s :
  agent_emits (main_node str_results model_dump_json self name s).
Proof.
  unfold main_node. repeat case_decide;
    auto using create_plan_emits, create_answer_emits,
      _execute_subgraph_emits, emits_raise.
Qed.

Lemma run_children_emits sends order :
  agent_emits (run_children str_results model_dump_json self sends order).
Proof.
  induction order as [|i order IH]; cbn [run_children]; [emits_step|].
  destruct (sends !! i); [|done].
  apply emits_bind; [apply main_node_emits|intros ?].
  apply emits_bind; [done|intros ?]. emits_step.
Qed.

Lemma graph_invoke_emits order s :
  agent_emits (graph_invoke str_results model_dump_json self order s).
Proof.
  unfold graph_invoke.
  apply emits_bind; [apply main_node_emits|intros ?].
  apply emits_bind; [unfold _should_continue_exec_subtasks; repeat emits_step|].
  intros [|send sends]; [emits_step|].
  apply emits_bind; [apply run_children_emits|intros ?].
  apply emits_bind; [apply main_node_emits|intros ?]. emits_step.
Qed.

Lemma run_agent_emits order q :
  agent_emits (run_agent str_results model_dump_json self order q).
Proof.
  unfold run_agent. apply emits_bind; [apply graph_invoke_emits|intros ?].
  repeat emits_step.
Qed.

End AgentEvents.

(** * The message buffer *)

Lemma alter_lookup_insert {A} (f : A → A) (h : list A) l x :
  h !! l = Some x → alter f l h = <[l := f x]> h.
Proof.
  intros Hl. apply list_eq. intros i. destruct (decide (i = l)) as [->|Hne].
  - rewrite list_lookup_alter_eq, Hl, list_lookup_insert_eq; [done|].
    by eapply lookup_lt_Some.
  - by rewrite list_lookup_alter_ne, list_lookup_insert_ne.
Qed.

Lemma append_at l m w history :
  heap w !! l = Some history →
  append l m w =
  (Ok (), {| heap := <[l := history ++ [m]]> (heap w); trace := trace w |}).
Proof. intros Hl. unfold append. by rewrite (alter_lookup_insert _ _ _ _ Hl). Qed.

Lemma read_at l w history :
  heap w !! l = Some history → read l w = (Ok history, w).
Proof. intros Hl. unfold read. by rewrite Hl. Qed.

Section Executor.
Context {SearchOutput : Type}.
Variable str_results : list SearchOutput → string.
Variable self : HelpDeskAgent SearchOutput.

(** The loop serves a prefix of the calls and goes on with the rest: the
    replies are already in the list object, in the order of the calls. *)
Lemma execute_tool_calls_prefix l served outcomes rest acc w history :
  Forall2 (handled self) served outcomes →
  heap w !! l = Some history →
  execute_tool_calls str_results self l (served ++ rest) acc w =
  execute_tool_calls str_results self l rest
    (acc ++ zip_with tool_record served outcomes)
    {| heap := <[l := history ++ zip_with (tool_reply str_results) served outcomes]> (heap w);
       trace := trace w ++ zip_with tool_event served outcomes |}.
Proof.
  intros Hserved. revert acc w history.
  induction Hserved as [|c o served outcomes [Hmap Hinv] _ IH];
    intros acc w history Hl.
  - cbn. rewrite !app_nil_r, list_insert_id by done. by destruct w.
  - cbn [app execute_tool_calls zip_with]. unfold invoke.
    rewrite Hmap. msimpl. rewrite Hinv.
    rewrite (alter_lookup_insert _ _ _ _ Hl).
    rewrite (IH _ _ (history ++ [tool_reply str_results c o])).
    + cbn [heap trace]. rewrite list_insert_insert_eq.
      by rewrite <-!app_assoc.
    + cbn [heap]. apply list_lookup_insert_eq. by eapply lookup_lt_Some.
Qed.

Lemma execute_tool_calls_fails l c rest acc w e :
  fails self c e →
  execute_tool_calls str_results self l (c :: rest) acc w =
  (Raise e, {| heap := heap w; trace := trace w ++ failed_call_events self c |}).
Proof.
  unfold failed_call_events.
  intros [[Hmap ->]|(t & msg & Hmap & Hinv & ->)];
    cbn [execute_tool_calls]; unfold invoke; rewrite Hmap; msimpl.
  - rewrite app_nil_r. by destruct w.
  - by rewrite Hinv.
Qed.

(** The loop when a call cannot be served. *)
Lemma execute_tools_failed state w l history final
    served outcomes failed rest e :
  sg_messages state = Some l →
  heap w !! l = Some history →
  last history = Some final →
  tool_calls final = Some (Some (served ++ failed :: rest)) →
  Forall2 (handled self) served outcomes →
  fails self failed e →
  execute_tools str_results self state w =
  (Raise e,
   {| heap := <[l := history ++ zip_with (tool_reply str_results) served outcomes]> (heap w);
      trace := trace w ++ zip_with tool_event served outcomes
                       ++ failed_call_events self failed |}).
Proof.
  intros Hmsg Hl Hlast Hcalls Hserved Hfail.
  unfold execute_tools. rewrite Hmsg. msimpl. rewrite Hl.
  cbn [from_option id]. rewrite Hlast, Hcalls.
  rewrite (execute_tool_calls_prefix _ _ _ _ _ _ _ Hserved Hl).
  rewrite (execute_tool_calls_fails _ _ _ _ _ _ Hfail).
  cbn [heap trace]. by rewrite <-app_assoc.
Qed.

(** C10. The executor works on the list object of the state. When the calls
    before one that cannot be served were served, [execute_tools] raises the
    error of that call, and the list object already holds, after its former
    content, one role=tool message for each served call, in the order of
    the calls and with the id of its call. The handlers were invoked in that
    order, and no call after the failing one was dispatched. *)
Theorem execute_tools_not_atomic state w l history final
    served outcomes failed rest e :
  sg_messages state = Some l →
  heap w !! l = Some history →
  last history = Some final →
  tool_calls final = Some (Some (served ++ failed :: rest)) →
  Forall2 (handled self) served outcomes →
  fails self failed e →
  ∃ w',
    execute_tools str_results self state w = (Raise e, w') ∧
    heap w' !! l = Some (history ++ zip_with (tool_reply str_results) served outcomes) ∧
    Forall2 (λ c m, role m = tool ∧ tool_call_id m = Some (tc_id c))
      served (zip_with (tool_reply str_results) served outcomes) ∧
    trace w' =
      trace w ++ zip_with tool_event served outcomes
              ++ failed_call_events self failed.
Proof.
  intros Hmsg Hl Hlast Hcalls Hserved Hfail.
  rewrite (execute_tools_failed _ _ _ _ _ _ _ _ _ _
             Hmsg Hl Hlast Hcalls Hserved Hfail).
  eexists. split; [done|]. cbn [heap trace]. split_and!; [| |done].
  - apply list_lookup_insert_eq. by eapply lookup_lt_Some.
  - clear -Hserved. induction Hserved; cbn; by constructor.
Qed.

(** The same loop when every call is served. *)
Lemma execute_tools_served state w l history final calls outcomes :
  sg_messages state = Some l →
  heap w !! l = Some history →
  last history = Some final →
  tool_calls final = Some (Some calls) →
  Forall2 (handled self) calls outcomes →
  execute_tools str_results self state w =
  (Ok {| u_messages := Some l;
         u_tool_results := Some [zip_with tool_record calls outcomes];
         u_reflection_results := None;
         u_challenge_count := None;
         u_is_completed := None;
         u_subtask_answer := None |},
   {| heap := <[l := history ++ zip_with (tool_reply str_results) calls outcomes]> (heap w);
      trace := trace w ++ zip_with tool_event calls outcomes |}).
Proof.
  intros Hmsg Hl Hlast Hcalls Hserved.
  unfold execute_tools. rewrite Hmsg. msimpl. rewrite Hl.
  cbn [from_option id]. rewrite Hlast, Hcalls.
  rewrite <-(app_nil_r calls) at 1.
  rewrite (execute_tool_calls_prefix _ _ _ _ _ _ _ Hserved Hl).
  by cbn.
Qed.

Lemma execute_tool_calls_dispatch l calls acc w :
  ∃ dispatched (handlers : list (Tool SearchOutput)),
    length handlers = length dispatched ∧
    trace (execute_tool_calls str_results self l calls acc w).2 =
      trace w ++ zip_with dispatch_event dispatched handlers ∧
    ∀ results, (execute_tool_calls str_results self l calls acc w).1 = Ok results →
      dispatched = calls ∧
      tr_args <$> results =
        (tr_args <$> acc) ++ ((fn_arguments ∘ tc_function) <$> calls).
Proof.
  revert acc w. induction calls as [|c calls IH]; intros acc w;
    cbn [execute_tool_calls].
  { exists [], []. msimpl. rewrite !app_nil_r.
    split_and!; [done|done|]. by intros ? [= <-]. }
  unfold invoke. msimpl.
  destruct (tool_map self !! fn_name (tc_function c)) as [t|].
  2:{ exists [], []. cbn. by rewrite app_nil_r. }
  destruct (tool_invoke t (StrInput (fn_arguments (tc_function c))))
    as [msg|r].
  { exists [c], [t]. by cbn. }
  match goal with
  | |- context [execute_tool_calls _ _ l calls ?acc' ?w'] =>
      destruct (IH acc' w') as (dispatched & handlers & Hlen & Htrace & Hok)
  end.
  exists (c :: dispatched), (t :: handlers). split_and!.
  - cbn. by rewrite Hlen.
  - rewrite Htrace. cbn [trace zip_with]. by rewrite <-app_assoc.
  - intros results [-> Hargs]%Hok. split; [done|].
    rewrite Hargs, fmap_app, <-app_assoc. done.
Qed.

(** Whatever [execute_tools] does, each handler it invokes is given the
    text of the [arguments] of its tool call, as the model produced it; the
    executor does not parse it. When the executor returns, it has dispatched
    every call of the last message, in order, and each [ToolResult] records
    the same text as [args]. *)
Theorem handlers_receive_argument_text state w :
  ∃ dispatched (handlers : list (Tool SearchOutput)),
    length handlers = length dispatched ∧
    trace (execute_tools str_results self state w).2 =
      trace w ++ zip_with dispatch_event dispatched handlers ∧
    ∀ u, (execute_tools str_results self state w).1 = Ok u →
      ∃ l final round,
        sg_messages state = Some l ∧
        last (default [] (heap w !! l)) = Some final ∧
        tool_calls final = Some (Some dispatched) ∧
        u_tool_results u = Some [round] ∧
        tr_args <$> round = (fn_arguments ∘ tc_function) <$> dispatched.
Proof.
  unfold execute_tools. msimpl.
  destruct (sg_messages state) as [l|];
    [|exists [], []; cbn; by rewrite app_nil_r].
  destruct (last (default [] (heap w !! l))) as [final|] eqn:Hlast;
    [|exists [], []; cbn; by rewrite app_nil_r].
  destruct (tool_calls final) as [[calls|]|] eqn:Hcalls;
    [|exists [], []; cbn; by rewrite app_nil_r..].
  destruct (execute_tool_calls_dispatch l calls [] w)
    as (dispatched & handlers & Hlen & Htrace & Hok).
  exists dispatched, handlers.
  destruct (execute_tool_calls str_results self l calls [] w)
    as [[results|e] w'] eqn:Hrun; cbn [fst snd] in *.
  - split_and!; [done|done|]. intros u [= <-].
    destruct (Hok results eq_refl) as [-> Hargs].
    exists l, final, results. by split_and!.
  - by split_and!.
Qed.

End Executor.

(** * The selector *)

Section Selector.
Context {SearchOutput : Type}.
Variable self : HelpDeskAgent SearchOutput.

Lemma heap_snoc_lookup (h : list (list Message)) b :
  (h ++ [b]) !! length h = Some b.
Proof. by rewrite list_lookup_middle. Qed.

Lemma heap_snoc_alter (h : list (list Message)) b f :
  alter f (length h) (h ++ [b]) = h ++ [f b].
Proof. rewrite alter_app_r_alt by lia. by rewrite Nat.sub_diag. Qed.

(** [select_tools], unfolded: a retry without a buffer raises [KeyError];
    otherwise the selector builds a new list, sends its content, and either
    fails or adds the assistant message with the tool calls to that list. *)
Lemma select_tools_unfold s w :
  select_tools self s w =
  if negb (sg_challenge_count s =? 0)%Z && bool_decide (sg_messages s = None)
  then (Raise (KeyError "messages"), w)
  else
    let rq := selector_request self s (buffer s w) in
    let after sent :=
      {| heap := heap w ++ [sent]; trace := trace w ++ [ModelCall rq] |} in
    match chat_completions_create (client self) rq with
    | inl e => (Raise (APIError e), after (rq_messages rq))
    | inr m =>
        match cm_tool_calls m with
        | None =>
            (Raise (ValueError "ツール呼び出しがNullです"),
             after (rq_messages rq))
        | Some calls =>
            (Ok {| u_messages := Some (length (heap w));
                   u_tool_results := None;
                   u_reflection_results := None;
                   u_challenge_count := None;
                   u_is_completed := None;
                   u_subtask_answer := None |},
             after (rq_messages rq ++ [assistant_tool_calls_message calls]))
        end
    end.
Proof.
  unfold select_tools, create, selector_request, selector_messages, buffer.
  destruct (sg_challenge_count s =? 0)%Z; cbn [negb andb].
  - msimpl. rewrite !heap_snoc_lookup. cbn [from_option id].
    destruct (chat_completions_create _ _) as [e|m]; [done|].
    destruct (cm_tool_calls m); [|done]. msimpl. by rewrite heap_snoc_alter.
  - destruct (sg_messages s) as [l|]; [|done]. rewrite bool_decide_false by done.
    msimpl. rewrite heap_snoc_alter, !heap_snoc_lookup. cbn [from_option id].
    destruct (chat_completions_create _ _) as [e|m]; [done|].
    destruct (cm_tool_calls m); [|done]. msimpl. by rewrite heap_snoc_alter.
Qed.

(** The only messages line 244 drops have role tool and a [tool_calls]
    key. *)
Lemma keep_on_retry_false m :
  keep_on_retry m = false ↔ role m = tool ∧ tool_calls m ≠ None.
Proof.
  unfold keep_on_retry. rewrite orb_false_iff, !bool_decide_eq_false.
  split; intros [H1 H2]; split; try done.
  - by destruct (decide (role m = tool)).
  - by intros ?.
Qed.

(** No message the agent writes is of that kind, so on such a history the
    comprehension of line 244 is the identity. *)
Lemma filter_keep_on_retry history :
  Forall (λ m, role m = tool → tool_calls m = None) history →
  filter (λ m, keep_on_retry m = true) history = history.
Proof.
  induction 1 as [|m history Hm _ IH]; [done|].
  rewrite filter_cons_True, IH; [done|].
  destruct (keep_on_retry m) eqn:Hkeep; [done|].
  apply keep_on_retry_false in Hkeep as [Hrole Hcalls]. by apply Hm in Hrole.
Qed.

End Selector.


(** * The main graph: fan-out and join *)

#[global] Instance by_index_total {SearchOutput : Type} :
  Total (@by_index SearchOutput).
Proof. intros a b. unfold by_index. lia. Qed.

#[global] Instance by_index_trans {SearchOutput : Type} :
  Transitive (@by_index SearchOutput).
Proof. intros a b c. unfold by_index. lia. Qed.

Lemma Sorted_le_seq j n : Sorted le (seq j n).
Proof.
  revert j. induction n as [|n IH]; intros j; cbn; [constructor|].
  constructor; [apply IH|]. destruct n; cbn; constructor. lia.
Qed.

(** Sorting by index puts any permutation of the children in plan order. *)
Lemma merge_sort_by_index {SearchOutput : Type}
    (writes : list (nat * AgentUpdate SearchOutput)) n :
  writes.*1 ≡ₚ seq 0 n →
  (merge_sort by_index writes).*1 = seq 0 n.
Proof.
  intros Hperm. apply (Sorted_unique le).
  - eapply (Sorted_fmap _ by_index); [|apply Sorted_merge_sort, _].
    by intros [] [].
  - apply Sorted_le_seq.
  - by rewrite merge_sort_Permutation.
Qed.

Section MainGraph.
Context {SearchOutput : Type}.
Variable str_results : list SearchOutput → string.
Variable model_dump_json : ReflectionResult → string.
Variable self : HelpDeskAgent SearchOutput.

#[local] Abbreviation run := (subgraph_run str_results model_dump_json self).
#[local] Abbreviation node := (main_node str_results model_dump_json self).
#[local] Abbreviation children :=
  (run_children str_results model_dump_json self).

Lemma run_Ok_inv s0 limit w s' w' :
  sg_challenge_count s0 = 0%Z →
  run limit (n_select_tools, s0) w = (Ok s', w') →
  round_inv s0 (n_END, s').
Proof.
  intros H0 (k & _ & Hsteps)%run_Ok_steps.
  eapply round_inv_steps; [|done]. by apply round_inv_init.
Qed.

(** A child that returns contributes one [Subtask], named after the plan
    entry at its [current_step]. *)
Lemma _execute_subgraph_Ok state w u w' :
  _execute_subgraph str_results model_dump_json self state w = (Ok u, w') →
  ∃ p st,
    plan state = Some p ∧
    p !! current_step state = Some (task_name st) ∧
    u = contribution st.
Proof.
  unfold _execute_subgraph.
  destruct (plan state) as [p|]; [|done].
  intros (p' & w1 & [= <- <-] & Hrest)%bind_Ok_inv.
  destruct (p !! current_step state) as [subtask|] eqn:Hsub;
    [|by apply bind_Ok_inv in Hrest as (? & ? & [=] & _)].
  apply bind_Ok_inv in Hrest as (? & ? & [= <- <-] & Hrest).
  apply bind_Ok_inv in Hrest as (s' & w2 & Hrun & Hrest).
  apply run_Ok_inv in Hrun as (Hname & _); [|done].
  destruct (sg_subtask_answer s') as [a|]; [|done].
  msimpl. injection Hrest as <- <-.
  cbn in Hname. eexists p, _. split_and!; [done| |done].
  cbn. by rewrite Hname.
Qed.

Lemma _should_continue_exec_subtasks_Ok (state : AgentState SearchOutput)
    w sends w' :
  _should_continue_exec_subtasks state w = (Ok sends, w') →
  w' = w ∧
  ∃ p, plan state = Some p ∧ length sends = length p ∧
    ∀ i c, sends !! i = Some c →
      send_node c = "execute_subtasks" ∧
      plan (send_arg c) = Some p ∧
      question (send_arg c) = question state ∧
      current_step (send_arg c) = i.
Proof.
  unfold _should_continue_exec_subtasks.
  destruct (plan state) as [p|]; [|done]. msimpl. intros [= <- <-].
  split; [done|]. exists p. split_and!; [done|by rewrite length_imap|].
  intros i c. rewrite list_lookup_imap.
  destruct (p !! i); [|done]. by intros [= <-].
Qed.

(** The children that ran, in the order in which they completed. *)
Lemma run_children_Ok sends order w writes w' :
  children sends order w = (Ok writes, w') →
  Forall (λ iu, ∃ c w1 w2,
            sends !! iu.1 = Some c ∧
            node (send_node c) (send_arg c) w1 = (Ok iu.2, w2)) writes ∧
  (Forall (λ i, i < length sends) order → writes.*1 = order).
Proof.
  revert w writes.
  induction order as [|i order IH]; intros w writes; cbn [run_children].
  { msimpl. by intros [= <- <-]. }
  destruct (sends !! i) as [c|] eqn:Hc.
  - intros (u & w1 & Hu & Hrest)%bind_Ok_inv.
    apply bind_Ok_inv in Hrest as (ws & w2 & Hws & [= <- <-]).
    destruct (IH _ _ Hws) as [Hall Hfst]. split.
    + constructor; [|done]. by exists c, w, w1.
    + intros [_ Hvalid]%Forall_cons. cbn. by rewrite Hfst.
  - intros Hws. destruct (IH _ _ Hws) as [Hall Hfst]. split; [done|].
    intros [Hi _]%Forall_cons.
    apply lookup_lt_is_Some in Hi as [? ?]. congruence.
Qed.

Lemma plan_foldl_contributions state (updates : list (AgentUpdate SearchOutput)) :
  Forall (λ u, up_plan u = None) updates →
  plan (foldl apply_agent_update state updates) = plan state.
Proof.
  intros Hall. revert state.
  induction Hall as [|u updates Hu _ IH]; intros state; cbn; [done|].
  rewrite IH. cbn. by rewrite Hu.
Qed.

(** Merging contributions appends their sub-tasks. *)
Lemma foldl_contributions (state : AgentState SearchOutput) sts :
  foldl apply_agent_update state (contribution <$> sts) =
  {| question := question state;
     plan := plan state;
     current_step := current_step state;
     subtask_results := subtask_results state ++ sts;
     last_answer := last_answer state |}.
Proof.
  revert state. induction sts as [|st sts IH]; intros state; cbn.
  - rewrite app_nil_r. by destruct state.
  - rewrite IH. cbn. by rewrite <-app_assoc.
Qed.

(** Contributions sorted by index line up with the plan. *)
Lemma contributions_in_order (p : list string)
    (sorted : list (nat * AgentUpdate SearchOutput)) j k :
  sorted.*1 = seq j k →
  Forall (λ iu, ∃ st, p !! iu.1 = Some (task_name st) ∧
                      iu.2 = contribution st) sorted →
  ∃ sts, sorted.*2 = contribution <$> sts ∧
         Forall2 (λ i st, p !! i = Some (task_name st)) (seq j k) sts.
Proof.
  intros Hfst Hall. revert j k Hfst.
  induction Hall as [|[i u] sorted (st & Hst & Hu) _ IH]; intros j k Hfst.
  - exists []. destruct k; [by constructor|done].
  - destruct k as [|k]; [done|]. cbn in *. injection Hfst as -> Hfst.
    destruct (IH _ _ Hfst) as (sts & Hsnd & Hnames).
    exists (st :: sts). split; [by rewrite Hu, Hsnd|by constructor].
Qed.

Lemma names_of_plan (p : list string) (sts : list (Subtask SearchOutput)) :
  Forall2 (λ i st, p !! i = Some (task_name st)) (seq 0 (length p)) sts →
  task_name <$> sts = p.
Proof.
  intros Hnames. apply list_eq. intros i. rewrite list_lookup_fmap.
  pose proof (Forall2_length _ _ _ Hnames) as Hlen. rewrite length_seq in Hlen.
  destruct (sts !! i) as [st|] eqn:Hst; cbn.
  - pose proof (lookup_lt_Some _ _ _ Hst) as Hi.
    assert (seq 0 (length p) !! i = Some i) as Hseq
      by (by apply lookup_seq_lt; lia).
    by rewrite (Forall2_lookup_lr _ _ _ _ _ _ Hnames Hseq Hst).
  - symmetry. apply lookup_ge_None. apply lookup_ge_None in Hst. lia.
Qed.

Lemma create_plan_Ok state w u w' :
  create_plan self state w = (Ok u, w') →
  ∃ p, u = {| up_plan := Some p; up_subtask_results := None;
              up_last_answer := None |}.
Proof.
  unfold create_plan, parse_Plan. msimpl.
  destruct (chat_completions_parse_Plan _ _) as [e|[p|]]; try done.
  intros [= <- <-]. by eexists.
Qed.

Lemma create_answer_Ok state w u w' :
  create_answer self state w = (Ok u, w') →
  ∃ a, u = {| up_plan := None; up_subtask_results := None;
              up_last_answer := Some a |}.
Proof.
  unfold create_answer, create. msimpl.
  destruct (plan state); [|done].
  destruct (chat_completions_create _ _) as [e|m]; try done.
  intros [= <- <-]. by eexists.
Qed.

(** The state [app.invoke] returns: the sub-task results follow the plan. *)
Lemma graph_invoke_Ok order input w final w' :
  subtask_results input = [] →
  graph_invoke str_results model_dump_json self order input w
    = (Ok final, w') →
  ∃ p, plan final = Some p ∧
       (create_plan self input w).1
         = Ok {| up_plan := Some p; up_subtask_results := None;
                 up_last_answer := None |} ∧
       (order ≡ₚ seq 0 (length p) →
        task_name <$> subtask_results final = p).
Proof.
  intros Hempty. unfold graph_invoke.
  intros (u & w1 & Hplan & Hrest)%bind_Ok_inv.
  change (main_node str_results model_dump_json self "create_plan")
    with (create_plan self) in Hplan.
  pose proof Hplan as Hplan'.
  apply create_plan_Ok in Hplan as [p ->]. rewrite Hplan'. clear Hplan'.
  apply bind_Ok_inv in Hrest as (sends & w2 & Hsends & Hrest).
  apply _should_continue_exec_subtasks_Ok in Hsends
    as (-> & p' & [= <-] & Hlen & Hsends).
  exists p. destruct sends as [|c0 sends0] eqn:Hs.
  { injection Hrest as <- <-. cbn. split_and!; [done..|]. intros _.
    rewrite Hempty. cbn in *. by destruct p. }
  rewrite <-Hs in *. clear Hs c0 sends0.
  apply bind_Ok_inv in Hrest as (writes & w3 & Hwrites & Hrest).
  apply bind_Ok_inv in Hrest as (u & w4 & Hanswer & [= <- <-]).
  apply create_answer_Ok in Hanswer as [a ->].
  apply run_children_Ok in Hwrites as [Hall Hfst].
  assert (Forall (λ iu : nat * AgentUpdate SearchOutput,
            ∃ st, p !! iu.1 = Some (task_name st) ∧ iu.2 = contribution st)
            (merge_sort by_index writes)) as Hsorted.
  { rewrite merge_sort_Permutation. eapply Forall_impl; [done|].
    intros [i v] (c & w5 & w6 & Hc & Hrun). cbn in *.
    destruct (Hsends _ _ Hc) as (Hnode & Hp & _ & Hstep).
    rewrite Hnode in Hrun.
    apply _execute_subgraph_Ok in Hrun as (p' & st & Hp' & Hst & ->).
    exists st. split; [|done]. congruence. }
  split_and!; [|done|].
  { cbn. unfold join. rewrite plan_foldl_contributions; [done|].
    apply Forall_fmap. eapply Forall_impl; [done|].
    intros [i v] (st & _ & Hv). cbn in *. by subst. }
  intros Hperm.
  destruct (contributions_in_order p
              (merge_sort by_index writes) 0 (length p)) as (sts & Hsnd & Hnames);
    [|done|].
  { apply merge_sort_by_index. rewrite Hfst; [done|].
    rewrite Hlen. apply Forall_forall. intros i Hi.
    rewrite Hperm in Hi. apply elem_of_seq in Hi. lia. }
  unfold join. rewrite Hsnd, foldl_contributions. cbn.
  rewrite Hempty, app_nil_r. cbn. by apply names_of_plan.
Qed.

(** C2. Whenever [run_agent] returns, and whatever the order in which the
    children of the fan-out completed, the result has one sub-task per plan
    entry and the i-th sub-task is the one of the i-th plan entry. *)
Theorem subtasks_follow_plan order question w result w' :
  run_agent str_results model_dump_json self order question w
    = (Ok result, w') →
  order ≡ₚ seq 0 (length (subtasks (ar_plan result))) →
  length (ar_subtasks result) = length (subtasks (ar_plan result)) ∧
  task_name <$> ar_subtasks result = subtasks (ar_plan result) ∧
  ∀ i description,
    subtasks (ar_plan result) !! i = Some description →
    ∃ subtask, ar_subtasks result !! i = Some subtask ∧
               task_name subtask = description.
Proof.
  unfold run_agent. intros (final & w1 & Hinvoke & Hrest)%bind_Ok_inv Hperm.
  apply graph_invoke_Ok in Hinvoke as (p & Hp & _ & Hnames); [|done].
  rewrite Hp in Hrest. msimpl.
  destruct (last_answer final) as [a|]; [|done].
  injection Hrest as <- <-. cbn in *. specialize (Hnames Hperm).
  split_and!; [|done|].
  - by rewrite <-Hnames, length_fmap.
  - intros i d Hd. rewrite <-Hnames, list_lookup_fmap in Hd.
    destruct (subtask_results final !! i) as [st|]; [|done].
    injection Hd as <-. by exists st.
Qed.

End MainGraph.

(** * Two runs *)

Lemma agents_agree_refl {SearchOutput : Type} (a : HelpDeskAgent SearchOutput) :
  agents_agree a a.
Proof. by repeat split. Qed.

Section Unfoldings.
Context {SearchOutput : Type}.
Variable str_results : list SearchOutput → string.
Variable model_dump_json : ReflectionResult → string.
Variable self : HelpDeskAgent SearchOutput.

Lemma create_subtask_answer_at s w l history :
  sg_messages s = Some l →
  heap w !! l = Some history →
  create_subtask_answer self s w =
  let rq := answer_request self history in
  match chat_completions_create (client self) rq with
  | inl e =>
      (Raise (APIError e),
       {| heap := heap w; trace := trace w ++ [ModelCall rq] |})
  | inr m =>
      (Ok {| u_messages := Some l;
             u_tool_results := None;
             u_reflection_results := None;
             u_challenge_count := None;
             u_is_completed := None;
             u_subtask_answer := Some (cm_content m) |},
       {| heap := <[l := history ++ [assistant_message (cm_content m)]]> (heap w);
          trace := trace w ++ [ModelCall rq] |})
  end.
Proof.
  intros Hl Hh. unfold create_subtask_answer, create, answer_request.
  rewrite Hl. msimpl. rewrite Hh. cbn [from_option id].
  destruct (chat_completions_create _ _) as [e|m]; [done|].
  by rewrite (alter_lookup_insert _ _ _ _ Hh).
Qed.

Lemma reflect_subtask_at s w l history :
  sg_messages s = Some l →
  heap w !! l = Some history →
  reflect_subtask model_dump_json self s w =
  let rq := reflection_request self history in
  let asked := {| heap := <[l := rq_messages rq]> (heap w);
                  trace := trace w ++ [ModelCall rq] |} in
  match chat_completions_parse_ReflectionResult (client self) rq with
  | inl e => (Raise (APIError e), asked)
  | inr None => (Raise (ValueError "内省結果がNullです"), asked)
  | inr (Some r) =>
      (Ok {| u_messages := Some l;
             u_tool_results := None;
             u_reflection_results := Some [r];
             u_challenge_count := Some (sg_challenge_count s + 1)%Z;
             u_is_completed := Some (rr_is_completed r);
             u_subtask_answer :=
               if (MAX_CHALLENGE_COUNT <=? sg_challenge_count s + 1)%Z
                  && negb (rr_is_completed r)
               then Some (Some (sg_subtask s
                                +:+ "の回答が見つかりませんでした。"))
               else None |},
       {| heap := <[l := rq_messages rq
                          ++ [assistant_message (Some (model_dump_json r))]]>
                    (heap w);
          trace := trace w ++ [ModelCall rq] |})
  end.
Proof.
  intros Hl Hh.
  unfold reflect_subtask, parse_ReflectionResult, reflection_request.
  rewrite Hl. msimpl. rewrite (alter_lookup_insert _ _ _ _ Hh).
  assert (l < length (heap w)) as Hlt by by eapply lookup_lt_Some.
  rewrite list_lookup_insert_eq by done. cbn [from_option id].
  destruct (chat_completions_parse_ReflectionResult _ _) as [e|[r|]];
    [done| |done].
  rewrite (alter_lookup_insert _ _ _ (history ++ _))
    by by apply list_lookup_insert_eq.
  cbn [heap trace]. by rewrite list_insert_insert_eq.
Qed.

(** Every call of the loop either is served or cannot be served. *)
Lemma handled_or_fails c :
  (∃ o, handled self c o) ∨ (∃ e, fails self c e).
Proof.
  unfold handled, fails.
  destruct (tool_map self !! fn_name (tc_function c)) as [t|] eqn:Hmap;
    [|by right; eexists; left].
  destruct (tool_invoke t (StrInput (fn_arguments (tc_function c))))
    as [msg|r] eqn:Hinv.
  - right. eexists. right. by exists t, msg.
  - left. by exists (t, r).
Qed.

Lemma calls_split calls :
  (∃ outcomes, Forall2 (handled self) calls outcomes) ∨
  (∃ served outcomes failed rest e,
     calls = served ++ failed :: rest ∧
     Forall2 (handled self) served outcomes ∧ fails self failed e).
Proof.
  induction calls as [|c calls IH]; [left; by exists []|].
  destruct (handled_or_fails c) as [[o Ho]|[e He]].
  - destruct IH as [[os Hos]|(served & os & failed & rest & e & -> & Hs & Hf)].
    + left. exists (o :: os). by constructor.
    + right. exists (c :: served), (o :: os), failed, rest, e.
      split_and!; [done|by constructor|done].
  - right. exists [], [], c, calls, e. by split_and!.
Qed.

End Unfoldings.

Ltac fields He :=
  let Hq := fresh "Hq" in let Hp := fresh "Hp" in let Hs := fresh "Hs" in
  let Hd := fresh "Hd" in let Hc := fresh "Hc" in let Ht := fresh "Ht" in
  let Hr := fresh "Hr" in let Ha := fresh "Ha" in
  unfold erase in He; injection He as Hq Hp Hs Hd Hc Ht Hr Ha;
  try rewrite <-Hq in *; try rewrite <-Hp in *; try rewrite <-Hs in *;
  try rewrite <-Hd in *; try rewrite <-Hc in *; try rewrite <-Ht in *;
  try rewrite <-Hr in *; try rewrite <-Ha in *.

Ltac agree H :=
  let Hset := fresh "Hset" in let Htools := fresh "Htools" in
  let Hmap := fresh "Hmap" in let Hprompts := fresh "Hprompts" in
  let Hclients := fresh "Hclients" in
  destruct H as (Hset & Htools & Hmap & Hprompts & Hclients);
  try rewrite <-Hset in *; try rewrite <-Htools in *;
  try rewrite <-Hmap in *; try rewrite <-Hprompts in *.

Section Simulation.
Context {SearchOutput : Type}.
Variable str_results : list SearchOutput → string.
Variable model_dump_json : ReflectionResult → string.
Variables a b : HelpDeskAgent SearchOutput.
Hypothesis Hagree : agents_agree a b.

#[local] Abbreviation alike s1 s2 :=
  (λ (u1 : SubGraphUpdate SearchOutput) w1' (u2 : SubGraphUpdate SearchOutput) w2',
     same_view (apply_update s1 u1) w1' (apply_update s2 u2) w2').

Lemma same_view_buffer (s1 : AgentSubGraphState SearchOutput) w1 s2 w2 :
  same_view s1 w1 s2 w2 → buffer s1 w1 = buffer s2 w2.
Proof.
  intros [_ Hv]. unfold buffer.
  destruct (sg_messages s1), (sg_messages s2); try done.
  destruct Hv as (h & -> & ->). done.
Qed.

Lemma select_tools_sim s1 w1 s2 w2 :
  same_view s1 w1 s2 w2 →
  same_outcome (alike s1 s2) (select_tools a s1 w1) (select_tools b s2 w2).
Proof using Hagree.
  intros Hview. pose proof (same_view_buffer _ _ _ _ Hview) as Hbuf.
  destruct Hview as [He Hv]. pose proof He as He'.
  rewrite !select_tools_unfold, <-Hbuf.
  unfold selector_request, selector_messages. fields He'. agree Hagree.
  match goal with
  | |- context [chat_completions_create (client a) ?rq] =>
      destruct (Hclients rq) as (<- & _); [done|]
  end.
  destruct (sg_messages s1) as [l1|], (sg_messages s2) as [l2|]; try done.
  - rewrite !bool_decide_false, !andb_false_r by done. cbn zeta.
    destruct (chat_completions_create _ _) as [e|m]; [done|].
    destruct (cm_tool_calls m); [|done].
    split; cbn; [unfold erase, apply_update; cbn; congruence|].
    rewrite !heap_snoc_lookup. by eexists.
  - rewrite !bool_decide_true, !andb_true_r by done.
    destruct (sg_challenge_count s1 =? 0)%Z; cbn [negb]; [|done]. cbn zeta.
    destruct (chat_completions_create _ _) as [e|m]; [done|].
    destruct (cm_tool_calls m); [|done].
    split; cbn; [unfold erase, apply_update; cbn; congruence|].
    rewrite !heap_snoc_lookup. by eexists.
Qed.

Lemma handled_agree c o : handled a c o → handled b c o.
Proof using Hagree.
  agree Hagree. unfold handled. by rewrite <-Hmap.
Qed.

Lemma fails_agree c e : fails a c e → fails b c e.
Proof using Hagree.
  agree Hagree. unfold fails. by rewrite <-Hmap.
Qed.

Lemma execute_tools_sim s1 w1 s2 w2 :
  same_view s1 w1 s2 w2 →
  same_outcome (alike s1 s2)
    (execute_tools str_results a s1 w1) (execute_tools str_results b s2 w2).
Proof using Hagree.
  intros [He Hv].
  destruct (sg_messages s1) as [l1|] eqn:Hl1,
           (sg_messages s2) as [l2|] eqn:Hl2; try done.
  2:{ unfold execute_tools. rewrite Hl1, Hl2. done. }
  destruct Hv as (history & Hh1 & Hh2).
  destruct (last history) as [final|] eqn:Hlast.
  2:{ unfold execute_tools. rewrite Hl1, Hl2. msimpl.
      rewrite Hh1, Hh2. cbn [from_option id]. by rewrite Hlast. }
  destruct (tool_calls final) as [[calls|]|] eqn:Hcalls.
  2,3: unfold execute_tools; rewrite Hl1, Hl2; msimpl;
       rewrite Hh1, Hh2; cbn [from_option id]; by rewrite Hlast, Hcalls.
  destruct (calls_split a calls)
    as [[outcomes Hserved]
       |(served & outcomes & failed & rest & e & -> & Hserved & Hfail)].
  - rewrite (execute_tools_served str_results a s1 w1 l1 history final
               calls outcomes) by done.
    rewrite (execute_tools_served str_results b s2 w2 l2 history final
               calls outcomes);
      [|done..|by eapply Forall2_impl; [|apply handled_agree]].
    split; cbn.
    + unfold erase, apply_update. cbn. fields He. done.
    + eexists. split; apply list_lookup_insert_eq; by eapply lookup_lt_Some.
  - rewrite (execute_tools_failed str_results a s1 w1 l1 history final
               served outcomes failed rest e) by done.
    rewrite (execute_tools_failed str_results b s2 w2 l2 history final
               served outcomes failed rest e);
      [done..|by eapply Forall2_impl; [|apply handled_agree]
      |by apply fails_agree].
Qed.

Lemma create_subtask_answer_sim s1 w1 s2 w2 :
  same_view s1 w1 s2 w2 →
  same_outcome (alike s1 s2)
    (create_subtask_answer a s1 w1) (create_subtask_answer b s2 w2).
Proof using Hagree.
  intros [He Hv].
  destruct (sg_messages s1) as [l1|] eqn:Hl1,
           (sg_messages s2) as [l2|] eqn:Hl2; try done.
  2:{ unfold create_subtask_answer. rewrite Hl1, Hl2. done. }
  destruct Hv as (history & Hh1 & Hh2).
  rewrite (create_subtask_answer_at a s1 w1 l1 history) by done.
  rewrite (create_subtask_answer_at b s2 w2 l2 history) by done.
  unfold answer_request. agree Hagree. cbn zeta.
  match goal with
  | |- context [chat_completions_create (client a) ?rq] =>
      destruct (Hclients rq) as (<- & _); [done|]
  end.
  destruct (chat_completions_create _ _) as [e|m]; [done|].
  split; cbn.
  - unfold erase, apply_update. cbn. fields He. done.
  - eexists. split; apply list_lookup_insert_eq; by eapply lookup_lt_Some.
Qed.

Lemma reflect_subtask_sim s1 w1 s2 w2 :
  same_view s1 w1 s2 w2 →
  same_outcome (alike s1 s2)
    (reflect_subtask model_dump_json a s1 w1)
    (reflect_subtask model_dump_json b s2 w2).
Proof using Hagree.
  intros [He Hv].
  destruct (sg_messages s1) as [l1|] eqn:Hl1,
           (sg_messages s2) as [l2|] eqn:Hl2; try done.
  2:{ unfold reflect_subtask. rewrite Hl1, Hl2. done. }
  destruct Hv as (history & Hh1 & Hh2).
  rewrite (reflect_subtask_at model_dump_json a s1 w1 l1 history) by done.
  rewrite (reflect_subtask_at model_dump_json b s2 w2 l2 history) by done.
  unfold reflection_request. agree Hagree. cbn zeta.
  match goal with
  | |- context [chat_completions_parse_ReflectionResult (client a) ?rq] =>
      destruct (Hclients rq) as (_ & _ & <-); [done|]
  end.
  destruct (chat_completions_parse_ReflectionResult _ _) as [e|[r|]];
    [done| |done].
  split; cbn.
  - unfold erase, apply_update. cbn. fields He. done.
  - eexists. split; apply list_lookup_insert_eq; by eapply lookup_lt_Some.
Qed.

Lemma node_action_sim n s1 w1 s2 w2 :
  same_view s1 w1 s2 w2 →
  same_outcome (alike s1 s2)
    (node_action str_results model_dump_json a n s1 w1)
    (node_action str_results model_dump_json b n s2 w2).
Proof using Hagree.
  intros Hview. destruct n; cbn [node_action].
  - by apply select_tools_sim.
  - by apply execute_tools_sim.
  - by apply create_subtask_answer_sim.
  - by apply reflect_subtask_sim.
  - destruct Hview as [He Hv]. split; cbn; [|done].
    unfold erase, apply_update. cbn. fields He. done.
Qed.

Lemma next_node_erase n (s1 s2 : AgentSubGraphState SearchOutput) :
  erase s1 = erase s2 → next_node n s1 = next_node n s2.
Proof.
  intros He. destruct n; try done. cbn.
  unfold _should_continue_exec_subtask_flow. fields He. done.
Qed.

Lemma subgraph_step_sim n s1 w1 s2 w2 :
  same_view s1 w1 s2 w2 →
  same_outcome (λ c1 w1' c2 w2', c1.1 = c2.1 ∧ same_view c1.2 w1' c2.2 w2')
    (subgraph_step str_results model_dump_json a (n, s1) w1)
    (subgraph_step str_results model_dump_json b (n, s2) w2).
Proof using Hagree.
  intros Hview. destruct (decide (n = n_END)) as [->|Hn]; [done|].
  pose proof (node_action_sim n _ _ _ _ Hview) as Hsim.
  unfold same_outcome in *.
  assert (∀ self s w,
    subgraph_step str_results model_dump_json self (n, s) w =
    match node_action str_results model_dump_json self n s w with
    | (Ok u, w') => (Ok (next_node n (apply_update s u), apply_update s u), w')
    | (Raise e, w') => (Raise e, w')
    end) as Hstep by (by destruct n).
  rewrite !Hstep.
  destruct (node_action _ _ a n s1 w1) as [[u1|e1] w1'],
           (node_action _ _ b n s2 w2) as [[u2|e2] w2']; cbn in *; try done.
  split; [|done]. apply next_node_erase, Hsim.
Qed.

(** Two runs of the sub-graph from states that look alike end alike. *)
Lemma subgraph_run_sim limit n s1 w1 s2 w2 :
  same_view s1 w1 s2 w2 →
  same_outcome (λ r1 _ r2 _, erase r1 = erase r2)
    (subgraph_run str_results model_dump_json a limit (n, s1) w1)
    (subgraph_run str_results model_dump_json b limit (n, s2) w2).
Proof using Hagree.
  revert n s1 w1 s2 w2.
  induction limit as [|limit IH]; intros n s1 w1 s2 w2 Hview;
    (destruct (decide (n = n_END)) as [->|Hn];
     [rewrite !run_END; apply Hview|]).
  - by rewrite !run_O.
  - rewrite !run_unfold by done.
    pose proof (subgraph_step_sim n _ _ _ _ Hview) as Hsim.
    unfold same_outcome in Hsim.
    destruct (subgraph_step _ _ a (n, s1) w1) as [[[n1 s1']|e1] w1'],
             (subgraph_step _ _ b (n, s2) w2) as [[[n2 s2']|e2] w2'];
      cbn in Hsim; try done.
    destruct Hsim as [-> Hview']. by apply IH.
Qed.

(** A child contributes the same in every world, with either agent. *)
Lemma _execute_subgraph_sim state w1 w2 :
  (_execute_subgraph str_results model_dump_json a state w1).1 =
  (_execute_subgraph str_results model_dump_json b state w2).1.
Proof using Hagree.
  unfold _execute_subgraph. generalize default_recursion_limit. intros limit.
  destruct (plan state) as [p|]; [|done]. msimpl.
  destruct (p !! current_step state) as [subtask|]; [|done].
  set (input := subgraph_input (question state) p subtask).
  assert (same_view input w1 input w2) as Hview by done.
  pose proof (subgraph_run_sim limit n_select_tools _ _ _ _ Hview) as Hsim.
  unfold same_outcome in Hsim.
  destruct (subgraph_run _ _ a limit _ w1) as [[r1|e1] w1'],
           (subgraph_run _ _ b limit _ w2) as [[r2|e2] w2'];
    cbn [fst snd] in Hsim; try done.
  - fields Hsim. by destruct (sg_subtask_answer r1).
  - by subst.
Qed.

End Simulation.

Lemma fst_Ok {A} (m : M A) w x :
  (m w).1 = Ok x → ∃ w', m w = (Ok x, w').
Proof. destruct (m w) as [r w']. cbn. intros ->. by exists w'. Qed.

(** Sorting by index is the same for every order of completion. *)
Lemma merge_sort_contributions {SearchOutput : Type}
    (G : nat → AgentUpdate SearchOutput) order n :
  order ≡ₚ seq 0 n →
  merge_sort by_index ((λ i, (i, G i)) <$> order)
  = (λ i, (i, G i)) <$> seq 0 n.
Proof.
  intros Hperm. apply (Sorted_unique_strong by_index).
  - intros [i u] [j v] Hi Hj Hij Hji.
    rewrite merge_sort_Permutation in Hi.
    apply list_elem_of_fmap in Hi as (i' & [= -> ->] & _).
    apply list_elem_of_fmap in Hj as (j' & [= -> ->] & _).
    unfold by_index in *. cbn in *. by replace i' with j' by lia.
  - apply Sorted_merge_sort, _.
  - eapply (Sorted_fmap _ le); [|apply Sorted_le_seq]. by intros ??.
  - by rewrite merge_sort_Permutation, Hperm.
Qed.

Section TwoRuns.
Context {SearchOutput : Type}.
Variable str_results : list SearchOutput → string.
Variable model_dump_json : ReflectionResult → string.
Variables a b : HelpDeskAgent SearchOutput.
Hypothesis Hagree : agents_agree a b.

Lemma writes_by_index (G : nat → AgentUpdate SearchOutput)
    (writes : list (nat * AgentUpdate SearchOutput)) :
  Forall (λ iu, iu.2 = G iu.1) writes →
  writes = (λ i, (i, G i)) <$> writes.*1.
Proof.
  induction 1 as [|[i u] writes Hu _ IH]; [done|].
  cbn in *. by rewrite <-IH, Hu.
Qed.

Lemma children_writes x sends order w writes w' :
  agents_agree a x →
  (∀ i c, sends !! i = Some c → send_node c = "execute_subtasks") →
  Forall (λ i, i < length sends) order →
  run_children str_results model_dump_json x sends order w = (Ok writes, w') →
  writes = (λ i, (i, child_update str_results model_dump_json a sends i)) <$> order.
Proof.
  intros Hx Hnodes Hvalid [Hall Hfst]%run_children_Ok.
  rewrite <-(Hfst Hvalid). apply writes_by_index.
  eapply Forall_impl; [done|]. intros [i u] (c & w1 & w2 & Hc & Hrun).
  cbn in *. unfold child_update. rewrite Hc.
  rewrite (Hnodes _ _ Hc) in Hrun.
  change (main_node str_results model_dump_json x "execute_subtasks")
    with (_execute_subgraph str_results model_dump_json x) in Hrun.
  rewrite (_execute_subgraph_sim str_results model_dump_json a x Hx
             (send_arg c) _ w1).
  by rewrite Hrun.
Qed.

Lemma children_succeed x sends order w :
  agents_agree a x →
  (∀ i c, sends !! i = Some c → send_node c = "execute_subtasks") →
  Forall (λ i, ∃ c, sends !! i = Some c ∧
            is_ok (_execute_subgraph str_results model_dump_json a (send_arg c)
                     {| heap := []; trace := [] |}).1 = true) order →
  ∃ writes w',
    run_children str_results model_dump_json x sends order w = (Ok writes, w').
Proof.
  intros Hx Hnodes Hall. revert w.
  induction Hall as [|i order (c & Hc & Hok) _ IH]; intros w;
    cbn [run_children]; [by eexists _, _|].
  rewrite Hc, (Hnodes _ _ Hc).
  change (main_node str_results model_dump_json x "execute_subtasks")
    with (_execute_subgraph str_results model_dump_json x).
  rewrite (_execute_subgraph_sim str_results model_dump_json a x Hx
             (send_arg c) _ w) in Hok.
  rewrite bind_unfold.
  destruct (_execute_subgraph _ _ x (send_arg c) w) as [[u|e] w1]; [|done].
  destruct (IH w1) as (writes & w2 & Hrest).
  rewrite bind_unfold, Hrest. by eexists _, _.
Qed.

Lemma children_ran x sends order w writes w' :
  agents_agree x a →
  (∀ i c, sends !! i = Some c → send_node c = "execute_subtasks") →
  Forall (λ i, i < length sends) order →
  run_children str_results model_dump_json x sends order w = (Ok writes, w') →
  Forall (λ i, ∃ c, sends !! i = Some c ∧
            is_ok (_execute_subgraph str_results model_dump_json a (send_arg c)
                     {| heap := []; trace := [] |}).1 = true) order.
Proof.
  intros Hx Hnodes Hvalid [Hall Hfst]%run_children_Ok.
  rewrite <-(Hfst Hvalid). apply Forall_fmap.
  eapply Forall_impl; [done|]. intros [i u] (c & w1 & w2 & Hc & Hrun).
  cbn in *. exists c. split; [done|].
  rewrite (Hnodes _ _ Hc) in Hrun.
  change (main_node str_results model_dump_json x "execute_subtasks")
    with (_execute_subgraph str_results model_dump_json x) in Hrun.
  rewrite <-(_execute_subgraph_sim str_results model_dump_json x a Hx
               (send_arg c) w1).
  by rewrite Hrun.
Qed.

Lemma create_plan_sim state w1 w2 :
  (create_plan a state w1).1 = (create_plan b state w2).1.
Proof using Hagree.
  unfold create_plan, parse_Plan. agree Hagree. msimpl.
  match goal with
  | |- context [chat_completions_parse_Plan (client a) ?rq] =>
      destruct (Hclients rq) as (_ & <- & _); [done|]
  end.
  by destruct (chat_completions_parse_Plan _ _) as [e|[p|]].
Qed.

Lemma create_answer_sim state w1 w2 :
  (create_answer a state w1).1 = (create_answer b state w2).1.
Proof using Hagree.
  unfold create_answer, create. agree Hagree. msimpl.
  destruct (plan state) as [p|]; [|done].
  match goal with
  | |- context [chat_completions_create (client a) ?rq] =>
      destruct (Hclients rq) as (<- & _); [done|]
  end.
  by destruct (chat_completions_create _ _) as [e|m].
Qed.

Lemma sends_of_plan (state : AgentState SearchOutput) p w :
  plan state = Some p →
  _should_continue_exec_subtasks state w = (Ok (sends_of state p), w) ∧
  length (sends_of state p) = length p ∧
  ∀ i c, sends_of state p !! i = Some c → send_node c = "execute_subtasks".
Proof.
  intros Hp. unfold _should_continue_exec_subtasks, sends_of. rewrite Hp.
  msimpl. split_and!; [done|by rewrite length_imap|].
  intros i c. rewrite list_lookup_imap.
  destruct (p !! i); [|done]. by intros [= <-].
Qed.

(** The main graph ends in the same state for both agents, in any two
    worlds and for any two orders of completion. *)
Lemma graph_invoke_sim order1 order2 input w1 w1' w2 final p :
  subtask_results input = [] →
  graph_invoke str_results model_dump_json a order1 input w1 = (Ok final, w1') →
  plan final = Some p →
  order1 ≡ₚ seq 0 (length p) →
  order2 ≡ₚ seq 0 (length p) →
  (graph_invoke str_results model_dump_json b order2 input w2).1 = Ok final.
Proof using Hagree.
  intros Hempty Hrun Hp Hperm1 Hperm2.
  destruct (graph_invoke_Ok _ _ _ _ _ _ _ _ Hempty Hrun)
    as (p' & Hp' & Hplan & _).
  assert (p' = p) as -> by congruence. clear Hp'.
  pose proof Hplan as Hplan2. rewrite (create_plan_sim input w1 w2) in Hplan2.
  apply fst_Ok in Hplan as [w1a Hplan]. apply fst_Ok in Hplan2 as [w2a Hplan2].
  unfold graph_invoke in *.
  change (main_node str_results model_dump_json ?x "create_plan")
    with (create_plan x) in *.
  rewrite bind_unfold, Hplan in Hrun. rewrite bind_unfold, Hplan2.
  set (state := apply_agent_update input _) in *.
  destruct (sends_of_plan state p w1a eq_refl) as (Hsends1 & Hlen & Hnodes).
  destruct (sends_of_plan state p w2a eq_refl) as (Hsends2 & _ & _).
  rewrite bind_unfold, Hsends1 in Hrun. rewrite bind_unfold, Hsends2.
  set (sends := sends_of state p) in *. clearbody sends.
  destruct sends as [|c0 sends0] eqn:Hs; [by injection Hrun as <- _|].
  rewrite <-Hs in *. clear Hs c0 sends0.
  apply bind_Ok_inv in Hrun as (writes1 & w1b & Hwrites1 & Hrun).
  assert (∀ order, order ≡ₚ seq 0 (length p) →
            Forall (λ i, i < length sends) order) as Hvalid.
  { intros order Hperm. rewrite Hlen. apply Forall_forall. intros i Hi.
    rewrite Hperm in Hi. apply elem_of_seq in Hi. lia. }
  pose proof (children_ran a _ _ _ _ _ (agents_agree_refl a) Hnodes
                (Hvalid _ Hperm1) Hwrites1) as Hran.
  rewrite Hperm1, <-Hperm2 in Hran.
  destruct (children_succeed b sends order2 w2a Hagree Hnodes Hran)
    as (writes2 & w2b & Hwrites2).
  rewrite bind_unfold, Hwrites2.
  apply children_writes in Hwrites1; [|apply agents_agree_refl|done|by apply Hvalid].
  apply children_writes in Hwrites2; [|done|done|by apply Hvalid].
  assert (join state writes2 = join state writes1) as ->.
  { unfold join. subst writes1 writes2.
    by rewrite !(merge_sort_contributions _ _ (length p)). }
  change (main_node str_results model_dump_json ?x "create_answer")
    with (create_answer x) in *.
  apply bind_Ok_inv in Hrun as (u & w1c & Hanswer & [= <- <-]).
  rewrite bind_unfold.
  pose proof (create_answer_sim (join state writes1) w1b w2b) as Hsim.
  rewrite Hanswer in Hsim. cbn in Hsim.
  by destruct (create_answer b _ w2b) as [[u'|e'] w2c];
    cbn in Hsim; simplify_eq.
Qed.

End TwoRuns.

(** C6. Every request a run sends to the model, whatever the outcome of the
    run, has [temperature = 0] and [seed = 0]. Hence the result of a run
    depends on the model only through its answers to such requests, and on
    nothing else that may differ between two runs: when a run returns a
    result, so does a run from any other world, with any other order of
    completion of the children, and with a client that answers requests with
    pinned parameters alike; the two results are equal. *)
Theorem pinned_requests_reproducible {SearchOutput : Type}
    (str_results : list SearchOutput → string)
    (model_dump_json : ReflectionResult → string)
    (a : HelpDeskAgent SearchOutput) :
  (∀ order question w,
     ∃ events,
       trace (run_agent str_results model_dump_json a order question w).2
         = trace w ++ events ∧
       ∀ rq, ModelCall rq ∈ events →
             rq_temperature rq = 0%Z ∧ rq_seed rq = 0%Z) ∧
  (∀ b order1 order2 question w1 w2 result,
     agents_agree a b →
     (run_agent str_results model_dump_json a order1 question w1).1
       = Ok result →
     order1 ≡ₚ seq 0 (length (subtasks (ar_plan result))) →
     order2 ≡ₚ seq 0 (length (subtasks (ar_plan result))) →
     (run_agent str_results model_dump_json b order2 question w2).1
       = Ok result).
Proof.
  split.
  - intros order question w.
    destruct (run_agent _ _ a order question w) as [r w'] eqn:Hrun.
    destruct (run_agent_emits _ _ _ _ _ _ _ _ Hrun) as (events & Hev & Hwf & _).
    exists events. split; [done|]. intros rq Hin.
    rewrite Forall_forall in Hwf. apply (Hwf _ Hin).
  - intros b order1 order2 question w1 w2 result Hagree Hrun Hperm1 Hperm2.
    apply fst_Ok in Hrun as [w1' Hrun]. unfold run_agent in *.
    apply bind_Ok_inv in Hrun as (final & w1a & Hinvoke & Hrest).
    destruct (plan final) as [p|] eqn:Hp; [|done]. msimpl.
    destruct (last_answer final) as [answer|] eqn:Ha; [|done].
    injection Hrest as <- <-. cbn in *.
    pose proof (λ Hempty,
                  graph_invoke_sim str_results model_dump_json a b Hagree
                    order1 order2 _ w1 w1a w2 final p Hempty Hinvoke Hp
                    Hperm1 Hperm2) as Hsim.
    specialize (Hsim eq_refl).
    destruct (graph_invoke _ _ b order2 _ w2) as [[final'|e] w2a];
      cbn in Hsim; simplify_eq.
    by rewrite Hp, Ha.
Qed.

(** * The retry budget and the configuration *)

(** [Settings] has no field for the budget: an entry [max_challenges] of the
    environment is dropped like any other unknown entry. *)
Lemma Settings_load_max_challenges env v :
  Settings_load (<["max_challenges" := v]> env) = Settings_load env.
Proof. unfold Settings_load. by rewrite !lookup_insert_ne. Qed.

(** C9, as the code has it. The retry budget is the module constant
    [MAX_CHALLENGE_COUNT] = 3. An agent whose settings were loaded from an
    environment with a [max_challenges] entry has the settings of the
    environment without it, and its sub-task loop, started with
    [challenge_count = 0], still ends with a counter of at most 3, and of
    exactly 3 when the reflector was never satisfied. *)
Theorem retry_budget_is_fixed {SearchOutput : Type}
    (str_results : list SearchOutput → string)
    (model_dump_json : ReflectionResult → string)
    (self : HelpDeskAgent SearchOutput) env v s0 w limit s' w' :
  settings self = Settings_load (<["max_challenges" := v]> env) →
  sg_challenge_count s0 = 0%Z →
  subgraph_run str_results model_dump_json self limit (n_select_tools, s0) w
    = (Ok s', w') →
  settings self = Settings_load env ∧
  MAX_CHALLENGE_COUNT = 3%Z ∧
  (sg_challenge_count s' ≤ 3)%Z ∧
  (sg_is_completed s' = false → sg_challenge_count s' = 3%Z).
Proof.
  intros Hset H0 Hrun. rewrite Settings_load_max_challenges in Hset.
  apply run_Ok_inv in Hrun as (_ & Hr & _ & _ & _ & Hend & _); [|done].
  unfold MAX_CHALLENGE_COUNT in *. cbn [fst snd] in *.
  split_and!; [done|done|lia|].
  intros Hd. destruct Hend as [Hend|Hend]; [congruence|done].
Qed.

(** * The registry of tools *)

Section Registry.
Context {SearchOutput : Type}.

Lemma tool_map_foldl (tools : list (Tool SearchOutput))
    (m : gmap string (Tool SearchOutput)) name :
  foldl (λ m t, <[tool_name t := t]> m) m tools !! name =
  match last (filter (λ t, tool_name t = name) tools) with
  | Some t => Some t
  | None => m !! name
  end.
Proof.
  revert m. induction tools as [|t tools IH]; intros m; [done|].
  cbn [foldl]. rewrite IH.
  destruct (decide (tool_name t = name)) as [Heq|Hne].
  - rewrite filter_cons_True by done. rewrite last_cons.
    destruct (last (filter _ tools)); [done|].
    by rewrite Heq, lookup_insert_eq.
  - rewrite filter_cons_False by done.
    destruct (last (filter _ tools)); [done|].
    by rewrite lookup_insert_ne.
Qed.

Lemma tool_map_init settings (tools : list (Tool SearchOutput)) prompts client name :
  tool_map (HelpDeskAgent_init settings tools prompts client) !! name
    = last (filter (λ t, tool_name t = name) tools).
Proof.
  cbn. rewrite tool_map_foldl, lookup_empty. by destruct (last _).
Qed.

Lemma tool_map_init_name settings (tools : list (Tool SearchOutput))
    prompts client name t :
  tool_map (HelpDeskAgent_init settings tools prompts client) !! name = Some t →
  t ∈ tools ∧ tool_name t = name.
Proof.
  rewrite tool_map_init. intros Hlast.
  apply last_Some_elem_of, list_elem_of_filter in Hlast as [? ?]. done.
Qed.

(** X1. The registry built by [__init__] maps a name to the last tool of
    that name in the list the agent was given: a tool listed earlier under
    the same name is advertised to the model but never dispatched to. A name
    is missing from the registry exactly when no tool of the list has it. *)
Theorem tool_map_last_wins settings (tools : list (Tool SearchOutput))
    prompts client name :
  let agent := HelpDeskAgent_init settings tools prompts client in
  tool_map agent !! name = last (filter (λ t, tool_name t = name) tools) ∧
  (∀ t, tool_map agent !! name = Some t → t ∈ tools ∧ tool_name t = name) ∧
  (tool_map agent !! name = None ↔ ∀ t, t ∈ tools → tool_name t ≠ name) ∧
  (∀ earlier t later,
     tools = earlier ++ t :: later → tool_name t = name →
     (∀ t', t' ∈ later → tool_name t' ≠ name) →
     tool_map agent !! name = Some t).
Proof.
  cbv zeta.
  assert (∀ l : list (Tool SearchOutput),
            (∀ t, t ∈ l → tool_name t ≠ name) →
            last (filter (λ t, tool_name t = name) l) = None) as Hnone.
  { intros l Hl. destruct (last _) as [t|] eqn:Hlast; [|done].
    apply last_Some_elem_of, list_elem_of_filter in Hlast as [Hname Hin].
    by destruct (Hl t Hin). }
  split_and!.
  - apply tool_map_init.
  - apply tool_map_init_name.
  - rewrite tool_map_init. split; [|apply Hnone].
    rewrite last_None. intros Hnil t Ht Hname.
    by apply (filter_nil_not_elem_of _ _ t Hnil Hname).
  - intros earlier t later -> Hname Hlater.
    rewrite tool_map_init, filter_app, filter_cons_True by done.
    by rewrite last_app, last_cons, Hnone.
Qed.

End Registry.

(** * The conversation of a sub-task *)

Lemma model_calls_app events1 events2 :
  model_calls (events1 ++ events2) = model_calls events1 + model_calls events2.
Proof. unfold model_calls. by rewrite filter_app, length_app. Qed.

Lemma model_calls_cons rq events :
  model_calls (ModelCall rq :: events) = S (model_calls events).
Proof. reflexivity. Qed.

Lemma tool_invocations_app events1 events2 :
  tool_invocations (events1 ++ events2)
    = tool_invocations events1 ++ tool_invocations events2.
Proof. unfold tool_invocations. by rewrite omap_app. Qed.

Section Transcript.
Context {SearchOutput : Type}.
Variable str_results : list SearchOutput → string.
Variable model_dump_json : ReflectionResult → string.
Variable self : HelpDeskAgent SearchOutput.

#[local] Abbreviation step := (subgraph_step str_results model_dump_json self).
#[local] Abbreviation steps := (subgraph_steps str_results model_dump_json self).
#[local] Abbreviation run := (subgraph_run str_results model_dump_json self).
#[local] Abbreviation inv := (@buffer_inv SearchOutput).
#[local] Abbreviation adds := (step_adds str_results model_dump_json self).

Lemma buffer_at (s : AgentSubGraphState SearchOutput) w l history :
  sg_messages s = Some l → heap w !! l = Some history → buffer s w = history.
Proof. intros Hl Hh. unfold buffer. by rewrite Hl, Hh. Qed.

Lemma kept_tool_replies calls (outcomes : list (Tool SearchOutput * list SearchOutput)) :
  Forall kept (zip_with (tool_reply str_results) calls outcomes).
Proof.
  revert outcomes. induction calls as [|c calls IH]; intros [|o outcomes];
    cbn; constructor; [done|apply IH].
Qed.

(** The list the selector sends, on a history the agent wrote. *)
Lemma selector_messages_inv (s : AgentSubGraphState SearchOutput) w :
  inv (n_select_tools, s) w →
  selector_messages self s (buffer s w) = buffer s w ++ round_prompt self s ∧
  Forall kept (buffer s w ++ round_prompt self s) ∧
  negb (sg_challenge_count s =? 0)%Z && bool_decide (sg_messages s = None)
    = false.
Proof.
  unfold selector_messages, round_prompt.
  intros [_ [[H0 Hnone]|[Hne (l & history & Hl & Hh & Hkept)]]];
    cbn [fst snd] in *.
  - rewrite H0. cbn. unfold buffer. rewrite Hnone. cbn.
    split_and!; [done| |done]. by repeat constructor.
  - rewrite (buffer_at _ _ _ _ Hl Hh).
    apply Z.eqb_neq in Hne. rewrite Hne. cbn.
    rewrite filter_keep_on_retry by done. split_and!; [done| |].
    + apply Forall_app. split; [done|]. by repeat constructor.
    + rewrite Hl. by rewrite bool_decide_false.
Qed.

(** One step of the loop, on the message list and on the trace. *)
Lemma step_transcript n s w c' w' :
  inv (n, s) w →
  step (n, s) w = (Ok c', w') →
  inv c' w' ∧ c'.1 = next_node n c'.2 ∧
  ∃ added events,
    buffer c'.2 w' = buffer s w ++ added ∧
    trace w' = trace w ++ events ∧
    adds n s c'.2 (buffer s w) added events.
Proof.
  intros Hinv Hstep.
  destruct (decide (n = n_END)) as [->|Hn].
  { rewrite step_END in Hstep. injection Hstep as <- <-.
    split_and!; [done|done|]. exists [], []. by rewrite !app_nil_r. }
  apply step_Ok in Hstep as (u & Hu & ->); [|done].
  refine (let '(conj Hi Ha) := _ in conj Hi (conj eq_refl Ha)).
  destruct n; [| | | |done]; cbn [node_action next_node fst snd] in *.
  - (* select_tools *)
    destruct (selector_messages_inv s w Hinv) as (Hsent & Hkept & Hcond).
    destruct Hinv as [Hcc _]. cbn [fst snd] in Hcc.
    rewrite select_tools_unfold, Hcond in Hu. cbv zeta in Hu.
    destruct (chat_completions_create _ _) as [e|m] eqn:Hreply; [done|].
    destruct (cm_tool_calls m) as [calls|] eqn:Hcalls; [|done].
    injection Hu as <- <-. cbn [selector_request rq_messages].
    rewrite Hsent. split.
    + split; [done|]. cbn. eexists (length (heap w)), _, calls.
      split_and!; [done| |done]. apply heap_snoc_lookup.
    + exists (round_prompt self s ++ [assistant_tool_calls_message calls]),
        [ModelCall (selector_request self s (buffer s w))].
      split_and!.
      * unfold buffer at 1. cbn. rewrite heap_snoc_lookup. cbn.
        by rewrite app_assoc.
      * done.
      * exists m, calls. split_and!; try done.
  - (* execute_tools *)
    destruct Hinv as [Hcc (l & history & calls & Hl & Hh & Hkept)].
    cbn [fst snd] in *.
    destruct (calls_split self calls)
      as [[outcomes Hserved]
         |(served & outcomes & failed & rest & e & -> & Hserved & Hfail)].
    2:{ by rewrite (execute_tools_failed str_results self s w l _ _
                     served outcomes failed rest e Hl Hh (last_snoc _ _)
                     eq_refl Hserved Hfail) in Hu. }
    rewrite (execute_tools_served str_results self s w l _ _ calls outcomes
               Hl Hh (last_snoc _ _) eq_refl Hserved) in Hu.
    injection Hu as <- <-.
    assert (l < length (heap w)) as Hlt by by eapply lookup_lt_Some.
    rewrite (buffer_at _ _ _ _ Hl Hh). split.
    + split; [done|]. cbn. eexists l, _. split_and!; [done| |].
      * by apply list_lookup_insert_eq.
      * apply Forall_app. split; [|apply kept_tool_replies].
        apply Forall_app. split; [done|]. by repeat constructor.
    + eexists _, _. split_and!.
      * unfold buffer. cbn. rewrite list_lookup_insert_eq by done. done.
      * done.
      * exists calls, outcomes. split_and!; try done. apply last_snoc.
  - (* create_subtask_answer *)
    destruct Hinv as [Hcc (l & history & Hl & Hh & Hkept)].
    cbn [fst snd] in *.
    rewrite (create_subtask_answer_at _ _ _ _ _ Hl Hh) in Hu. cbv zeta in Hu.
    destruct (chat_completions_create _ _) as [e|m] eqn:Hreply; [done|].
    injection Hu as <- <-.
    assert (l < length (heap w)) as Hlt by by eapply lookup_lt_Some.
    rewrite (buffer_at _ _ _ _ Hl Hh). split.
    + split; [done|]. cbn. eexists l, _. split_and!; [done| | |by eexists].
      * by apply list_lookup_insert_eq.
      * apply Forall_app. split; [done|]. by repeat constructor.
    + eexists _, _. split_and!.
      * unfold buffer. cbn. rewrite list_lookup_insert_eq by done. done.
      * done.
      * exists m. by split_and!.
  - (* reflect_subtask *)
    destruct Hinv as [Hcc (l & history & Hl & Hh & Hkept & Hanswer)].
    cbn [fst snd] in *.
    rewrite (reflect_subtask_at _ _ _ _ _ _ Hl Hh) in Hu. cbv zeta in Hu.
    destruct (chat_completions_parse_ReflectionResult _ _) as [e|[r|]] eqn:Hreply;
      [done| |done].
    injection Hu as <- <-.
    assert (l < length (heap w)) as Hlt by by eapply lookup_lt_Some.
    rewrite (buffer_at _ _ _ _ Hl Hh).
    set (s' := apply_update s _).
    assert (Forall kept
              (rq_messages (reflection_request self history)
               ++ [assistant_message (Some (model_dump_json r))])) as Hkept'.
    { cbn. rewrite <-app_assoc. apply Forall_app. split; [done|].
      by repeat constructor. }
    assert (is_Some (sg_subtask_answer s')) as Hanswer'.
    { subst s'. cbn. by case_match. }
    assert (sg_challenge_count s' = (sg_challenge_count s + 1)%Z) as Hcount
      by done.
    split.
    + split; [cbn; lia|]. cbn [fst snd].
      destruct (_should_continue_exec_subtask_flow s').
      * eexists l, _. split_and!; [done| |done|done].
        by apply list_lookup_insert_eq.
      * right. split; [lia|]. eexists l, _. split_and!; [done| |done].
        by apply list_lookup_insert_eq.
    + eexists _, _. split_and!.
      * unfold buffer. cbn [fst snd].
        assert (sg_messages s' = Some l) as -> by done.
        cbn [heap]. rewrite list_lookup_insert_eq by done. cbn.
        by rewrite <-app_assoc.
      * done.
      * exists r. by split_and!.
Qed.

Lemma inv_init (s0 : AgentSubGraphState SearchOutput) w :
  sg_challenge_count s0 = 0%Z → sg_messages s0 = None →
  inv (n_select_tools, s0) w.
Proof. intros H0 Hnone. split; cbn; [lia|by left]. Qed.

Lemma steps_inv k c w c' w' :
  inv c w → steps k c w = (Ok c', w') → inv c' w'.
Proof.
  revert c w. induction k as [|k IH]; intros [n s] w Hinv; cbn [subgraph_steps].
  - msimpl. by intros [= <- <-].
  - intros (c1 & w1 & Hstep & Hrest)%bind_Ok_inv.
    eapply IH; [|done]. by eapply step_transcript.
Qed.

(** The message list after some steps extends the one before them. *)
Lemma steps_extend k c w c' w' :
  inv c w → steps k c w = (Ok c', w') →
  buffer c.2 w `prefix_of` buffer c'.2 w'.
Proof.
  revert c w. induction k as [|k IH]; intros [n s] w Hinv; cbn [subgraph_steps].
  - msimpl. by intros [= <- <-].
  - intros (c1 & w1 & Hstep & Hrest)%bind_Ok_inv.
    destruct (step_transcript _ _ _ _ _ Hinv Hstep)
      as (Hinv1 & _ & added & events & Hbuf & _).
    etrans; [|by eapply IH]. rewrite Hbuf. by apply prefix_app_r.
Qed.

End Transcript.

Section SubtaskProperties.
Context {SearchOutput : Type}.
Variable str_results : list SearchOutput → string.
Variable model_dump_json : ReflectionResult → string.
Variable self : HelpDeskAgent SearchOutput.

(** X6. In a sub-task loop started as [_execute_subgraph] starts it, the
    message list only grows: whatever the number of steps, the list before
    them is a prefix of the list after them, so no message is ever dropped,
    the retry of line 244 included. Every request of the selector carries
    the whole list, followed by the prompts of the round. *)
Theorem history_only_grows (s0 : AgentSubGraphState SearchOutput) w :
  sg_challenge_count s0 = 0%Z → sg_messages s0 = None →
  (∀ j k c1 w1 c2 w2,
     subgraph_steps str_results model_dump_json self j (n_select_tools, s0) w
       = (Ok c1, w1) →
     subgraph_steps str_results model_dump_json self k c1 w1 = (Ok c2, w2) →
     buffer c1.2 w1 `prefix_of` buffer c2.2 w2) ∧
  (∀ j s w1 c2 w2,
     subgraph_steps str_results model_dump_json self j (n_select_tools, s0) w
       = (Ok (n_select_tools, s), w1) →
     subgraph_step str_results model_dump_json self (n_select_tools, s) w1
       = (Ok c2, w2) →
     ∃ rq, trace w2 = trace w1 ++ [ModelCall rq] ∧
           rq_messages rq = buffer s w1 ++ round_prompt self s).
Proof.
  intros H0 Hnone.
  pose proof (inv_init s0 w H0 Hnone) as Hinit. split.
  - intros j k c1 w1 c2 w2 Hj Hk.
    eapply steps_extend; [|done]. by eapply steps_inv.
  - intros j s w1 c2 w2 Hj Hstep.
    pose proof (steps_inv _ _ _ _ _ _ _ _ Hinit Hj) as Hinv.
    destruct (step_transcript _ _ _ _ _ _ _ _ Hinv Hstep)
      as (_ & _ & added & events & _ & Htrace & Hadds).
    destruct Hadds as (m & calls & _ & _ & Hsent & -> & _).
    by eexists.
Qed.

(** X12. The first round of a sub-task, from the input of
    [_execute_subgraph]: after the four nodes the message list is the system
    prompt, the tool-selection prompt, the assistant message with the tool
    calls, one role=tool message per call, the assistant message with the
    answer, the reflection prompt and the assistant message with the dumped
    reflection, in this order. The trace holds the selector's request, one
    handler invocation per call, the answer request and the reflection
    request. *)
Theorem first_round_transcript (s0 : AgentSubGraphState SearchOutput) w c w' :
  sg_challenge_count s0 = 0%Z → sg_messages s0 = None →
  subgraph_steps str_results model_dump_json self 4 (n_select_tools, s0) w
    = (Ok c, w') →
  ∃ calls outcomes answer reflection rq1 rq2 rq3,
    Forall2 (handled self) calls outcomes ∧
    buffer c.2 w' =
      [system_message (subtask_system_prompt (prompts self));
       user_message (subtask_tool_selection_user_prompt (prompts self)
                       (sg_question s0) (sg_plan s0) (sg_subtask s0));
       assistant_tool_calls_message calls]
      ++ zip_with (tool_reply str_results) calls outcomes
      ++ [assistant_message answer;
          user_message (subtask_reflection_user_prompt (prompts self));
          assistant_message (Some (model_dump_json reflection))] ∧
    trace w' =
      trace w ++ [ModelCall rq1] ++ zip_with tool_event calls outcomes
              ++ [ModelCall rq2; ModelCall rq3] ∧
    rq_tools rq1 = Some (convert_to_openai_tool <$> tools self) ∧
    rq_messages rq2 =
      [system_message (subtask_system_prompt (prompts self));
       user_message (subtask_tool_selection_user_prompt (prompts self)
                       (sg_question s0) (sg_plan s0) (sg_subtask s0));
       assistant_tool_calls_message calls]
      ++ zip_with (tool_reply str_results) calls outcomes ∧
    sg_tool_results c.2
      = sg_tool_results s0 ++ [zip_with tool_record calls outcomes].
Proof.
  intros H0 Hnone. cbn [subgraph_steps].
  intros ([n1 s1] & w1 & Hstep1 & Hrest)%bind_Ok_inv.
  apply bind_Ok_inv in Hrest as ([n2 s2] & w2 & Hstep2 & Hrest).
  apply bind_Ok_inv in Hrest as ([n3 s3] & w3 & Hstep3 & Hrest).
  apply bind_Ok_inv in Hrest as ([n4 s4] & w4 & Hstep4 & [= <- <-]).
  pose proof (inv_init s0 w H0 Hnone) as Hinv0.
  destruct (step_transcript _ _ _ _ _ _ _ _ Hinv0 Hstep1)
    as (Hinv1 & Hn1 & added1 & events1 & Hbuf1 & Htrace1 & Hadds1).
  cbn in Hn1. subst n1.
  destruct (step_transcript _ _ _ _ _ _ _ _ Hinv1 Hstep2)
    as (Hinv2 & Hn2 & added2 & events2 & Hbuf2 & Htrace2 & Hadds2).
  cbn in Hn2. subst n2.
  destruct (step_transcript _ _ _ _ _ _ _ _ Hinv2 Hstep3)
    as (Hinv3 & Hn3 & added3 & events3 & Hbuf3 & Htrace3 & Hadds3).
  cbn in Hn3. subst n3.
  destruct (step_transcript _ _ _ _ _ _ _ _ Hinv3 Hstep4)
    as (Hinv4 & Hn4 & added4 & events4 & Hbuf4 & Htrace4 & Hadds4).
  cbn [snd] in *.
  destruct Hadds1 as (m1 & calls & _ & _ & _ & -> & ->).
  destruct Hadds2 as (calls' & outcomes & Hlast & Hserved & -> & -> & Hresults).
  destruct Hadds3 as (m3 & _ & -> & -> & _).
  destruct Hadds4 as (r & _ & -> & -> & _).
  assert (buffer s0 w = []) as Hempty by (unfold buffer; by rewrite Hnone).
  rewrite Hempty in *. unfold round_prompt in *. rewrite H0 in *.
  cbn [Z.eqb app] in *.
  rewrite Hbuf1 in Hlast. cbn in Hlast. injection Hlast as <-.
  apply step_effect in Hstep1 as (_ & _ & _ & _ & Hres1 & _).
  apply step_effect in Hstep3 as (_ & _ & _ & _ & Hres3 & _).
  apply step_effect in Hstep4 as (_ & _ & _ & Hres4 & _).
  eexists calls, outcomes, _, r, _, _, _. split_and!.
  - done.
  - rewrite Hbuf4, Hbuf3, Hbuf2, Hbuf1. by rewrite <-!app_assoc.
  - rewrite Htrace4, Htrace3, Htrace2, Htrace1. by rewrite <-!app_assoc.
  - done.
  - cbn. by rewrite Hbuf2, Hbuf1.
  - by rewrite Hres4, Hres3, Hresults, Hres1.
Qed.

End SubtaskProperties.

(** * Requests, invocations and errors of a sub-task *)

Lemma model_calls_dispatch {SearchOutput : Type} calls
    (handlers : list (Tool SearchOutput)) :
  model_calls (zip_with dispatch_event calls handlers) = 0.
Proof.
  revert handlers. induction calls as [|c calls IH]; intros [|t handlers];
    try done. apply IH.
Qed.

Section Ledger.
Context {SearchOutput : Type}.
Variable str_results : list SearchOutput → string.
Variable model_dump_json : ReflectionResult → string.
Variable self : HelpDeskAgent SearchOutput.

#[local] Abbreviation step := (subgraph_step str_results model_dump_json self).
#[local] Abbreviation steps := (subgraph_steps str_results model_dump_json self).
#[local] Abbreviation run := (subgraph_run str_results model_dump_json self).
#[local] Abbreviation node := (node_action str_results model_dump_json self).

(** The requests of a node, whatever its outcome. *)
Lemma node_model_calls n s w :
  ∃ events,
    trace (node n s w).2 = trace w ++ events ∧
    model_calls events ≤ quota n ∧
    (is_ok (node n s w).1 = true → model_calls events = quota n).
Proof.
  destruct n; cbn [node_action quota].
  - rewrite select_tools_unfold. cbv zeta.
    destruct (_ && _); [exists []; cbn; rewrite app_nil_r; split_and!; [done|lia|done]|].
    destruct (chat_completions_create _ _) as [e|m];
      [|destruct (cm_tool_calls m)]; eexists [_]; cbn; split_and!; done || lia.
  - unfold execute_tools. msimpl.
    destruct (sg_messages s) as [l|];
      [|exists []; cbn; rewrite app_nil_r; split_and!; [done|lia|done]].
    destruct (last (default [] (heap w !! l))) as [final|];
      [|exists []; cbn; rewrite app_nil_r; split_and!; [done|lia|done]].
    destruct (tool_calls final) as [[calls|]|];
      [|exists []; cbn; rewrite app_nil_r; split_and!; [done|lia|done]..].
    destruct (execute_tool_calls_dispatch str_results self l calls [] w)
      as (dispatched & handlers & _ & Htrace & _).
    exists (zip_with dispatch_event dispatched handlers).
    rewrite model_calls_dispatch.
    destruct (execute_tool_calls _ _ _ _ _ _) as [[results|e] w'];
      cbn [fst snd trace] in *; by split_and!.
  - unfold create_subtask_answer, create. msimpl.
    destruct (sg_messages s) as [l|];
      [|exists []; cbn; rewrite app_nil_r; split_and!; [done|lia|done]].
    destruct (chat_completions_create _ _) as [e|m]; eexists [_]; cbn; split_and!; done || lia.
  - unfold reflect_subtask, parse_ReflectionResult. msimpl.
    destruct (sg_messages s) as [l|];
      [|exists []; cbn; rewrite app_nil_r; split_and!; [done|lia|done]].
    destruct (chat_completions_parse_ReflectionResult _ _) as [e|[r|]];
      eexists [_]; cbn; split_and!; done || lia.
  - exists []. msimpl. by rewrite app_nil_r.
Qed.

Lemma step_model_calls n s w :
  ∃ events,
    trace (step (n, s) w).2 = trace w ++ events ∧
    model_calls events ≤ quota n ∧
    (is_ok (step (n, s) w).1 = true → model_calls events = quota n).
Proof.
  destruct (node_model_calls n s w) as (events & Htrace & Hle & Hok).
  exists events. unfold subgraph_step. cbn [fst snd].
  destruct n; cbn [node_action] in *;
    try (rewrite bind_unfold;
         match goal with
         | |- context [match ?m with _ => _ end] =>
             destruct m as [[u|e] w1]
         end; cbn [fst snd] in *; msimpl; by split_and!).
  msimpl. cbn in *. by split_and!.
Qed.

Lemma used_step s0 n s w c' w' :
  round_inv s0 (n, s) → step (n, s) w = (Ok c', w') →
  used c' = used (n, s) + quota n.
Proof.
  destruct c' as [n' s'].
  intros (_ & Hr & _) [_ Heff]%step_effect. unfold used, quota. cbn [fst snd] in *.
  destruct n.
  - destruct Heff as (-> & -> & _). lia.
  - destruct Heff as (-> & -> & _). lia.
  - destruct Heff as (-> & -> & _). lia.
  - destruct Heff as (-> & -> & _).
    destruct (_should_continue_exec_subtask_flow s'); lia.
  - destruct Heff as (-> & ->). lia.
Qed.

Lemma used_bound s0 (c : SubGraphNode * AgentSubGraphState SearchOutput) :
  round_inv s0 c → used c + quota c.1 ≤ 9.
Proof.
  destruct c as [n s]. intros (_ & Hr & _ & Hn).
  unfold used, quota, MAX_CHALLENGE_COUNT in *. cbn [fst snd] in *.
  destruct n; lia.
Qed.

(** The requests of a run of the loop, whatever its outcome. *)
Lemma run_model_calls s0 limit c w :
  round_inv s0 c →
  ∃ events,
    trace (run limit c w).2 = trace w ++ events ∧
    used c + model_calls events ≤ 9 ∧
    (∀ s', (run limit c w).1 = Ok s' →
       used c + model_calls events = 3 * Z.to_nat (sg_challenge_count s')).
Proof.
  revert c w. induction limit as [|limit IH]; intros [n s] w Hinv;
    (destruct (decide (n = n_END)) as [->|Hn];
     [rewrite run_END; exists []; cbn [fst snd];
      pose proof (used_bound _ _ Hinv) as Hb; cbn in Hb;
      rewrite app_nil_r; split_and!; [done|cbn; lia|];
      intros s' [= <-]; unfold used; cbn; lia|]).
  - rewrite run_O by done. exists []. cbn [fst snd].
    pose proof (used_bound _ _ Hinv) as Hb.
    change (model_calls []) with 0.
    rewrite app_nil_r. split_and!; [done|lia|done].
  - rewrite run_unfold by done.
    destruct (step_model_calls n s w) as (events1 & Htrace1 & Hle1 & Hok1).
    pose proof (used_bound _ _ Hinv) as Hb. cbn [fst] in Hb.
    destruct (step (n, s) w) as [[c1|e] w1] eqn:Hstep; cbn [fst snd] in *.
    + specialize (Hok1 eq_refl).
      pose proof (round_inv_step _ _ _ _ _ _ _ _ Hinv Hstep) as Hinv1.
      pose proof (used_step _ _ _ _ _ _ Hinv Hstep) as Hused.
      destruct (IH c1 w1 Hinv1) as (events & Htrace & Hle & Hok).
      exists (events1 ++ events). rewrite model_calls_app.
      split_and!.
      * by rewrite Htrace, Htrace1, app_assoc.
      * lia.
      * intros s' Hs'. specialize (Hok s' Hs'). lia.
    + exists events1. split_and!; [done|lia|done].
Qed.

(** The error of a step that fails. *)
Lemma step_node_error n s w e w' :
  buffer_inv (n, s) w →
  step (n, s) w = (Raise e, w') → node_error self e.
Proof.
  intros Hinv. unfold subgraph_step. cbn [fst snd].
  assert (node n s w = (Raise e, w') → node_error self e) as Hnode.
  2:{ destruct n; try done;
        (intros [(u & w1 & _ & [=])|(e' & Hu & [= ->])]%bind_inv;
         by apply Hnode). }
  unfold node_error. destruct n; cbn [node_action].
  - destruct (selector_messages_inv self s w Hinv) as (_ & _ & Hcond).
    rewrite select_tools_unfold, Hcond. cbv zeta.
    destruct (chat_completions_create _ _) as [msg|m];
      [|destruct (cm_tool_calls m)]; intros [= <- <-]; eauto 10.
  - destruct Hinv as [_ (l & history & calls & Hl & Hh & _)].
    cbn [fst snd] in *.
    destruct (calls_split self calls)
      as [[outcomes Hserved]
         |(served & outcomes & failed & rest & e' & -> & Hserved & Hfail)].
    { by rewrite (execute_tools_served str_results self s w l _ _ calls
                    outcomes Hl Hh (last_snoc _ _) eq_refl Hserved). }
    rewrite (execute_tools_failed str_results self s w l _ _
               served outcomes failed rest e' Hl Hh (last_snoc _ _)
               eq_refl Hserved Hfail).
    intros [= <- <-].
    destruct Hfail as [[Hmap ->]|(t & msg & _ & _ & ->)]; eauto 10.
  - destruct Hinv as [_ (l & history & Hl & Hh & _)]. cbn [fst snd] in *.
    rewrite (create_subtask_answer_at _ _ _ _ _ Hl Hh). cbv zeta.
    destruct (chat_completions_create _ _) as [msg|m]; intros [= <- <-].
    eauto 10.
  - destruct Hinv as [_ (l & history & Hl & Hh & _)]. cbn [fst snd] in *.
    rewrite (reflect_subtask_at _ _ _ _ _ _ Hl Hh). cbv zeta.
    destruct (chat_completions_parse_ReflectionResult _ _) as [msg|[r|]];
      intros [= <- <-]; eauto 10.
  - by msimpl.
Qed.

(** The error of a run that fails within its budget of steps. *)
Lemma run_node_error s0 limit c w e w' :
  round_inv s0 c → buffer_inv c w → budget c ≤ limit →
  run limit c w = (Raise e, w') → node_error self e.
Proof.
  revert c w. induction limit as [|limit IH]; intros [n s] w Hround Hinv Hb;
    (destruct (decide (n = n_END)) as [->|Hn]; [by rewrite run_END|]).
  - exfalso. destruct Hround as (_ & Hr & _ & Hnode).
    unfold budget, MAX_CHALLENGE_COUNT in *. cbn [fst snd] in *.
    destruct n; try done; lia.
  - rewrite run_unfold by done.
    destruct (step (n, s) w) as [[c1|e1] w1] eqn:Hstep.
    + intros Hrun. eapply (IH c1 w1); [| | |done].
      * by eapply round_inv_step.
      * by eapply step_transcript.
      * pose proof (budget_step _ _ _ _ _ _ _ _ Hround Hn Hstep). lia.
    + intros [= <- <-]. by eapply step_node_error.
Qed.

End Ledger.

Section Child.
Context {SearchOutput : Type}.
Variable str_results : list SearchOutput → string.
Variable model_dump_json : ReflectionResult → string.
Variable self : HelpDeskAgent SearchOutput.

#[local] Abbreviation run := (subgraph_run str_results model_dump_json self).

Lemma _execute_subgraph_unfold (state : AgentState SearchOutput) w :
  _execute_subgraph str_results model_dump_json self state w =
  match plan state with
  | None => (Raise (KeyError "plan"), w)
  | Some p =>
      match p !! current_step state with
      | None => (Raise (IndexError "list index out of range"), w)
      | Some subtask =>
          match run default_recursion_limit
                  (n_select_tools, subgraph_input (question state) p subtask) w
          with
          | (Raise e, w') => (Raise e, w')
          | (Ok result, w') =>
              match sg_subtask_answer result with
              | None => (Raise (KeyError "subtask_answer"), w')
              | Some answer => (Ok (contribution (subtask_of result answer)), w')
              end
          end
      end
  end.
Proof.
  unfold _execute_subgraph. generalize default_recursion_limit as limit.
  intros limit. destruct (plan state) as [p|]; [|done]. msimpl.
  destruct (p !! current_step state) as [subtask|]; [|done].
  destruct (subgraph_run _ _ _ _ _ _) as [[result|e] w']; [|done].
  by destruct (sg_subtask_answer result).
Qed.

Lemma budget_input question p subtask :
  budget (n_select_tools, subgraph_input (SearchOutput := SearchOutput)
                            question p subtask)
    ≤ default_recursion_limit.
Proof. unfold budget, default_recursion_limit, MAX_CHALLENGE_COUNT. cbn. lia. Qed.

End Child.

Section Audit.
Context {SearchOutput : Type}.
Variable str_results : list SearchOutput → string.
Variable model_dump_json : ReflectionResult → string.
Variable self : HelpDeskAgent SearchOutput.
Hypothesis registry :
  ∀ name t, tool_map self !! name = Some t → tool_name t = name.

#[local] Abbreviation step := (subgraph_step str_results model_dump_json self).
#[local] Abbreviation steps := (subgraph_steps str_results model_dump_json self).
#[local] Abbreviation run := (subgraph_run str_results model_dump_json self).

Lemma served_recorded calls outcomes :
  Forall2 (handled self) calls outcomes →
  tool_invocations (zip_with tool_event calls outcomes)
    = recorded [zip_with tool_record calls outcomes] ∧
  Forall (genuine self) (zip_with tool_record calls outcomes).
Proof using registry.
  unfold recorded. cbn [concat]. rewrite app_nil_r.
  induction 1 as [|c o calls outcomes [Hmap Hinv] _ [IH1 IH2]]; [done|].
  split.
  - cbn. f_equal; [by rewrite (registry _ _ Hmap)|apply IH1].
  - constructor; [|done]. by exists o.1.
Qed.

Lemma recorded_snoc (rounds : list (list (ToolResult SearchOutput))) round :
  recorded (rounds ++ [round]) = recorded rounds ++ recorded [round].
Proof. unfold recorded. by rewrite concat_app, fmap_app. Qed.

Lemma step_recorded n s w c' w' :
  buffer_inv (n, s) w → step (n, s) w = (Ok c', w') →
  ∃ events,
    trace w' = trace w ++ events ∧
    recorded (sg_tool_results c'.2)
      = recorded (sg_tool_results s) ++ tool_invocations events ∧
    (Forall (Forall (genuine self)) (sg_tool_results s) →
     Forall (Forall (genuine self)) (sg_tool_results c'.2)).
Proof using registry.
  intros Hinv Hstep.
  destruct (step_transcript _ _ _ _ _ _ _ _ Hinv Hstep)
    as (_ & _ & added & events & _ & Htrace & Hadds).
  destruct c' as [n' s']. apply step_effect in Hstep as [_ Heff].
  exists events. split; [done|]. cbn [snd] in *.
  destruct n; cbn [step_adds] in Hadds.
  - destruct Hadds as (m & calls & _ & _ & _ & -> & _).
    destruct Heff as (_ & _ & _ & -> & _). cbn. by rewrite app_nil_r.
  - destruct Hadds as (calls & outcomes & _ & Hserved & -> & _ & ->).
    destruct (served_recorded _ _ Hserved) as [-> Hgenuine].
    rewrite recorded_snoc. split; [done|]. intros Hall.
    apply Forall_app. split; [done|]. by constructor.
  - destruct Hadds as (m & _ & -> & _).
    destruct Heff as (_ & _ & _ & -> & _). cbn. by rewrite app_nil_r.
  - destruct Hadds as (r & _ & -> & _).
    destruct Heff as (_ & _ & -> & _). cbn. by rewrite app_nil_r.
  - destruct Hadds as [-> _]. destruct Heff as [_ ->]. cbn.
    by rewrite app_nil_r.
Qed.

Lemma steps_recorded k c w c' w' :
  buffer_inv c w → steps k c w = (Ok c', w') →
  ∃ events,
    trace w' = trace w ++ events ∧
    recorded (sg_tool_results c'.2)
      = recorded (sg_tool_results c.2) ++ tool_invocations events ∧
    (Forall (Forall (genuine self)) (sg_tool_results c.2) →
     Forall (Forall (genuine self)) (sg_tool_results c'.2)).
Proof using registry.
  revert c w. induction k as [|k IH]; intros [n s] w Hinv; cbn [subgraph_steps].
  - msimpl. intros [= <- <-]. exists []. by rewrite !app_nil_r.
  - intros (c1 & w1 & Hstep & Hrest)%bind_Ok_inv.
    destruct (step_recorded _ _ _ _ _ Hinv Hstep) as (ev1 & Ht1 & Hr1 & Hg1).
    assert (buffer_inv c1 w1) as Hinv1 by by eapply step_transcript.
    destruct (IH _ _ Hinv1 Hrest) as (ev2 & Ht2 & Hr2 & Hg2).
    exists (ev1 ++ ev2). rewrite tool_invocations_app. split_and!.
    + by rewrite Ht2, Ht1, app_assoc.
    + by rewrite Hr2, Hr1, app_assoc.
    + intros Hall. by apply Hg2, Hg1.
Qed.

Lemma child_recorded (state : AgentState SearchOutput) w u w' :
  _execute_subgraph str_results model_dump_json self state w = (Ok u, w') →
  ∃ st events,
    u = contribution st ∧
    trace w' = trace w ++ events ∧
    tool_invocations events = recorded (st_tool_results st) ∧
    Forall (Forall (genuine self)) (st_tool_results st).
Proof using registry.
  rewrite _execute_subgraph_unfold.
  destruct (plan state) as [p|]; [|done].
  destruct (p !! current_step state) as [subtask|]; [|done].
  destruct (subgraph_run _ _ _ _ _ _) as [[result|e] w1] eqn:Hrun; [|done].
  destruct (sg_subtask_answer result) as [answer|]; [|done].
  intros [= <- <-].
  apply run_Ok_steps in Hrun as (k & _ & Hsteps).
  apply steps_recorded in Hsteps as (events & Htrace & Hrec & Hgen);
    [|by apply inv_init].
  exists (subtask_of result answer), events. split_and!; try done.
  by apply Hgen.
Qed.

End Audit.

Section ChildProperties.
Context {SearchOutput : Type}.
Variable str_results : list SearchOutput → string.
Variable model_dump_json : ReflectionResult → string.

(** The requests of a child of the fan-out, whatever its outcome. *)
Lemma child_model_calls (self : HelpDeskAgent SearchOutput)
    (state : AgentState SearchOutput) w :
  ∃ events,
    trace (_execute_subgraph str_results model_dump_json self state w).2
      = trace w ++ events ∧
    model_calls events ≤ 3 * Z.to_nat MAX_CHALLENGE_COUNT.
Proof.
  rewrite _execute_subgraph_unfold.
  change (3 * Z.to_nat MAX_CHALLENGE_COUNT) with 9.
  destruct (plan state) as [p|];
    [|exists []; cbn; rewrite app_nil_r; split; [done|lia]].
  destruct (p !! current_step state) as [subtask|];
    [|exists []; cbn; rewrite app_nil_r; split; [done|lia]].
  set (s0 := subgraph_input (question state) p subtask).
  assert (round_inv s0 (n_select_tools, s0)) as Hinv by by apply round_inv_init.
  destruct (run_model_calls str_results model_dump_json self s0
              default_recursion_limit _ w Hinv) as (events & Htrace & Hle & _).
  exists events.
  destruct (subgraph_run _ _ _ _ _ _) as [[result|e] w1];
    cbn [fst snd] in *; [|split; [done|lia]].
  destruct (sg_subtask_answer result); cbn [snd]; (split; [done|lia]).
Qed.

(** X7. A sub-task costs at most three requests per round, nine in all:
    whatever its outcome, [_execute_subgraph] sends at most
    3 * [MAX_CHALLENGE_COUNT] requests to the model, and when it returns a
    [Subtask], it has sent exactly three times its [challenge_count]. *)
Theorem subtask_request_budget (self : HelpDeskAgent SearchOutput)
    (state : AgentState SearchOutput) w :
  ∃ events,
    trace (_execute_subgraph str_results model_dump_json self state w).2
      = trace w ++ events ∧
    model_calls events ≤ 3 * Z.to_nat MAX_CHALLENGE_COUNT ∧
    ∀ u,
      (_execute_subgraph str_results model_dump_json self state w).1 = Ok u →
      ∃ st, u = contribution st ∧
            (1 ≤ st_challenge_count st ≤ MAX_CHALLENGE_COUNT)%Z ∧
            Z.of_nat (model_calls events) = (3 * st_challenge_count st)%Z.
Proof.
  rewrite _execute_subgraph_unfold.
  change (3 * Z.to_nat MAX_CHALLENGE_COUNT) with 9.
  destruct (plan state) as [p|];
    [|exists []; cbn; rewrite app_nil_r; split_and!; [done|lia|done]].
  destruct (p !! current_step state) as [subtask|];
    [|exists []; cbn; rewrite app_nil_r; split_and!; [done|lia|done]].
  set (s0 := subgraph_input (question state) p subtask).
  assert (round_inv s0 (n_select_tools, s0)) as Hinv by by apply round_inv_init.
  destruct (run_model_calls str_results model_dump_json self s0
              default_recursion_limit _ w Hinv) as (events & Htrace & Hle & Hok).
  exists events.
  destruct (subgraph_run _ _ _ _ _ _) as [[result|e] w1] eqn:Hrun;
    cbn [fst snd] in *; [|split_and!; [done|lia|done]].
  specialize (Hok result eq_refl).
  apply run_Ok_inv in Hrun as (_ & Hr & _ & Hone & _); [|done].
  cbn [fst snd] in *.
  destruct (sg_subtask_answer result) as [answer|]; cbn [fst snd];
    (split_and!; [done|lia|]); [|done].
  intros u [= <-]. exists (subtask_of result answer).
  split_and!; cbn; try done; try lia.
  unfold used in Hok. cbn in Hok. lia.
Qed.

(** X10. The errors of a child of the fan-out. When [_execute_subgraph]
    runs on the argument of a [Send] of [_should_continue_exec_subtasks]
    and fails, the error is one of: the error of a request to the model,
    the [ValueError] of a reply without tool calls, the [ValueError] of a
    reflection that is [None], the [KeyError] of a tool call whose name is
    not in the registry, or the error of a handler. The child never fails
    with an [IndexError], a missing state key or the recursion limit of the
    graph engine. *)
Theorem child_errors (self : HelpDeskAgent SearchOutput)
    (state : AgentState SearchOutput) w0 sends w0' c w e w' :
  _should_continue_exec_subtasks state w0 = (Ok sends, w0') →
  c ∈ sends →
  _execute_subgraph str_results model_dump_json self (send_arg c) w
    = (Raise e, w') →
  node_error self e ∧ (∀ msg, e ≠ IndexError msg) ∧ e ≠ GraphRecursionError.
Proof.
  intros Hsends Hc Hrun.
  enough (node_error self e) as Herr.
  { split; [done|]. unfold node_error in Herr.
    split; [intros msg|]; intros ->;
      destruct Herr as [[? [=]]|[[=]|[[=]|[(? & [=] & _)|[? [=]]]]]]. }
  apply _should_continue_exec_subtasks_Ok in Hsends
    as (_ & p & _ & Hlen & Hsends).
  apply list_elem_of_lookup in Hc as [i Hi].
  destruct (Hsends i c Hi) as (_ & Hplan & _ & Hstep).
  assert (is_Some (p !! i)) as [subtask Hsub].
  { apply lookup_lt_is_Some. rewrite <-Hlen. by eapply lookup_lt_Some. }
  rewrite _execute_subgraph_unfold, Hplan, Hstep, Hsub in Hrun.
  set (s0 := subgraph_input (question (send_arg c)) p subtask) in *.
  assert (round_inv s0 (n_select_tools, s0)) as Hround
    by by apply round_inv_init.
  assert (buffer_inv (n_select_tools, s0) w) as Hinv by by apply inv_init.
  destruct (subgraph_run _ _ _ _ _ _) as [[result|e1] w1] eqn:Hloop.
  - apply run_Ok_steps in Hloop as (k & _ & Hsteps).
    apply steps_inv in Hsteps as [_ (l & history & _ & _ & _ & [a Ha])];
      [|done].
    cbn [snd] in Ha. by rewrite Ha in Hrun.
  - injection Hrun as <- <-.
    eapply run_node_error; [done|done| |done]. apply budget_input.
Qed.

(** X11. Every handler invocation of a sub-task is on record. For an agent
    built by [__init__], when [_execute_subgraph] returns a [Subtask], the
    handler invocations of the run are, in order, the entries of its
    [tool_results], round after round: the same handler names and the same
    argument texts. Each entry holds what the registered handler of that
    name returned for that text. *)
Theorem invocations_are_recorded settings (tools : list (Tool SearchOutput))
    prompts client (state : AgentState SearchOutput) w u w' :
  let self := HelpDeskAgent_init settings tools prompts client in
  _execute_subgraph str_results model_dump_json self state w = (Ok u, w') →
  ∃ st events,
    u = contribution st ∧
    trace w' = trace w ++ events ∧
    tool_invocations events = recorded (st_tool_results st) ∧
    Forall (Forall (genuine self)) (st_tool_results st).
Proof.
  cbv zeta. apply child_recorded. intros name t Ht.
  by apply tool_map_init_name in Ht as [_ ?].
Qed.

End ChildProperties.

(** * The nodes and the list object *)

Section Aliasing.
Context {SearchOutput : Type}.
Variable str_results : list SearchOutput → string.
Variable model_dump_json : ReflectionResult → string.
Variable self : HelpDeskAgent SearchOutput.

Lemma execute_tool_calls_objects l calls acc w :
  length (heap (execute_tool_calls str_results self l calls acc w).2)
    = length (heap w).
Proof.
  revert acc w. induction calls as [|c calls IH]; intros acc w;
    cbn [execute_tool_calls]; [done|].
  unfold invoke. msimpl.
  destruct (tool_map self !! _) as [t|]; [|done].
  destruct (tool_invoke t _) as [msg|r]; [done|].
  rewrite IH. cbn. by rewrite length_alter.
Qed.

(** The executor, the answer node and the reflector create no list object
    and hand back the reference they were given. *)
Lemma node_in_place n s w :
  n ≠ n_select_tools →
  length (heap (node_action str_results model_dump_json self n s w).2)
    = length (heap w) ∧
  ∀ u, (node_action str_results model_dump_json self n s w).1 = Ok u →
    n ≠ n_END → u_messages u = sg_messages s.
Proof.
  intros Hn. destruct n; [done| | | |by msimpl]; cbn [node_action].
  - unfold execute_tools. msimpl.
    destruct (sg_messages s) as [l|]; [|done].
    destruct (last (default [] (heap w !! l))) as [final|]; [|done].
    destruct (tool_calls final) as [[calls|]|]; [|done..].
    pose proof (execute_tool_calls_objects l calls [] w) as Hlen.
    destruct (execute_tool_calls _ _ _ _ _ _) as [[results|e] w1];
      cbn [fst snd] in *; split; try done. by intros u [= <-].
  - unfold create_subtask_answer, create. msimpl.
    destruct (sg_messages s) as [l|]; [|done].
    destruct (chat_completions_create _ _) as [e|m]; [done|].
    cbn. rewrite length_alter. split; [done|]. by intros u [= <-].
  - unfold reflect_subtask, parse_ReflectionResult. msimpl.
    destruct (sg_messages s) as [l|]; [|done].
    destruct (chat_completions_parse_ReflectionResult _ _) as [e|[r|]];
      cbn; rewrite ?length_alter; split; try done. by intros u [= <-].
Qed.

(** X4. Which node owns the message list. [select_tools] never changes a
    list object that exists: it builds a new list (a literal in the first
    round, the comprehension of line 244 on a retry), sends it, and returns
    a reference to it; the list of the state it was given is left as it
    was, also when the node fails. The three other nodes create no list
    object: they append to the list of the state and return the reference
    they were given. *)
Theorem select_tools_copies_the_list s w :
  (∀ l history,
     heap w !! l = Some history →
     heap (select_tools self s w).2 !! l = Some history) ∧
  (∀ u, (select_tools self s w).1 = Ok u →
     u_messages u = Some (length (heap w)) ∧
     heap w !! length (heap w) = None ∧
     ∃ calls,
       heap (select_tools self s w).2 !! length (heap w)
         = Some (rq_messages (selector_request self s (buffer s w))
                 ++ [assistant_tool_calls_message calls])) ∧
  (∀ n, n ≠ n_select_tools → n ≠ n_END →
     length (heap (node_action str_results model_dump_json self n s w).2)
       = length (heap w) ∧
     ∀ u, (node_action str_results model_dump_json self n s w).1 = Ok u →
       u_messages u = sg_messages s).
Proof.
  split_and!.
  - intros l history Hl. rewrite select_tools_unfold. cbv zeta.
    destruct (_ && _); [done|].
    destruct (chat_completions_create _ _) as [e|m];
      [|destruct (cm_tool_calls m)]; cbn [snd heap];
      by apply lookup_app_l_Some.
  - intros u. rewrite select_tools_unfold. cbv zeta.
    destruct (_ && _); [done|].
    destruct (chat_completions_create _ _) as [e|m]; [done|].
    destruct (cm_tool_calls m) as [calls|]; [|done].
    cbn [fst snd heap]. intros [= <-]. split_and!; [done| |].
    + by apply lookup_ge_None.
    + exists calls. apply heap_snoc_lookup.
  - intros n Hn Hend.
    destruct (node_in_place n s w Hn) as [Hlen Hsame]. split; [done|].
    intros u Hu. by apply Hsame.
Qed.

End Aliasing.

(** * The executor and the reflector at their edges *)

Section Edges.
Context {SearchOutput : Type}.
Variable str_results : list SearchOutput → string.
Variable model_dump_json : ReflectionResult → string.
Variable self : HelpDeskAgent SearchOutput.

(** X2. [execute_tools] checks its input before it dispatches anything.
    Unless the last message of the list of the state carries a list of tool
    calls, the node raises and leaves the heap and the trace as they were:
    [KeyError] when the state has no message list, [IndexError] when the
    list is empty, [KeyError] when the last message has no [tool_calls]
    key, [ValueError] when the value of that key is [None]. *)
Theorem execute_tools_rejects state w :
  (∀ final calls,
     is_Some (sg_messages state) →
     last (buffer state w) = Some final →
     tool_calls final ≠ Some (Some calls)) →
  execute_tools str_results self state w =
  (Raise match sg_messages state with
         | None => KeyError "messages"
         | Some _ =>
             match last (buffer state w) with
             | None => IndexError "list index out of range"
             | Some final =>
                 match tool_calls final with
                 | None => KeyError "tool_calls"
                 | Some _ => ValueError "ツール呼び出しがNullです"
                 end
             end
         end, w).
Proof.
  intros Hno. unfold execute_tools, buffer in *. msimpl.
  destruct (sg_messages state) as [l|]; [|done].
  destruct (last (default [] (heap w !! l))) as [final|]; [|done].
  destruct (tool_calls final) as [[calls|]|] eqn:Hcalls; [|done..].
  by destruct (Hno final calls).
Qed.

(** X3. [execute_tools] when every call is served: the node goes through
    the tool calls of the last message in order, hands each to the handler
    registered under its name, and returns one round of [tool_results] with
    one [ToolResult] per call, in the order of the calls, under the name
    and the argument text of the call. The list object of the state has
    grown by one role=tool message per call, in the same order, each with
    the id of its call and the printed results of its handler; no other
    list object has changed, and the node returns the reference it was
    given. *)
Theorem execute_tools_serves_in_order state w l history final calls outcomes :
  sg_messages state = Some l →
  heap w !! l = Some history →
  last history = Some final →
  tool_calls final = Some (Some calls) →
  Forall2 (handled self) calls outcomes →
  ∃ u w' round replies,
    execute_tools str_results self state w = (Ok u, w') ∧
    u_messages u = Some l ∧
    u_tool_results u = Some [round] ∧
    Forall2 (λ c r, tr_tool_name r = fn_name (tc_function c) ∧
                    tr_args r = fn_arguments (tc_function c)) calls round ∧
    Forall2 (λ o r, tr_results r = o.2) outcomes round ∧
    heap w' = <[l := history ++ replies]> (heap w) ∧
    Forall2 (λ c m, role m = tool ∧ tool_call_id m = Some (tc_id c))
      calls replies ∧
    Forall2 (λ o m, content m = Some (Some (str_results o.2)))
      outcomes replies ∧
    trace w' = trace w ++ zip_with tool_event calls outcomes.
Proof.
  intros Hmsg Hl Hlast Hcalls Hserved.
  rewrite (execute_tools_served str_results self state w l history final
             calls outcomes Hmsg Hl Hlast Hcalls Hserved).
  eexists _, _, _, _. split; [done|]. cbn [u_messages u_tool_results heap trace].
  split_and!; try done; clear -Hserved;
    induction Hserved; cbn; by constructor.
Qed.

(** X5. A failure of the reflector leaves its prompt behind. The reflector
    appends the reflection prompt to the list of the state before it calls
    the model (line 448): when the call fails, or the reply holds no parsed
    reflection, the node raises and the list has grown by that prompt. The
    answer node appends only after the reply: when it fails, no list object
    has changed. *)
Theorem reflect_subtask_leaves_its_prompt s w l history e w' :
  sg_messages s = Some l →
  heap w !! l = Some history →
  reflect_subtask model_dump_json self s w = (Raise e, w') →
  heap w' =
    <[l := history
           ++ [user_message (subtask_reflection_user_prompt (prompts self))]]>
      (heap w) ∧
  buffer s w' =
    history ++ [user_message (subtask_reflection_user_prompt (prompts self))] ∧
  trace w' = trace w ++ [ModelCall (reflection_request self history)] ∧
  ((∃ msg, e = APIError msg) ∨ e = ValueError "内省結果がNullです") ∧
  (∀ e1, (create_subtask_answer self s w).1 = Raise e1 →
         heap (create_subtask_answer self s w).2 = heap w).
Proof.
  intros Hl Hh. rewrite (reflect_subtask_at _ _ _ _ _ _ Hl Hh). cbv zeta.
  assert (l < length (heap w)) as Hlt by by eapply lookup_lt_Some.
  intros Hfail.
  assert (w' = {| heap := <[l := rq_messages (reflection_request self history)]>
                            (heap w);
                  trace := trace w
                           ++ [ModelCall (reflection_request self history)] |}
          ∧ ((∃ msg, e = APIError msg) ∨ e = ValueError "内省結果がNullです"))
    as [-> He].
  { destruct (chat_completions_parse_ReflectionResult _ _) as [msg|[r|]];
      [|done|]; injection Hfail as <- <-; eauto. }
  split_and!; [done| |done|done|].
  - unfold buffer. rewrite Hl. cbn [heap].
    by rewrite list_lookup_insert_eq.
  - intros e1. rewrite (create_subtask_answer_at _ _ _ _ _ Hl Hh). cbv zeta.
    by destruct (chat_completions_create _ _).
Qed.

End Edges.

(** * The first and the last request of a run *)

Section Ends.
Context {SearchOutput : Type}.
Variable str_results : list SearchOutput → string.
Variable model_dump_json : ReflectionResult → string.
Variable self : HelpDeskAgent SearchOutput.

Lemma create_plan_at (state : AgentState SearchOutput) w :
  create_plan self state w =
  let rq := plan_request self (question state) in
  let asked := {| heap := heap w; trace := trace w ++ [ModelCall rq] |} in
  match chat_completions_parse_Plan (client self) rq with
  | inl e => (Raise (APIError e), asked)
  | inr None => (Raise (AttributeError "subtasks"), asked)
  | inr (Some p) =>
      (Ok {| up_plan := Some (subtasks p); up_subtask_results := None;
             up_last_answer := None |}, asked)
  end.
Proof.
  unfold create_plan, parse_Plan, plan_request. msimpl.
  by destruct (chat_completions_parse_Plan _ _) as [e|[p|]].
Qed.

Lemma create_answer_at (state : AgentState SearchOutput) w :
  create_answer self state w =
  match plan state with
  | None => (Raise (KeyError "plan"), w)
  | Some p =>
      let rq := last_answer_request self (question state) p
                  (subtask_results state) in
      let asked := {| heap := heap w; trace := trace w ++ [ModelCall rq] |} in
      match chat_completions_create (client self) rq with
      | inl e => (Raise (APIError e), asked)
      | inr m =>
          (Ok {| up_plan := None; up_subtask_results := None;
                 up_last_answer := Some (cm_content m) |}, asked)
      end
  end.
Proof.
  unfold create_answer, create, last_answer_request. msimpl.
  destruct (plan state) as [p|]; [|done].
  by destruct (chat_completions_create _ _) as [e|m].
Qed.

Lemma question_foldl (state : AgentState SearchOutput) updates :
  question (foldl apply_agent_update state updates) = question state.
Proof.
  revert state. induction updates as [|u updates IH]; intros state; [done|].
  cbn. by rewrite IH.
Qed.

(** X8. A planner reply without a parsed plan is not checked. When the
    reply to the planner's request holds no parsed [Plan], [create_plan]
    reads [subtasks] of [None]: [run_agent] fails with [AttributeError]
    after this one request, before any sub-task is started. *)
Theorem run_agent_without_plan order q w :
  chat_completions_parse_Plan (client self) (plan_request self q)
    = inr None →
  run_agent str_results model_dump_json self order q w =
  (Raise (AttributeError "subtasks"),
   {| heap := heap w;
      trace := trace w ++ [ModelCall (plan_request self q)] |}).
Proof.
  intros Hreply. unfold run_agent, graph_invoke.
  change (main_node str_results model_dump_json self "create_plan")
    with (create_plan self).
  rewrite !bind_unfold, create_plan_at. cbv zeta. cbn [question].
  by rewrite Hreply.
Qed.

(** X9. The answer of a run is the reply to a request built from the
    sub-tasks the run returns. Whenever [run_agent] returns a result, the
    first request of the run was the planner's request for the question,
    the last one was the request of [create_answer], and that request
    consists of the system prompt and the user prompt formatted with the
    question, the plan of the result and, for each sub-task of the result
    in order, its name and its answer; the answer of the result is the
    content of the reply to this request. *)
Theorem answer_is_built_from_subtasks order q w result w' :
  run_agent str_results model_dump_json self order q w
    = (Ok result, w') →
  ∃ events reply,
    let rq := last_answer_request self q
                (subtasks (ar_plan result)) (ar_subtasks result) in
    trace w' =
      trace w ++ [ModelCall (plan_request self q)] ++ events
              ++ [ModelCall rq] ∧
    chat_completions_create (client self) rq = inr reply ∧
    ar_answer result = cm_content reply ∧
    ar_question result = q.
Proof.
  unfold run_agent. intros (final & w1 & Hinvoke & Hrest)%bind_Ok_inv.
  destruct (plan final) as [p|] eqn:Hp; [|done]. msimpl.
  destruct (last_answer final) as [a|] eqn:Ha; [|done].
  injection Hrest as <- <-. cbn [ar_plan ar_subtasks ar_answer ar_question].
  unfold graph_invoke in Hinvoke.
  change (main_node str_results model_dump_json self "create_plan")
    with (create_plan self) in Hinvoke.
  change (main_node str_results model_dump_json self "create_answer")
    with (create_answer self) in Hinvoke.
  apply bind_Ok_inv in Hinvoke as (u & w2 & Hplan & Hrest).
  rewrite create_plan_at in Hplan. cbv zeta in Hplan. cbn [question] in Hplan.
  destruct (chat_completions_parse_Plan _ _) as [e|[p0|]]; try done.
  injection Hplan as <- <-.
  apply bind_Ok_inv in Hrest as (sends & w3 & Hsends & Hrest).
  apply _should_continue_exec_subtasks_Ok in Hsends as (-> & _).
  destruct sends as [|c0 sends0] eqn:Hs.
  { injection Hrest as <- <-. done. }
  rewrite <-Hs in *. clear Hs c0 sends0.
  apply bind_Ok_inv in Hrest as (writes & w4 & Hwrites & Hrest).
  apply bind_Ok_inv in Hrest as (u & w5 & Hanswer & [= <- <-]).
  apply run_children_emits in Hwrites as (events & Htrace & _).
  set (state1 := apply_agent_update _ _) in *.
  assert (question (join state1 writes) = q) as Hq.
  { unfold join. by rewrite question_foldl. }
  rewrite create_answer_at, Hq in Hanswer.
  destruct (plan (join _ writes)) as [p1|] eqn:Hp1; [|done].
  cbv zeta in Hanswer.
  destruct (chat_completions_create _ _) as [e|m] eqn:Hreply; [done|].
  injection Hanswer as <- <-.
  cbn [apply_agent_update plan up_plan last_answer up_last_answer
       subtask_results up_subtask_results] in *.
  rewrite Hp1 in Hp. injection Hp as <-. injection Ha as <-.
  cbn [default from_option id]. rewrite app_nil_r.
  exists events, m. cbv zeta. split_and!; try done.
  cbn [trace]. rewrite Htrace. cbn [trace]. by rewrite <-!app_assoc.
Qed.

Lemma children_model_calls sends order w :
  Forall (λ c, send_node c = "execute_subtasks") sends →
  ∃ events,
    trace (run_children str_results model_dump_json self sends order w).2
      = trace w ++ events ∧
    model_calls events ≤ 3 * Z.to_nat MAX_CHALLENGE_COUNT * length order.
Proof.
  intros Hsends. change (3 * Z.to_nat MAX_CHALLENGE_COUNT) with 9.
  revert w. induction order as [|i order IH]; intros w; cbn [run_children].
  { exists []. msimpl. rewrite app_nil_r. split; [done|cbn; lia]. }
  destruct (sends !! i) as [c|] eqn:Hc.
  2:{ destruct (IH w) as (events & Htrace & Hle). exists events.
      split; [done|]. cbn [length]. lia. }
  rewrite bind_unfold.
  assert (main_node str_results model_dump_json self (send_node c)
          = _execute_subgraph str_results model_dump_json self) as ->.
  { eapply Forall_lookup_1 in Hsends; [|done]. by rewrite Hsends. }
  destruct (child_model_calls str_results model_dump_json self (send_arg c) w)
    as (events1 & Htrace1 & Hle1).
  change (3 * Z.to_nat MAX_CHALLENGE_COUNT) with 9 in Hle1.
  destruct (_execute_subgraph _ _ _ _ _) as [[u|e] w1]; cbn [fst snd] in *.
  - rewrite bind_unfold. destruct (IH w1) as (events & Htrace & Hle).
    exists (events1 ++ events). rewrite model_calls_app.
    destruct (run_children _ _ _ _ _ _) as [[writes|e] w2];
      cbn [fst snd] in *; msimpl;
      (split; [by rewrite Htrace, Htrace1, app_assoc|cbn [length]; lia]).
  - exists events1. split; [done|]. cbn [length]. lia.
Qed.

(** The requests of [app.invoke], whatever its outcome. *)
Lemma graph_invoke_model_calls order input w :
  ∃ events,
    trace (graph_invoke str_results model_dump_json self order input w).2
      = trace w ++ events ∧
    model_calls events ≤ 2 + 3 * Z.to_nat MAX_CHALLENGE_COUNT * length order ∧
    head events = Some (ModelCall (plan_request self (question input))).
Proof.
  unfold graph_invoke.
  change (3 * Z.to_nat MAX_CHALLENGE_COUNT) with 9.
  change (main_node str_results model_dump_json self "create_plan")
    with (create_plan self).
  change (main_node str_results model_dump_json self "create_answer")
    with (create_answer self).
  rewrite bind_unfold, create_plan_at. cbv zeta.
  destruct (chat_completions_parse_Plan _ _) as [e|[p|]];
    [eexists [_]; rewrite model_calls_cons; split_and!; [done|cbn; lia|done]|
    |eexists [_]; rewrite model_calls_cons; split_and!; [done|cbn; lia|done]].
  rewrite bind_unfold.
  destruct (_should_continue_exec_subtasks _ _) as [[sends|e] w1] eqn:Hsends.
  2:{ unfold _should_continue_exec_subtasks in Hsends. by msimpl. }
  apply _should_continue_exec_subtasks_Ok in Hsends
    as (-> & p' & _ & _ & Hsends).
  destruct sends as [|c0 sends0] eqn:Hs.
  { eexists [_]. msimpl. rewrite model_calls_cons.
    split_and!; [done|cbn; lia|done]. }
  rewrite <-Hs in *. clear Hs c0 sends0.
  rewrite bind_unfold.
  destruct (children_model_calls sends order
              {| heap := heap w;
                 trace := trace w ++ [ModelCall (plan_request self (question input))] |})
    as (events & Htrace & Hle).
  { apply Forall_lookup_2. intros i c Hc. by destruct (Hsends i c Hc). }
  change (3 * Z.to_nat MAX_CHALLENGE_COUNT) with 9 in Hle.
  destruct (run_children _ _ _ _ _ _) as [[writes|e] w2];
    cbn [fst snd trace] in *.
  2:{ exists (ModelCall (plan_request self (question input)) :: events).
      rewrite model_calls_cons.
      split_and!; [by rewrite Htrace, <-app_assoc|lia|done]. }
  rewrite bind_unfold, create_answer_at.
  set (state2 := join _ writes).
  destruct (plan state2) as [p0|].
  2:{ exists (ModelCall (plan_request self (question input)) :: events).
      rewrite model_calls_cons. cbn [snd].
      split_and!; [by rewrite Htrace, <-app_assoc|lia|done]. }
  cbv zeta.
  exists (ModelCall (plan_request self (question input))
          :: events
          ++ [ModelCall (last_answer_request self (question state2) p0
                           (subtask_results state2))]).
  rewrite model_calls_cons, model_calls_app, model_calls_cons.
  destruct (chat_completions_create _ _) as [e|m]; msimpl;
    (split_and!; [by rewrite Htrace, <-!app_assoc|cbn; lia|done]).
Qed.

(** X21. The requests of a whole run. Whatever its outcome, [run_agent]
    sends at most two requests of its own (the plan and the last answer)
    and at most 3 * [MAX_CHALLENGE_COUNT] for each child of the fan-out
    that runs; when every sub-task of the plan is executed once, that is at
    most 2 + 9 * the length of the plan. The first request, if any, is the
    planner's. *)
Theorem run_request_budget order q w :
  let outcome := run_agent str_results model_dump_json self order q w in
  ∃ events,
    trace outcome.2 = trace w ++ events ∧
    model_calls events ≤ 2 + 3 * Z.to_nat MAX_CHALLENGE_COUNT * length order ∧
    head events = Some (ModelCall (plan_request self q)) ∧
    ∀ result,
      outcome.1 = Ok result →
      order ≡ₚ seq 0 (length (subtasks (ar_plan result))) →
      model_calls events
        ≤ 2 + 3 * Z.to_nat MAX_CHALLENGE_COUNT
              * length (subtasks (ar_plan result)).
Proof.
  cbv zeta. unfold run_agent. rewrite bind_unfold.
  destruct (graph_invoke_model_calls order
              {| question := q; plan := None; current_step := 0;
                 subtask_results := []; last_answer := None |} w)
    as (events & Htrace & Hle & Hhead).
  exists events.
  assert (∀ result : AgentResult SearchOutput,
            order ≡ₚ seq 0 (length (subtasks (ar_plan result))) →
            model_calls events
              ≤ 2 + 3 * Z.to_nat MAX_CHALLENGE_COUNT
                    * length (subtasks (ar_plan result))) as Hperm.
  { intros result Hperm. apply Permutation_length in Hperm.
    rewrite length_seq in Hperm. by rewrite <-Hperm. }
  assert (∀ r : Result (AgentResult SearchOutput) * World,
            trace r.2 = trace w ++ events →
            trace r.2 = trace w ++ events ∧
            model_calls events
              ≤ 2 + 3 * Z.to_nat MAX_CHALLENGE_COUNT * length order ∧
            head events = Some (ModelCall (plan_request self q)) ∧
            ∀ result, r.1 = Ok result →
              order ≡ₚ seq 0 (length (subtasks (ar_plan result))) →
              model_calls events
                ≤ 2 + 3 * Z.to_nat MAX_CHALLENGE_COUNT
                      * length (subtasks (ar_plan result))) as Hall.
  { intros r Hr. split_and!; [done|done|done|]. intros result _. apply Hperm. }
  apply Hall.
  destruct (graph_invoke _ _ _ _ _ _) as [[final|e] w1]; cbn [fst snd] in *;
    [|done].
  msimpl. destruct (plan final) as [p|]; [|done].
  by destruct (last_answer final) as [a|].
Qed.

End Ends.

(** * The index scripts *)

(** Unfolds the monad of the scripts and its primitive operations. *)
Ltac ssimpl :=
  repeat progress
    (unfold mbind, mret, Scripts.Script_bind, Scripts.Script_ret,
       Scripts.fail, Scripts.print, Scripts.record, Scripts.reply,
       Scripts.indices_exists, Scripts.indices_create, Scripts.indices_delete,
       Scripts.collection_exists, Scripts.create_collection,
       Scripts.delete_collection in *;
     cbn [fst snd Scripts.indices Scripts.collections Scripts.stdout
          Scripts.sent] in *).

Section Lifecycle.
Import Scripts.
Context {Vector : Type}.
Implicit Types m : Machine Vector.

Lemma script_bind_unfold {A B} (s : Script Vector A) (k : A → Script Vector B) m :
  (s ≫= k) m =
  match s m with
  | (Ok a, m') => k a m'
  | (Raise e, m') => (Raise e, m')
  end.
Proof. reflexivity. Qed.

Lemma delete_es_index_unfold index_name m :
  delete_es_index index_name m =
  (Ok (),
   {| indices := delete index_name (indices m);
      collections := collections m;
      stdout :=
        stdout m
        ++ [if bool_decide (is_Some (indices m !! index_name))
            then "インデックス '" +:+ index_name +:+ "' を削除しました"
            else "インデックス '" +:+ index_name +:+ "' は存在しません"];
      sent := sent m |}).
Proof.
  unfold delete_es_index. ssimpl.
  destruct (indices m !! index_name) as [body|] eqn:Hi.
  - rewrite bool_decide_true by done. ssimpl. by rewrite Hi.
  - rewrite bool_decide_false by by intros [? ?].
    ssimpl. by rewrite delete_id.
Qed.

Lemma delete_qdrant_index_unfold collection_name m :
  delete_qdrant_index collection_name m =
  (Ok (),
   {| indices := indices m;
      collections :=
        if bool_decide (is_Some (collections m !! collection_name))
        then delete "documents" (collections m)
        else collections m;
      stdout :=
        stdout m
        ++ [if bool_decide (is_Some (collections m !! collection_name))
            then "コレクション '" +:+ collection_name +:+ "' を削除しました"
            else "コレクション '" +:+ collection_name +:+ "' は存在しません"];
      sent := sent m |}).
Proof.
  unfold delete_qdrant_index. ssimpl. by case_bool_decide.
Qed.

(** X13. [delete_es_index] removes the index of the given name and no other,
    and it can be called when there is no such index: the deletion is
    guarded by [exists], so the function never fails on a missing index.
    The collections of Qdrant are not touched. The line printed says which
    of the two cases it was. A second call finds the index gone and changes
    no index. *)
Theorem delete_es_index_removes_the_index index_name m :
  let after := (delete_es_index index_name m).2 in
  (delete_es_index index_name m).1 = Ok () ∧
  indices after !! index_name = None ∧
  (∀ other, other ≠ index_name → indices after !! other = indices m !! other) ∧
  collections after = collections m ∧
  stdout after =
    stdout m
    ++ [if bool_decide (is_Some (indices m !! index_name))
        then "インデックス '" +:+ index_name +:+ "' を削除しました"
        else "インデックス '" +:+ index_name +:+ "' は存在しません"] ∧
  (delete_es_index index_name after).1 = Ok () ∧
  indices (delete_es_index index_name after).2 = indices after.
Proof.
  cbv zeta. rewrite !delete_es_index_unfold. cbn [fst snd indices collections stdout].
  split_and!; try done.
  - apply lookup_delete_eq.
  - intros other Hne. by apply lookup_delete_ne.
  - by rewrite delete_delete_eq.
Qed.

(** X14. [delete_qdrant_index] checks the collection of the given name and
    then deletes the collection "documents". Given the name of another
    collection that exists, it leaves that collection in place, removes
    "documents", and prints that the named collection was deleted. Given
    the name of a collection that does not exist, it deletes nothing, also
    when "documents" exists. *)
Theorem delete_qdrant_index_deletes_documents collection_name m :
  collection_name ≠ "documents" →
  let after := (delete_qdrant_index collection_name m).2 in
  (delete_qdrant_index collection_name m).1 = Ok () ∧
  (is_Some (collections m !! collection_name) →
     is_Some (collections after !! collection_name) ∧
     collections after = delete "documents" (collections m) ∧
     last (stdout after)
       = Some ("コレクション '" +:+ collection_name +:+ "' を削除しました")) ∧
  (collections m !! collection_name = None →
     collections after = collections m ∧
     last (stdout after)
       = Some ("コレクション '" +:+ collection_name +:+ "' は存在しません")).
Proof.
  intros Hne. cbv zeta. rewrite delete_qdrant_index_unfold.
  cbn [fst snd collections stdout]. split_and!; [done| |].
  - intros Hsome. rewrite bool_decide_true by done.
    split_and!; [|done|by rewrite last_snoc].
    by rewrite lookup_delete_ne.
  - intros Hnone. rewrite bool_decide_false by (rewrite Hnone; by intros [? ?]).
    by rewrite last_snoc.
Qed.

(** X15. The script delete_index.py as a whole: whatever the servers hold,
    it ends without an error, and afterwards neither an index nor a
    collection called "documents" exists, while every index and collection
    of another name is as before. Run again, it changes nothing and prints
    that the index and the collection do not exist. *)
Theorem delete_index_main_clears_documents m :
  let after := (delete_index_main m).2 in
  (delete_index_main m).1 = Ok () ∧
  indices after = delete "documents" (indices m) ∧
  collections after = delete "documents" (collections m) ∧
  sent after = sent m ∧
  (delete_index_main after).1 = Ok () ∧
  indices (delete_index_main after).2 = indices after ∧
  collections (delete_index_main after).2 = collections after ∧
  stdout (delete_index_main after).2 =
    stdout after ++ ["インデックス 'documents' は存在しません";
                     "コレクション 'documents' は存在しません"].
Proof.
  assert (∀ m0, delete_index_main m0 =
    (Ok (),
     {| indices := delete "documents" (indices m0);
        collections := delete "documents" (collections m0);
        stdout :=
          stdout m0
          ++ [if bool_decide (is_Some (indices m0 !! "documents"))
              then "インデックス 'documents' を削除しました"
              else "インデックス 'documents' は存在しません";
              if bool_decide (is_Some (collections m0 !! "documents"))
              then "コレクション 'documents' を削除しました"
              else "コレクション 'documents' は存在しません"];
        sent := sent m0 |})) as Hmain.
  { intros m0. unfold delete_index_main. cbv zeta.
    rewrite script_bind_unfold, delete_es_index_unfold,
      delete_qdrant_index_unfold.
    cbn [indices collections stdout sent].
    replace (if bool_decide (is_Some (collections m0 !! "documents"))
             then delete "documents" (collections m0) else collections m0)
      with (delete "documents" (collections m0)).
    { by rewrite <-app_assoc. }
    case_bool_decide as Hc; [done|]. rewrite delete_id; [done|].
    destruct (collections m0 !! "documents") eqn:Hd; [|done].
    by destruct Hc. }
  cbv zeta. rewrite !Hmain. cbn [fst snd indices collections stdout sent].
  rewrite !delete_delete_eq, !lookup_delete_eq.
  by split_and!.
Qed.

(** X16. [create_keyword_search_index] creates the index only when it does
    not exist. An index that exists is left as it is, with the settings it
    was created with, and nothing is printed: the function never fails on
    an index that is already there. Otherwise the index is created with the
    kuromoji mapping of the script. Either way no other index changes, and
    a second call changes nothing. *)
Theorem create_keyword_search_index_keeps_an_existing_index index_name m :
  let after := (create_keyword_search_index index_name m).2 in
  (create_keyword_search_index index_name m).1 = Ok () ∧
  indices after !! index_name
    = Some (default mapping (indices m !! index_name)) ∧
  (∀ other, other ≠ index_name → indices after !! other = indices m !! other) ∧
  (is_Some (indices m !! index_name) → after = m) ∧
  (indices m !! index_name = None →
   stdout after
     = stdout m ++ ["インデックス " +:+ index_name +:+ " を正常に作成しました"]) ∧
  create_keyword_search_index index_name after = (Ok (), after).
Proof.
  assert (∀ m0, is_Some (indices m0 !! index_name) →
            create_keyword_search_index index_name m0 = (Ok (), m0)) as Hskip.
  { intros m0 Hsome. unfold create_keyword_search_index. ssimpl.
    by rewrite bool_decide_true. }
  cbv zeta. destruct (indices m !! index_name) as [body|] eqn:Hi.
  - rewrite !Hskip by (rewrite ?Hi; done). cbn [fst snd default from_option id].
    by split_and!.
  - assert (create_keyword_search_index index_name m =
      (Ok (), {| indices := <[index_name := mapping]> (indices m);
                 collections := collections m;
                 stdout := stdout m ++ ["インデックス " +:+ index_name
                                        +:+ " を正常に作成しました"];
                 sent := sent m |})) as ->.
    { unfold create_keyword_search_index. ssimpl.
      rewrite bool_decide_false by (rewrite Hi; by intros [? ?]).
      cbn [negb]. by rewrite Hi. }
    cbn [fst snd indices stdout].
    split_and!; try done; try (by intros [? ?]).
    + by rewrite lookup_insert_eq.
    + intros other Hne. by rewrite lookup_insert_ne.
    + apply Hskip. cbn [indices]. by rewrite lookup_insert_eq.
Qed.

End Lifecycle.

(** * The documents of the indices *)

Section Strings.
Import Scripts.

Lemma has_sep_basename p : has_sep (basename p) = false.
Proof.
  induction p as [|c rest IH]; [done|]. cbn [basename].
  destruct (has_sep rest) eqn:Hrest; [done|].
  destruct (Ascii.eqb c "/") eqn:Hc; [done|].
  cbn [has_sep]. by rewrite Hc, Hrest.
Qed.

Lemma basename_app dir name :
  has_sep name = false → basename (dir +:+ "/" +:+ name) = name.
Proof.
  intros Hname. induction dir as [|c dir IH].
  - change (basename (String "/" name) = name). cbn [basename].
    by rewrite Hname.
  - change (basename (String c (dir +:+ "/" +:+ name)) = name).
    cbn [basename]. rewrite IH.
    assert (has_sep (dir +:+ "/" +:+ name) = true) as ->; [|done].
    clear. induction dir as [|c dir IH]; [done|].
    change (has_sep (String c (dir +:+ "/" +:+ name)) = true).
    cbn [has_sep]. rewrite IH. by destruct (Ascii.eqb c "/").
Qed.

Lemma has_space_remove_spaces s : has_space (remove_spaces s) = false.
Proof.
  induction s as [|c rest IH]; [done|]. cbn [remove_spaces].
  destruct (Ascii.eqb c " ") eqn:Hc; [done|].
  cbn [has_space]. by rewrite Hc, IH.
Qed.

End Strings.

Section Documents.
Import Scripts.
Context {Vector ScoredPoint SearchOutput : Type}.
Variable services : Services Vector ScoredPoint SearchOutput.
Implicit Types m : Machine Vector.

Lemma es_actions_served index_name docs paths acc m :
  Forall2 (λ doc path, metadata doc !! "source" = Some path) docs paths →
  es_actions (Vector := Vector) index_name docs acc m
    = (Ok (acc ++ zip_with (es_action index_name) docs paths), m).
Proof.
  intros Hall. revert acc.
  induction Hall as [|doc path docs paths Hsrc _ IH]; intros acc.
  - cbn. by rewrite app_nil_r.
  - cbn [es_actions zip_with]. unfold source_of. rewrite Hsrc. ssimpl.
    rewrite IH. by rewrite <-app_assoc.
Qed.

Lemma es_actions_missing index_name docs acc m :
  ¬ Forall (λ doc, is_Some (metadata doc !! "source")) docs →
  es_actions (Vector := Vector) index_name docs acc m
    = (Raise (KeyError "source"), m).
Proof.
  revert acc. induction docs as [|doc docs IH]; intros acc Hnot.
  - destruct Hnot. constructor.
  - cbn [es_actions]. unfold source_of.
    destruct (metadata doc !! "source") as [path|] eqn:Hsrc; [|done].
    ssimpl. apply IH. intros Hall. apply Hnot. by constructor.
Qed.

(** X17. [add_documents_to_es] sends the documents in one bulk request.
    When every document has a source, the request holds one action per
    document, in the order of the documents, each for the given index, with
    the text of the document as content and the last component of the path
    of its source as file name (a name without a slash). When a document
    has no source, the function raises [KeyError] before it sends anything:
    no document is indexed, also none of those before it in the list. *)
Theorem add_documents_to_es_is_one_bulk_request index_name docs m :
  (∀ paths,
     Forall2 (λ doc path, metadata doc !! "source" = Some path) docs paths →
     ∃ actions,
       sent (add_documents_to_es services index_name docs m).2
         = sent m ++ [Bulk actions] ∧
       Forall2 (λ doc action,
                  _index action = index_name ∧
                  content (_source action) = page_content doc ∧
                  has_sep (file_name (_source action)) = false ∧
                  ∃ path, metadata doc !! "source" = Some path ∧
                          file_name (_source action) = basename path)
         docs actions ∧
       (add_documents_to_es services index_name docs m).1 =
         match helpers_bulk services actions with
         | inr _ => Ok ()
         | inl msg => Raise (APIError msg)
         end) ∧
  (¬ Forall (λ doc, is_Some (metadata doc !! "source")) docs →
   add_documents_to_es services index_name docs m
     = (Raise (KeyError "source"), m)).
Proof.
  unfold add_documents_to_es. split.
  - intros paths Hall. rewrite script_bind_unfold.
    rewrite (es_actions_served _ _ _ _ _ Hall). cbn [app].
    exists (zip_with (es_action index_name) docs paths). ssimpl.
    split_and!.
    + by destruct (helpers_bulk _ _) as [msg|[]].
    + clear -Hall. induction Hall; cbn; constructor; [|done].
      split_and!; [done|done|apply has_sep_basename|by eexists].
    + by destruct (helpers_bulk _ _) as [msg|[]].
  - intros Hnot. rewrite script_bind_unfold.
    by rewrite (es_actions_missing _ _ _ _ Hnot).
Qed.

Lemma qdrant_points_prefix client i docs vps rest acc m :
  Forall2 (embeds services client) docs vps →
  qdrant_points services client i (docs ++ rest) acc m
    = qdrant_points services client (i + length docs) rest
        (acc ++ points_from i docs vps)
        {| indices := indices m; collections := collections m;
           stdout := stdout m;
           sent := sent m ++ (embedding_call client <$> docs) |}.
Proof.
  intros Hall. revert i acc m.
  induction Hall as [|doc vp docs vps [[more Hreply] Hsrc] _ IH];
    intros i acc m.
  - cbn. rewrite !app_nil_r, Nat.add_0_r. by destruct m.
  - cbn [app qdrant_points points_from fmap list_fmap length].
    unfold source_of.
    ssimpl. rewrite Hreply. unfold first_embedding. ssimpl.
    rewrite Hsrc. ssimpl. rewrite IH. cbn [sent indices collections stdout].
    rewrite <-!app_assoc. by replace (S i + length docs) with (i + S (length docs)) by lia.
Qed.

Lemma qdrant_points_served client i docs vps acc m :
  Forall2 (embeds services client) docs vps →
  qdrant_points services client i docs acc m
    = (Ok (acc ++ points_from i docs vps),
       {| indices := indices m; collections := collections m;
          stdout := stdout m;
          sent := sent m ++ (embedding_call client <$> docs) |}).
Proof.
  intros Hall.
  pose proof (qdrant_points_prefix client i docs vps [] acc m Hall) as Hrun.
  rewrite app_nil_r in Hrun. by rewrite Hrun.
Qed.

Lemma qdrant_points_failed client i doc rest acc m e :
  cannot_embed services client doc e →
  qdrant_points services client i (doc :: rest) acc m
    = (Raise e,
       {| indices := indices m; collections := collections m;
          stdout := stdout m;
          sent := sent m ++ [embedding_call client doc] |}).
Proof.
  unfold cannot_embed. cbv zeta. cbn [qdrant_points]. unfold source_of.
  intros [(msg & Hreply & ->)|[[Hreply ->]|(v & more & Hreply & Hsrc & ->)]];
    ssimpl; rewrite Hreply; unfold first_embedding; ssimpl; [done|done|].
  by rewrite Hsrc.
Qed.

Lemma ids_points_from i docs (vps : list (Vector * string)) :
  length docs = length vps →
  id <$> points_from i docs vps = seq i (length docs).
Proof.
  revert i vps. induction docs as [|doc docs IH]; intros i [|vp vps] Hlen;
    try done. cbn. f_equal. apply IH. by injection Hlen.
Qed.

(** X18. [add_documents_to_qdrant] when every document can be embedded and
    has a source: the function requests one embedding per document, in the
    order of the documents, for the text of the document without its
    spaces, and then sends all points in one upsert. The ids of the points
    are 0, 1, 2, ... in the order of the documents, whatever the
    documents are, so the points of a second call take the ids of the
    first. Each point carries the first vector of the reply for its
    document, the text without spaces as content and the last component of
    the source path as file name. *)
Theorem add_documents_to_qdrant_numbers_the_points
    index_name docs openai_api_key vps m :
  let client := {| api_key := Some openai_api_key; base_url := None;
                   default_query := [] |} in
  let outcome :=
    add_documents_to_qdrant services index_name docs openai_api_key m in
  Forall2 (embeds services client) docs vps →
  ∃ points,
    sent outcome.2 =
      sent m ++ (embedding_call client <$> docs)
             ++ [Upsert index_name points true] ∧
    id <$> points = seq 0 (length docs) ∧
    points = points_from 0 docs vps ∧
    Forall2 (λ doc point,
               content (payload point) = remove_spaces (page_content doc) ∧
               has_space (content (payload point)) = false ∧
               has_sep (file_name (payload point)) = false) docs points ∧
    Forall2 (λ vp point, vector point = vp.1 ∧
                         file_name (payload point) = basename vp.2)
      vps points ∧
    match qdrant_upsert services index_name points with
    | inr operation_info =>
        outcome.1 = Ok () ∧ stdout outcome.2 = stdout m ++ [operation_info]
    | inl msg =>
        outcome.1 = Raise (APIError msg) ∧ stdout outcome.2 = stdout m
    end.
Proof.
  cbv zeta. intros Hall. unfold add_documents_to_qdrant. cbv zeta.
  rewrite script_bind_unfold.
  rewrite (qdrant_points_served _ _ _ _ _ _ Hall).
  cbn [app]. ssimpl.
  exists (points_from 0 docs vps). split_and!.
  - destruct (qdrant_upsert _ _ _) as [msg|info]; ssimpl;
      by rewrite <-app_assoc.
  - apply ids_points_from. by eapply Forall2_length.
  - done.
  - clear -Hall. generalize 0. induction Hall; intros i; cbn; constructor.
    + split_and!; [done|apply has_space_remove_spaces|apply has_sep_basename].
    + done.
  - clear -Hall. generalize 0. induction Hall; intros i; cbn; by constructor.
  - by destruct (qdrant_upsert _ _ _) as [msg|info].
Qed.

(** X19. [add_documents_to_qdrant] sends nothing to Qdrant unless every
    document can be made a point. When the documents before one that
    cannot (its embedding request fails, the reply holds no vector, or the
    document has no source) can, the function raises the error of that
    document; by then one embedding was requested for each of the documents
    before it and for the document itself, and no upsert was sent: the
    points built so far are lost, and nothing is printed. *)
Theorem add_documents_to_qdrant_upserts_nothing_on_failure
    index_name good bad rest openai_api_key vps e m :
  let client := {| api_key := Some openai_api_key; base_url := None;
                   default_query := [] |} in
  Forall2 (embeds services client) good vps →
  cannot_embed services client bad e →
  add_documents_to_qdrant services index_name (good ++ bad :: rest)
    openai_api_key m
  = (Raise e,
     {| indices := indices m; collections := collections m;
        stdout := stdout m;
        sent := sent m ++ (embedding_call client <$> good)
                       ++ [embedding_call client bad] |}).
Proof.
  cbv zeta. intros Hall Hbad. unfold add_documents_to_qdrant. cbv zeta.
  rewrite script_bind_unfold.
  rewrite (qdrant_points_prefix _ _ _ _ _ _ _ Hall).
  rewrite (qdrant_points_failed _ _ _ _ _ _ _ Hbad).
  cbn [indices collections stdout sent]. by rewrite <-app_assoc.
Qed.

(** X20. [search_xyz_qa] asks Qdrant for at most [MAX_SEARCH_RESULTS] = 3
    points of the collection "documents" and turns each point of the reply
    into one [SearchOutput], in the order of the reply. Whenever it returns,
    it has sent two requests: the embedding of the query as it was given,
    by a client for Azure exactly when the settings hold a non-empty Azure
    key, and the vector query with the first vector of the embedding
    reply. When the reply to the embedding request holds no vector, the
    function fails before it queries Qdrant. *)
Theorem search_xyz_qa_returns_the_points env query m :
  let settings := Settings_load env in
  let client := embedding_client settings in
  let outcome := search_xyz_qa services env query m in
  let asked := EmbeddingsCreate client "text-embedding-3-small" query in
  (truthy (azure_openai_api_key settings) = true →
     api_key client = azure_openai_api_key settings ∧
     base_url client =
       Some (format (azure_openai_endpoint settings)
             +:+ "/openai/deployments/"
             +:+ format (azure_openai_embedding_deployment_name settings))) ∧
  (truthy (azure_openai_api_key settings) = false →
     api_key client = openai_api_key settings ∧ base_url client = None) ∧
  (∀ outputs, outcome.1 = Ok outputs →
     ∃ v more points,
       embeddings_create services client "text-embedding-3-small" query
         = inr (v :: more) ∧
       query_points services "documents" v MAX_SEARCH_RESULTS = inr points ∧
       outputs = from_point services <$> points ∧
       length outputs = length points ∧
       sent outcome.2 =
         sent m ++ [asked; QueryPoints "documents" v MAX_SEARCH_RESULTS] ∧
       stdout outcome.2 = stdout m) ∧
  (embeddings_create services client "text-embedding-3-small" query = inr [] →
     outcome.1 = Raise (IndexError "list index out of range") ∧
     sent outcome.2 = sent m ++ [asked]).
Proof.
  cbv zeta. split_and!.
  - unfold embedding_client. by intros ->.
  - unfold embedding_client. by intros ->.
  - intros outputs. unfold search_xyz_qa. cbv zeta. ssimpl.
    destruct (embeddings_create _ _ _ _) as [msg|[|v more]] eqn:Hreply;
      unfold first_embedding; ssimpl; try done.
    destruct (query_points _ _ _ _) as [msg|points] eqn:Hpoints; ssimpl;
      [done|].
    intros [= <-]. exists v, more, points.
    split_and!; try done.
    + apply length_fmap.
    + by rewrite <-app_assoc.
  - intros Hreply. unfold search_xyz_qa. cbv zeta. ssimpl.
    rewrite Hreply. unfold first_embedding. by ssimpl.
Qed.

End Documents.

(** * The modules of chapter5 *)

(** Unfolds the monad of the modules and its primitive operations. *)
Ltac calls_simpl :=
  repeat progress
    (unfold mbind, mret, Chapter5.Calls_bind, Chapter5.Calls_ret,
       Chapter5.throw, Chapter5.request in *;
     cbn [fst snd] in *).

Section Chapter5Properties.
Import Chapter5.
Variable lower : string → string.
Variable chat : CompletionRequest → string + Completion.
Variable render : string → string → string → string.

#[local] Abbreviation respond := (generate_response lower chat).

Lemma calls_bind_unfold {A B} (c : Calls A) (k : A → Calls B) log :
  (c ≫= k) log =
  match c log with
  | (Ok a, log') => k a log'
  | (Raise e, log') => (Raise e, log')
  end.
Proof. reflexivity. Qed.

(** The requests of [generate_response]: at most one, with the messages,
    the format and the model it was given. *)
Lemma generate_response_requests env messages model format log :
  ∃ sent,
    (generate_response lower chat env messages model format log).2
      = log ++ sent ∧
    length sent ≤ 1 ∧
    Forall (λ rq, r_messages rq = messages ∧
                  r_response_format rq = format ∧
                  ∀ name, model = Some name → r_model rq = name) sent.
Proof.
  unfold generate_response, _get_client. calls_simpl.
  repeat case_match; simplify_eq/=;
    first [exists []; rewrite app_nil_r; split_and!; [done|cbn; lia|done]
          |eexists [_]; split_and!; [done|done|];
           repeat constructor; by intros ? [= <-]].
Qed.

(** X22. [generate_response] sends at most one request, and none unless
    the environment is configured for the provider: with the provider
    "azure" it needs a key and an endpoint, with any other provider an
    OpenAI key, and it raises [ValueError] before any request otherwise.
    The request carries the messages as they were given, and a model given
    by the caller as it was given. The content of the response is a string
    also when the completion has none, and the cost is 0.0 whenever the
    provider is "azure", the completion reports no usage, or the model is
    not one of the three of the price table. *)
Theorem generate_response_sends_one_request env messages model format log :
  let outcome := generate_response lower chat env messages model format log in
  let provider := lower (getenv env "API_PROVIDER" "openai") in
  (configured lower env = false →
   ∃ msg, outcome = (Raise (ValueError msg), log)) ∧
  (∃ sent, outcome.2 = log ++ sent ∧ length sent ≤ 1 ∧
           Forall (λ rq, r_messages rq = messages ∧
                         r_response_format rq = format ∧
                         ∀ name, model = Some name → r_model rq = name)
             sent) ∧
  (∀ response, outcome.1 = Ok response →
     ∃ rq completion,
       outcome.2 = log ++ [rq] ∧ chat rq = inr completion ∧
       lr_messages response = messages ∧
       (message_content completion = None → lr_content response = EmptyString) ∧
       (provider = "azure" ∨ usage completion = None
        ∨ r_model rq ∉ COST_models → lr_cost response = Free) ∧
       (∀ u, provider ≠ "azure" → usage completion = Some u →
             r_model rq ∈ COST_models →
             lr_cost response
               = Priced (r_model rq) (prompt_tokens u) (completion_tokens u))).
Proof.
  cbv zeta. unfold generate_response, _get_client, configured. calls_simpl.
  destruct (decide (lower _ = "azure"));
    destruct (Scripts.truthy (env !! "AZURE_OPENAI_API_KEY"));
    destruct (Scripts.truthy (env !! "AZURE_OPENAI_ENDPOINT"));
    destruct (Scripts.truthy (env !! "OPENAI_API_KEY"));
    cbn [negb orb andb];
    repeat case_match; simplify_eq/=;
    (split_and!;
     [first [by intros [=]|by eexists]
     |first [exists []; rewrite app_nil_r; split_and!; [done|cbn; lia|done]
            |eexists [_]; split_and!; [done|done|];
             repeat constructor; by intros ? [= <-]]
     |first [by intros ? [=]
            |intros ? [= <-]; eexists _, _; split_and!; try done;
             try (by intros ->);
             try (by intros [?|[?|?]]; simplify_eq);
             try (by intros ? ? ?; simplify_eq)]]).
Qed.

Lemma correction_messages_length t : length (correction_messages t) ≤ 4.
Proof.
  unfold correction_messages. rewrite !length_app.
  repeat case_match; cbn; lia.
Qed.

(** X23. [generate_code] shows the model the output of the previous run
    only when both its stdout and its stderr are non-empty. When the
    previous run printed nothing to stdout, its stderr does not reach the
    model: the function behaves the same whatever the stderr is, and the
    request holds no message about the output. Whenever a request is sent,
    it asks for a [Program] from the model given, and its messages are the
    rendered system prompt and the task, followed for a previous thread by
    its code, its output and its observation, each if non-empty: between
    two and six messages. *)
Theorem generate_code_needs_stdout_to_show_stderr
    env data_info user_request remote_save_dir previous model template_file log :
  let generate previous :=
    generate_code lower chat render env data_info user_request
      remote_save_dir previous model template_file log in
  let opening :=
    [{| role := system;
        content := Str (Some (render template_file data_info remote_save_dir)) |};
     {| role := user;
        content := Str (Some ("タスク要求: " +:+ user_request)) |}] in
  (∀ t other,
     Scripts.truthy (stdout t) = false →
     generate (Some t) =
     generate (Some {| code := code t; stdout := stdout t; stderr := other;
                       observation := observation t;
                       results := results t |}) ∧
     Forall (λ m, role m ≠ system) (correction_messages t)) ∧
  (∃ sent corrections,
     (generate previous).2 = log ++ sent ∧ length sent ≤ 1 ∧
     length corrections ≤ 4 ∧
     (previous = None → corrections = []) ∧
     (∀ t, previous = Some t → corrections = correction_messages t) ∧
     Forall (λ rq, r_messages rq = opening ++ corrections ∧
                   r_model rq = model ∧
                   r_response_format rq = Some Program) sent).
Proof.
  cbv zeta. split.
  - intros t other Hout. unfold generate_code, correction_messages. cbn.
    rewrite Hout. cbn [andb app]. split; [done|].
    apply Forall_app. split; repeat case_match; by repeat constructor.
  - set (corrections := match previous with
                        | Some t => correction_messages t
                        | None => []
                        end).
    unfold generate_code. cbv zeta.
    match goal with
    | |- context [generate_response _ _ _ ?msgs ?m ?f log] =>
        destruct (generate_response_requests env msgs m f log)
          as (sent & Hsent & Hlen & Hall)
    end.
    exists sent, corrections. split_and!; try done.
    + subst corrections. destruct previous; [apply correction_messages_length|].
      cbn. lia.
    + by intros ->.
    + by intros t ->.
    + eapply Forall_impl; [done|]. intros rq (Hm & Hf & Hn). cbn beta.
      rewrite Hm. split_and!; [|by apply Hn|done].
      subst corrections. destruct previous; [done|]. by rewrite app_nil_r.
Qed.

Lemma result_parts_well_formed results log :
  Forall well_formed results →
  result_parts results log = (Ok (part_of <$> results), log).
Proof.
  induction 1 as [|res results [[type Htype] [text Htext]] _ IH]; [done|].
  cbn [result_parts]. unfold item. rewrite Htype, Htext. calls_simpl.
  rewrite IH, fmap_cons. unfold part_of. rewrite Htype, Htext. cbn.
  by destruct (decide (type = _)), (decide (Some type = _)); simplify_eq.
Qed.

Lemma result_parts_ill_formed results log :
  ¬ Forall well_formed results →
  ∃ key, result_parts results log = (Raise (KeyError key), log).
Proof.
  induction results as [|res results IH]; intros Hnot.
  { destruct Hnot. constructor. }
  cbn [result_parts]. unfold item.
  destruct (res !! "type") as [type|] eqn:Htype; [|by eexists].
  destruct (res !! "content") as [text|] eqn:Htext; [|by eexists].
  calls_simpl. destruct IH as [key Hkey].
  { intros Hall. apply Hnot. constructor; [|done]. split; by eexists. }
  exists key. by rewrite Hkey.
Qed.

(** X24. [generate_review] shows the model the results of the run only
    when [has_results] is set. Without it the results do not matter and the
    request has six messages: the rendered system prompt, the user request,
    the code, the stdout, the stderr and the request for feedback. With it,
    and when every result has a type and a content, a seventh message comes
    fourth: one part per result, in order, a result of type png as an image
    URL with its content as base64 data, any other as text. When a result
    lacks a key, the function raises [KeyError] and sends nothing. *)
Theorem generate_review_shows_results_on_request
    env data_info user_request data_thread remote_save_dir model
    template_file log :
  let review data_thread has_results :=
    generate_review lower chat render env data_info user_request data_thread
      has_results remote_save_dir model template_file log in
  let before :=
    [{| role := system;
        content := Str (Some (render template_file data_info remote_save_dir)) |};
     {| role := user; content := Str (Some user_request) |};
     {| role := assistant; content := Str (code data_thread) |}] in
  let after :=
    [{| role := system;
        content := Str (Some ("stdout: "
                               +:+ Scripts.format (stdout data_thread))) |};
     {| role := system;
        content := Str (Some ("stderr: "
                               +:+ Scripts.format (stderr data_thread))) |};
     {| role := user;
        content := Str (Some "実行結果に対するフィードバックを提供してください。") |}] in
  (∀ other,
     review data_thread false =
     review {| code := code data_thread; stdout := stdout data_thread;
               stderr := stderr data_thread;
               observation := observation data_thread;
               results := other |} false) ∧
  (∃ sent,
     (review data_thread false).2 = log ++ sent ∧ length sent ≤ 1 ∧
     Forall (λ rq, r_messages rq = before ++ after ∧ r_model rq = model ∧
                   r_response_format rq = Some Review) sent) ∧
  (Forall well_formed (results data_thread) →
   ∃ sent,
     (review data_thread true).2 = log ++ sent ∧ length sent ≤ 1 ∧
     Forall (λ rq,
               r_messages rq =
                 before
                 ++ [{| role := system;
                        content := Parts (part_of <$> results data_thread) |}]
                 ++ after ∧
               r_model rq = model ∧ r_response_format rq = Some Review) sent) ∧
  (¬ Forall well_formed (results data_thread) →
   ∃ key, review data_thread true = (Raise (KeyError key), log)).
Proof.
  cbv zeta. split_and!.
  - done.
  - unfold generate_review. cbv zeta. rewrite calls_bind_unfold.
    unfold mret at 1, Calls_ret at 1.
    match goal with
    | |- context [generate_response _ _ _ ?msgs ?m ?f log] =>
        destruct (generate_response_requests env msgs m f log)
          as (sent & Hsent & Hlen & Hall)
    end.
    exists sent. split_and!; [done|done|].
    eapply Forall_impl; [done|]. intros rq (Hm & Hf & Hn). cbn beta.
    rewrite Hm. split_and!; [done|by apply Hn|done].
  - intros Hall. unfold generate_review. cbv zeta.
    rewrite !calls_bind_unfold, (result_parts_well_formed _ _ Hall).
    unfold mret at 1, Calls_ret at 1.
    match goal with
    | |- context [generate_response _ _ _ ?msgs ?m ?f log] =>
        destruct (generate_response_requests env msgs m f log)
          as (sent & Hsent & Hlen & Hsent_all)
    end.
    exists sent. split_and!; [done|done|].
    eapply Forall_impl; [done|]. intros rq (Hm & Hf & Hn). cbn beta.
    rewrite Hm. split_and!; [|by apply Hn|done].
    by rewrite <-app_assoc.
  - intros Hnot. unfold generate_review. cbv zeta.
    destruct (result_parts_ill_formed _ log Hnot) as [key Hkey].
    exists key. by rewrite !calls_bind_unfold, Hkey.
Qed.

End Chapter5Properties.

(** * Runs of the help desk with one tool *)

Module Runs.
Import Example.

(** C1. The retry of the selector after one unsatisfied round: the
    list it sends to the model, and carries forward with the new assistant
    message, still holds the role=tool message of the first round and the
    assistant message that carried its tool calls. Line 244 keeps a message
    unless it has role tool and a [tool_calls] key at once, so it removes
    neither. *)
Theorem retry_keeps_tool_messages :
  let a := agent ["look up ERR-404"] (Some [manual_call]) false in
  let first_round :=
    [system_message "solve the sub-task";
     user_message "sub-task: look up ERR-404";
     assistant_tool_calls_message [manual_call];
     tool_message "text {keywords: ERR-404}" "call_1";
     assistant_message (Some "found it");
     user_message "reflect";
     assistant_message (Some "{is_completed: false}")] in
  let retry := select_tools a retry_state after_one_round.2 in
  sg_challenge_count retry_state = 1%Z ∧
  buffer retry_state after_one_round.2 = first_round ∧
  (∃ rq, last (trace retry.2) = Some (ModelCall rq) ∧
         rq_messages rq = first_round ++ [user_message "try another tool"]) ∧
  (∃ u, retry.1 = Ok u ∧
        buffer (apply_update retry_state u) retry.2 =
          first_round ++ [user_message "try another tool";
                          assistant_tool_calls_message [manual_call]]).
Proof.
  cbv zeta. split_and!; [done|done| |].
  - eexists. split; [by vm_compute|done].
  - eexists. split; [by vm_compute|done].
Qed.

(** C2, witness: two sub-tasks, the second child completing first. *)
Lemma subtasks_follow_plan_witness :
  length (ar_subtasks two_subtasks_result)
    = length (subtasks (ar_plan two_subtasks_result)) ∧
  task_name <$> ar_subtasks two_subtasks_result
    = subtasks (ar_plan two_subtasks_result) ∧
  ∀ i description,
    subtasks (ar_plan two_subtasks_result) !! i = Some description →
    ∃ subtask, ar_subtasks two_subtasks_result !! i = Some subtask ∧
               task_name subtask = description.
Proof.
  apply (subtasks_follow_plan str dump
           (agent two_subtasks (Some [manual_call]) true)
           [1; 0] "what is ERR-404?" empty_world
           two_subtasks_result two_subtasks_run.2).
  - vm_compute. reflexivity.
  - vm_compute. apply perm_swap.
Defined.

(** C3, witness: the loop of a reflector that is never satisfied. *)
Lemma subtask_loop_terminates_witness :
  let a := agent ["look up ERR-404"] (Some [manual_call]) false in
  (∀ r w', subgraph_run str dump a 25 (n_select_tools, input) empty_world
             = (r, w') →
     r ≠ Raise GraphRecursionError ∧
     ∀ s', r = Ok s' →
       (1 ≤ sg_challenge_count s' ≤ 3)%Z ∧
       (sg_is_completed s' = true ∨ sg_challenge_count s' = 3%Z)) ∧
  (∀ k n s w1,
     subgraph_steps str dump a k (n_select_tools, input) empty_world
       = (Ok (n, s), w1) →
     n ≠ n_END → (sg_challenge_count s < 3)%Z) ∧
  (∀ k s w1 n' s' w2,
     subgraph_steps str dump a k (n_select_tools, input) empty_world
       = (Ok (n_reflect_subtask, s), w1) →
     subgraph_step str dump a (n_reflect_subtask, s) w1 = (Ok (n', s'), w2) →
     (1 ≤ sg_challenge_count s' ≤ 3)%Z ∧
     (n' = n_END ↔
      sg_is_completed s' = true ∨ sg_challenge_count s' = 3%Z) ∧
     (n' ≠ n_END → n' = n_select_tools)).
Proof.
  apply (subtask_loop_terminates str dump
           (agent ["look up ERR-404"] (Some [manual_call]) false)
           input empty_world 25).
  - reflexivity.
  - lia.
Defined.

(** C4, as the spec states it, fails: the answer of the exhausted sub-task
    is the sub-task followed by a Japanese sentence, not the sub-task
    preceded by "no answer found for: ". *)
Lemma placeholder_is_not_english :
  exhausted.1 = Ok exhausted_state ∧
  sg_is_completed exhausted_state = false ∧
  sg_subtask_answer exhausted_state
    = Some (Some "look up ERR-404の回答が見つかりませんでした。") ∧
  sg_subtask_answer exhausted_state
    ≠ Some (Some ("no answer found for: " +:+ sg_subtask exhausted_state)).
Proof. split_and!; [by vm_compute..|]. vm_compute. discriminate. Qed.

(** C4, witness. *)
Lemma exhausted_subtask_answer_witness :
  sg_challenge_count exhausted_state = MAX_CHALLENGE_COUNT ∧
  sg_subtask exhausted_state = sg_subtask input ∧
  sg_subtask_answer exhausted_state
    = Some (Some (sg_subtask input +:+ "の回答が見つかりませんでした。")).
Proof.
  apply (exhausted_subtask_answer str dump
           (agent ["look up ERR-404"] (Some [manual_call]) false)
           input empty_world default_recursion_limit
           exhausted_state exhausted.2).
  - reflexivity.
  - vm_compute. reflexivity.
  - vm_compute. reflexivity.
Defined.

(** C5, witness: the loop of a reflector that is never satisfied. *)
Lemma rounds_are_counted_witness :
  let a := agent ["look up ERR-404"] (Some [manual_call]) false in
  (∀ k s w1 n' s' w2,
     subgraph_steps str dump a k (n_select_tools, input) empty_world
       = (Ok (n_reflect_subtask, s), w1) →
     subgraph_step str dump a (n_reflect_subtask, s) w1 = (Ok (n', s'), w2) →
     Z.of_nat (length (sg_tool_results s')) = sg_challenge_count s' ∧
     Z.of_nat (length (sg_reflection_results s')) = sg_challenge_count s') ∧
  (∀ limit s' w',
     subgraph_run str dump a limit (n_select_tools, input) empty_world
       = (Ok s', w') →
     Z.of_nat (length (sg_tool_results s')) = sg_challenge_count s' ∧
     Z.of_nat (length (sg_reflection_results s')) = sg_challenge_count s') ∧
  (∀ n s w1 n' s' w2,
     subgraph_step str dump a (n, s) w1 = (Ok (n', s'), w2) →
     length (sg_tool_results s') =
       length (sg_tool_results s)
       + (if decide (n = n_execute_tools) then 1 else 0) ∧
     length (sg_reflection_results s') =
       length (sg_reflection_results s)
       + (if decide (n = n_reflect_subtask) then 1 else 0) ∧
     sg_challenge_count s' =
       (sg_challenge_count s
        + (if decide (n = n_reflect_subtask) then 1 else 0))%Z).
Proof.
  apply (rounds_are_counted str dump
           (agent ["look up ERR-404"] (Some [manual_call]) false)
           input empty_world); reflexivity.
Defined.

Lemma strict_agrees plan calls satisfied :
  agents_agree (agent plan calls satisfied)
    (agent_with ∅ (strict (stub plan calls satisfied))).
Proof.
  unfold agents_agree. split_and!; try reflexivity.
  intros rq [Htemperature _]. cbn. by rewrite Htemperature.
Defined.

(** C6, witness: the run of [two_subtasks_run] against a run from another
    world, with the children completing in the other order, and with the
    stub that refuses requests whose temperature is not zero. *)
Lemma pinned_requests_reproducible_witness :
  (∃ events,
     trace two_subtasks_run.2 = trace empty_world ++ events ∧
     ∀ rq, ModelCall rq ∈ events →
           rq_temperature rq = 0%Z ∧ rq_seed rq = 0%Z) ∧
  (run_agent str dump
     (agent_with ∅ (strict (stub two_subtasks (Some [manual_call]) true)))
     [0; 1] "what is ERR-404?" after_one_round.2).1
  = Ok two_subtasks_result.
Proof.
  destruct (pinned_requests_reproducible str dump
              (agent two_subtasks (Some [manual_call]) true))
    as [Hpinned Hsame].
  split.
  - apply Hpinned.
  - apply (Hsame _ [1; 0] [0; 1] "what is ERR-404?" empty_world).
    + apply strict_agrees.
    + vm_compute. reflexivity.
    + vm_compute. apply perm_swap.
    + vm_compute. reflexivity.
Defined.



(** C8. The executor does not translate the arguments of a tool call: the
    handler is invoked with the JSON text as the model produced it, its
    result shows which kind of input it was given, and the [ToolResult]
    records the text. The docstring of [execute_tools] (line 290) and the
    comments of lines 325 and 331-332 show a handler called with parsed
    keyword arguments. *)
Lemma handler_receives_raw_text :
  let a := agent ["look up ERR-404"] (Some [manual_call]) false in
  let executed := execute_tools str a one_call_state one_call_selected.2 in
  trace executed.2 =
    trace one_call_selected.2
    ++ [ToolInvoke "search_xyz_manual" (StrInput "{keywords: ERR-404}")] ∧
  ∃ u, executed.1 = Ok u ∧
       u_tool_results u =
         Some [[{| tr_tool_name := "search_xyz_manual";
                   tr_args := "{keywords: ERR-404}";
                   tr_results := ["text {keywords: ERR-404}"] |}]].
Proof. cbv zeta. split; [by vm_compute|]. eexists. by vm_compute. Qed.

(** C9, as the spec states it, fails: with [max_challenges=5] in the
    environment the settings are those of the empty environment, and the
    loop of a reflector that is never satisfied still ends after three
    rounds. *)
Lemma configured_budget_is_ignored :
  Settings_load {["max_challenges" := "5"]} = Settings_load ∅ ∧
  exhausted_with_budget_5.1 = Ok exhausted_state_5 ∧
  sg_is_completed exhausted_state_5 = false ∧
  sg_challenge_count exhausted_state_5 = 3%Z ∧
  sg_challenge_count exhausted_state_5 ≠ 5%Z.
Proof. split_and!; [by vm_compute..|]. by vm_compute. Qed.

(** C9, witness. *)
Lemma retry_budget_is_fixed_witness :
  let a := agent_with {["max_challenges" := "5"]}
             (stub ["look up ERR-404"] (Some [manual_call]) false) in
  settings a = Settings_load ∅ ∧
  MAX_CHALLENGE_COUNT = 3%Z ∧
  (sg_challenge_count exhausted_state_5 ≤ 3)%Z ∧
  (sg_is_completed exhausted_state_5 = false →
   sg_challenge_count exhausted_state_5 = 3%Z).
Proof.
  apply (retry_budget_is_fixed str dump
           (agent_with {["max_challenges" := "5"]}
              (stub ["look up ERR-404"] (Some [manual_call]) false))
           ∅ "5" input empty_world default_recursion_limit
           exhausted_state_5 exhausted_with_budget_5.2).
  - reflexivity.
  - reflexivity.
  - vm_compute. reflexivity.
Defined.

(** C10, witness: two calls, the second to a tool that is not registered.
    The reply to the first call is in the list when [KeyError] is raised. *)
Lemma execute_tools_not_atomic_witness :
  let a := agent ["look up ERR-404"] (Some [manual_call; web_call]) false in
  let selected :=
    [system_message "solve the sub-task";
     user_message "sub-task: look up ERR-404";
     assistant_tool_calls_message [manual_call; web_call]] in
  let outcomes := [(search_xyz_manual, ["text {keywords: ERR-404}"])] in
  ∃ w',
    execute_tools str a two_calls_state two_calls_selected.2
      = (Raise (KeyError "search_web"), w') ∧
    heap w' !! 0 =
      Some (selected ++ zip_with (tool_reply str) [manual_call] outcomes) ∧
    Forall2 (λ c m, role m = tool ∧ tool_call_id m = Some (tc_id c))
      [manual_call] (zip_with (tool_reply str) [manual_call] outcomes) ∧
    trace w' =
      trace two_calls_selected.2
      ++ zip_with tool_event [manual_call] outcomes
      ++ failed_call_events a web_call.
Proof.
  cbv zeta.
  apply (execute_tools_not_atomic str
           (agent ["look up ERR-404"] (Some [manual_call; web_call]) false)
           two_calls_state two_calls_selected.2 0
           [system_message "solve the sub-task";
            user_message "sub-task: look up ERR-404";
            assistant_tool_calls_message [manual_call; web_call]]
           (assistant_tool_calls_message [manual_call; web_call])
           [manual_call] [(search_xyz_manual, ["text {keywords: ERR-404}"])]
           web_call [] (KeyError "search_web")).
  - reflexivity.
  - vm_compute. reflexivity.
  - reflexivity.
  - reflexivity.
  - constructor; [|constructor]. split; vm_compute; reflexivity.
  - left. split; vm_compute; reflexivity.
Defined.

End Runs.

(** * Runs for the further properties *)

Module Checks.
Import Example Cases.

(** X2, witness: the executor on the state after a whole round, whose last
    message is the reflection. *)
Lemma execute_tools_rejects_witness :
  execute_tools str unsatisfied retry_state after_one_round.2
    = (Raise (KeyError "tool_calls"), after_one_round.2).
Proof.
  apply (execute_tools_rejects str unsatisfied retry_state after_one_round.2).
  intros final calls _ Hlast. vm_compute in Hlast.
  injection Hlast as <-. discriminate.
Defined.

(** X3, witness: one call to the registered tool. *)
Lemma execute_tools_serves_in_order_witness :
  ∃ u w' round replies,
    execute_tools str unsatisfied one_call_state one_call_selected.2
      = (Ok u, w') ∧
    u_messages u = Some 0 ∧
    u_tool_results u = Some [round] ∧
    Forall2 (λ c r, tr_tool_name r = fn_name (tc_function c) ∧
                    tr_args r = fn_arguments (tc_function c))
      [manual_call] round ∧
    Forall2 (λ o r, tr_results r = o.2)
      [(search_xyz_manual, ["text {keywords: ERR-404}"])] round ∧
    heap w' =
      <[0 := [system_message "solve the sub-task";
              user_message "sub-task: look up ERR-404";
              assistant_tool_calls_message [manual_call]] ++ replies]>
        (heap one_call_selected.2) ∧
    Forall2 (λ c m, role m = tool ∧ tool_call_id m = Some (tc_id c))
      [manual_call] replies ∧
    Forall2 (λ o m, content m = Some (Some (str o.2)))
      [(search_xyz_manual, ["text {keywords: ERR-404}"])] replies ∧
    trace w' =
      trace one_call_selected.2
      ++ zip_with tool_event [manual_call]
           [(search_xyz_manual, ["text {keywords: ERR-404}"])].
Proof.
  apply (execute_tools_serves_in_order str unsatisfied one_call_state
           one_call_selected.2 0
           [system_message "solve the sub-task";
            user_message "sub-task: look up ERR-404";
            assistant_tool_calls_message [manual_call]]
           (assistant_tool_calls_message [manual_call])
           [manual_call]
           [(search_xyz_manual, ["text {keywords: ERR-404}"])]).
  - reflexivity.
  - reflexivity.
  - reflexivity.
  - reflexivity.
  - repeat constructor.
Defined.

(** X5, witness: a reflector whose reply holds no parsed reflection. *)
Lemma reflect_subtask_leaves_its_prompt_witness :
  let history :=
    [system_message "solve the sub-task";
     user_message "sub-task: look up ERR-404";
     assistant_tool_calls_message [manual_call];
     tool_message "text {keywords: ERR-404}" "call_1";
     assistant_message (Some "found it")] in
  let failed :=
    reflect_subtask dump silent_agent before_reflection_state
      before_reflection.2 in
  failed.1 = Raise (ValueError "内省結果がNullです") ∧
  heap failed.2 =
    <[0 := history ++ [user_message "reflect"]]> (heap before_reflection.2) ∧
  buffer before_reflection_state failed.2
    = history ++ [user_message "reflect"] ∧
  trace failed.2 =
    trace before_reflection.2
    ++ [ModelCall (reflection_request silent_agent history)] ∧
  ((∃ msg, ValueError "内省結果がNullです" = APIError msg) ∨
   ValueError "内省結果がNullです" = ValueError "内省結果がNullです") ∧
  (∀ e1,
     (create_subtask_answer silent_agent before_reflection_state
        before_reflection.2).1 = Raise e1 →
     heap (create_subtask_answer silent_agent before_reflection_state
             before_reflection.2).2 = heap before_reflection.2).
Proof.
  cbv zeta. split; [by vm_compute|].
  apply (reflect_subtask_leaves_its_prompt dump silent_agent
           before_reflection_state before_reflection.2 0
           [system_message "solve the sub-task";
            user_message "sub-task: look up ERR-404";
            assistant_tool_calls_message [manual_call];
            tool_message "text {keywords: ERR-404}" "call_1";
            assistant_message (Some "found it")]
           (ValueError "内省結果がNullです")
           (reflect_subtask dump silent_agent before_reflection_state
              before_reflection.2).2).
  - reflexivity.
  - reflexivity.
  - vm_compute. reflexivity.
Defined.

(** X6, witness: the loop of a reflector that is never satisfied. *)
Lemma history_only_grows_witness :
  (∀ j k c1 w1 c2 w2,
     subgraph_steps str dump unsatisfied j (n_select_tools, input) empty_world
       = (Ok c1, w1) →
     subgraph_steps str dump unsatisfied k c1 w1 = (Ok c2, w2) →
     buffer c1.2 w1 `prefix_of` buffer c2.2 w2) ∧
  (∀ j s w1 c2 w2,
     subgraph_steps str dump unsatisfied j (n_select_tools, input) empty_world
       = (Ok (n_select_tools, s), w1) →
     subgraph_step str dump unsatisfied (n_select_tools, s) w1 = (Ok c2, w2) →
     ∃ rq, trace w2 = trace w1 ++ [ModelCall rq] ∧
           rq_messages rq = buffer s w1 ++ round_prompt unsatisfied s).
Proof.
  apply (history_only_grows str dump unsatisfied input empty_world).
  - reflexivity.
  - reflexivity.
Defined.

(** X8, witness: a planner whose reply holds no parsed plan. *)
Lemma run_agent_without_plan_witness :
  run_agent str dump planless_agent [0] "what is ERR-404?" empty_world =
  (Raise (AttributeError "subtasks"),
   {| heap := [];
      trace := [ModelCall (plan_request planless_agent "what is ERR-404?")] |}).
Proof.
  apply (run_agent_without_plan str dump planless_agent [0]
           "what is ERR-404?" empty_world).
  reflexivity.
Defined.

(** X9, witness: the run with two sub-tasks. *)
Lemma answer_is_built_from_subtasks_witness :
  ∃ events reply,
    let rq := last_answer_request (agent two_subtasks (Some [manual_call]) true)
                "what is ERR-404?"
                (subtasks (ar_plan two_subtasks_result))
                (ar_subtasks two_subtasks_result) in
    trace two_subtasks_run.2 =
      trace empty_world
      ++ [ModelCall (plan_request (agent two_subtasks (Some [manual_call]) true)
                       "what is ERR-404?")]
      ++ events ++ [ModelCall rq] ∧
    chat_completions_create
      (client (agent two_subtasks (Some [manual_call]) true)) rq = inr reply ∧
    ar_answer two_subtasks_result = cm_content reply ∧
    ar_question two_subtasks_result = "what is ERR-404?".
Proof.
  apply (answer_is_built_from_subtasks str dump
           (agent two_subtasks (Some [manual_call]) true)
           [1; 0] "what is ERR-404?" empty_world
           two_subtasks_result two_subtasks_run.2).
  vm_compute. reflexivity.
Defined.

(** X10, witness: the model asks for a tool that is not registered. *)
Lemma child_errors_witness :
  web_child.1 = Raise (KeyError "search_web") ∧
  node_error web_agent (KeyError "search_web") ∧
  (∀ msg, KeyError "search_web" ≠ IndexError msg) ∧
  KeyError "search_web" ≠ GraphRecursionError.
Proof.
  split; [by vm_compute|].
  apply (child_errors str dump web_agent planned empty_world [first_send]
           empty_world first_send empty_world (KeyError "search_web")
           web_child.2).
  - reflexivity.
  - apply list_elem_of_singleton. reflexivity.
  - vm_compute. reflexivity.
Defined.

(** X11, witness: a sub-task of three rounds, one invocation in each. *)
Lemma invocations_are_recorded_witness :
  ∃ st events,
    child_update_of child.1 = contribution st ∧
    trace child.2 = trace empty_world ++ events ∧
    tool_invocations events = recorded (st_tool_results st) ∧
    Forall (Forall (genuine unsatisfied)) (st_tool_results st).
Proof.
  apply (invocations_are_recorded str dump (Settings_load ∅)
           [search_xyz_manual] Example.prompts
           (stub one_task (Some [manual_call]) false)
           planned empty_world (child_update_of child.1) child.2).
  vm_compute. reflexivity.
Defined.

(** X12, witness: the first round of the loop of [after_one_round]. *)
Lemma first_round_transcript_witness :
  ∃ calls outcomes answer reflection rq1 rq2 rq3,
    Forall2 (handled unsatisfied) calls outcomes ∧
    buffer retry_state after_one_round.2 =
      [system_message "solve the sub-task";
       user_message "sub-task: look up ERR-404";
       assistant_tool_calls_message calls]
      ++ zip_with (tool_reply str) calls outcomes
      ++ [assistant_message answer;
          user_message "reflect";
          assistant_message (Some (dump reflection))] ∧
    trace after_one_round.2 =
      trace empty_world ++ [ModelCall rq1]
      ++ zip_with tool_event calls outcomes
      ++ [ModelCall rq2; ModelCall rq3] ∧
    rq_tools rq1 = Some (convert_to_openai_tool <$> tools unsatisfied) ∧
    rq_messages rq2 =
      [system_message "solve the sub-task";
       user_message "sub-task: look up ERR-404";
       assistant_tool_calls_message calls]
      ++ zip_with (tool_reply str) calls outcomes ∧
    sg_tool_results retry_state
      = sg_tool_results input ++ [zip_with tool_record calls outcomes].
Proof.
  apply (first_round_transcript str dump unsatisfied input empty_world
           (n_select_tools, retry_state) after_one_round.2).
  - reflexivity.
  - reflexivity.
  - vm_compute. reflexivity.
Defined.

Import Scripts.

(** X14, witness: asked to delete the collection "archive". *)
Lemma delete_qdrant_index_deletes_documents_witness :
  let after := (delete_qdrant_index "archive" servers).2 in
  (delete_qdrant_index "archive" servers).1 = Ok () ∧
  (is_Some (collections servers !! "archive") →
     is_Some (collections after !! "archive") ∧
     collections after = delete "documents" (collections servers) ∧
     last (stdout after) = Some "コレクション 'archive' を削除しました") ∧
  (collections servers !! "archive" = None →
     collections after = collections servers ∧
     last (stdout after) = Some "コレクション 'archive' は存在しません").
Proof.
  apply (delete_qdrant_index_deletes_documents "archive" servers).
  discriminate.
Defined.

(** X18, witness: two documents of a QA file. *)
Lemma add_documents_to_qdrant_numbers_the_points_witness :
  let outcome :=
    add_documents_to_qdrant services "documents" qa_docs "sk-test" servers in
  ∃ points,
    sent outcome.2 =
      sent servers ++ (embedding_call key_client <$> qa_docs)
                   ++ [Upsert "documents" points true] ∧
    id <$> points = seq 0 (length qa_docs) ∧
    points = points_from 0 qa_docs [(16, "data/qa.csv"); (12, "data/qa.csv")] ∧
    Forall2 (λ doc point,
               content (payload point) = remove_spaces (page_content doc) ∧
               has_space (content (payload point)) = false ∧
               has_sep (file_name (payload point)) = false) qa_docs points ∧
    Forall2 (λ vp point, vector point = vp.1 ∧
                         file_name (payload point) = basename vp.2)
      [(16, "data/qa.csv"); (12, "data/qa.csv")] points ∧
    match qdrant_upsert services "documents" points with
    | inr operation_info =>
        outcome.1 = Ok () ∧
        stdout outcome.2 = stdout servers ++ [operation_info]
    | inl msg =>
        outcome.1 = Raise (APIError msg) ∧ stdout outcome.2 = stdout servers
    end.
Proof.
  apply (add_documents_to_qdrant_numbers_the_points services "documents"
           qa_docs "sk-test" [(16, "data/qa.csv"); (12, "data/qa.csv")] servers).
  repeat constructor; by exists [].
Defined.

(** X19, witness: a document without a source after two good ones. *)
Lemma add_documents_to_qdrant_upserts_nothing_on_failure_witness :
  add_documents_to_qdrant services "documents"
    (qa_docs ++ stray_doc :: qa_docs) "sk-test" servers
  = (Raise (KeyError "source"),
     {| indices := indices servers; collections := collections servers;
        stdout := stdout servers;
        sent := sent servers ++ (embedding_call key_client <$> qa_docs)
                             ++ [embedding_call key_client stray_doc] |}).
Proof.
  apply (add_documents_to_qdrant_upserts_nothing_on_failure services
           "documents" qa_docs stray_doc qa_docs "sk-test"
           [(16, "data/qa.csv"); (12, "data/qa.csv")]
           (KeyError "source") servers).
  - repeat constructor; by exists [].
  - right. right. by exists 8, [].
Defined.

End Checks.
